(** * FakeMessageComposer: the channel-scoped reconciliation engine

    A shallow embedding of [src/MessageUtilities.js] (class
    [FakeMessageComposer]) and the properties of its configuration store,
    identity cache, reconciliation engine and lifecycle controller.

    Conventions of the embedding.
    - A JavaScript string is a [string]: its characters are the code units
      below 256.  [trim] removes the ECMAScript white space and line
      terminators of that range.
    - A JavaScript value is a [value]; objects are finite maps from property
      names to values ([gmap string value]), so the order of the properties
      is not represented.  Numbers are the integral ones.
    - A JavaScript [Map] is an insertion-ordered association list
      ([JsMap]): the order is the order in which [entries()] yields.
    - A method of the class is a computation in the monad [M]: it reads and
      updates the fields of [this] (a [plugin]), may throw, and appends the
      calls it makes to the host's collaborators to a trace of [event]s.
    - An [async] method is run to completion: no other handler is
      interleaved at its [await] points.  A rejected promise is the outcome
      [Throw]. *)

From Stdlib Require Import Ascii.
From stdpp Require Import base option list strings gmap fin_maps pretty.

#[local] Set Warnings "-register-all,-clear-no-such-hyp".

Open Scope Z_scope.

(** ** Strings *)

Module JsString.

(** WhiteSpace and LineTerminator code units below 256: TAB, LF, VT, FF,
    CR, SPACE and NO-BREAK SPACE. *)
Definition is_ws (a : ascii) : bool :=
  let n := nat_of_ascii a in
  ((9 <=? n)%nat && (n <=? 13)%nat) || (n =? 32)%nat || (n =? 160)%nat.

Definition is_digit (a : ascii) : bool :=
  let n := nat_of_ascii a in (48 <=? n)%nat && (n <=? 57)%nat.

Definition is_empty (s : string) : bool :=
  match s with EmptyString => true | String _ _ => false end.

Fixpoint trimStart (s : string) : string :=
  match s with
  | EmptyString => EmptyString
  | String a s' => if is_ws a then trimStart s' else s
  end.

Fixpoint trimEnd (s : string) : string :=
  match s with
  | EmptyString => EmptyString
  | String a s' =>
      let r := trimEnd s' in
      if is_ws a && is_empty r then EmptyString else String a r
  end.

(** [String.prototype.trim]. *)
Definition trim (s : string) : string := trimEnd (trimStart s).

Fixpoint all_digits (s : string) : bool :=
  match s with
  | EmptyString => true
  | String a s' => is_digit a && all_digits s'
  end.

(** [/^\d{5,}$/.test(s)]: the whole input is digits, five or more. *)
Definition test_digits5 (s : string) : bool :=
  all_digits s && (5 <=? String.length s)%nat.

(** The decimal numeral of a natural number, as in a template literal. *)
Definition decimal (n : nat) : string := pretty n.

End JsString.

Import JsString.

(** ** Values *)

Inductive value : Type :=
  | VUndefined
  | VNull
  | VBool (b : bool)
  | VNum (n : Z)
  | VStr (s : string)
  | VArr (l : list value)
  | VObj (m : gmap string value).

(** ToBoolean. *)
Definition truthy (v : value) : bool :=
  match v with
  | VUndefined | VNull => false
  | VBool b => b
  | VNum n => negb (n =? 0)
  | VStr s => negb (is_empty s)
  | VArr _ | VObj _ => true
  end.

Definition nullish (v : value) : bool :=
  match v with VUndefined | VNull => true | _ => false end.

(** [a ?? b] on values already evaluated. *)
Definition coalesce (a b : value) : value := if nullish a then b else a.

(** [v?.k] for a data property [k]: undefined on null and undefined, the
    own property of an object, undefined on the other values (none of the
    names the program reads is a property of a prototype). *)
Definition opt_prop (v : value) (k : string) : value :=
  match v with
  | VObj m => default VUndefined (m !! k)
  | _ => VUndefined
  end.

(** [typeof v === "string" ? v : ""]. *)
Definition string_or_empty (v : value) : string :=
  match v with VStr s => s | _ => "" end.

(** [v === s] for a string [s]. *)
Definition strict_eq_string (v : value) (s : string) : bool :=
  match v with VStr s' => bool_decide (s' = s) | _ => false end.

(** ToString, as a template literal applies it. *)
Fixpoint ToString (v : value) : string :=
  match v with
  | VUndefined => "undefined"
  | VNull => "null"
  | VBool b => if b then "true" else "false"
  | VNum n => pretty n
  | VStr s => s
  | VArr l =>
      (fix join (l : list value) : string :=
         match l with
         | [] => ""
         | x :: l' =>
             (if nullish x then "" else ToString x)
             +:+ match l' with [] => "" | _ :: _ => "," +:+ join l' end
         end) l
  | VObj _ => "[object Object]"
  end.

(** The own enumerable properties that [{...v}] copies. *)
Definition own_props (v : value) : gmap string value :=
  match v with
  | VObj m => m
  | VArr l => list_to_map (imap (λ i x, (decimal i, x)) l)
  | VStr s =>
      list_to_map
        (imap (λ i c, (decimal i, VStr (String c EmptyString))) (String.list_ascii_of_string s))
  | _ => ∅
  end.

(** ** Map objects *)

Module JsMap.
Section jsmap.
Context {V : Type}.

Fixpoint get (k : string) (m : list (string * V)) : option V :=
  match m with
  | [] => None
  | (k', v) :: m' => if decide (k' = k) then Some v else get k m'
  end.

Definition has (k : string) (m : list (string * V)) : bool :=
  bool_decide (is_Some (get k m)).

(** [set] keeps the position of a key that is present and appends a new
    one. *)
Fixpoint set (k : string) (v : V) (m : list (string * V)) : list (string * V) :=
  match m with
  | [] => [(k, v)]
  | (k', v') :: m' =>
      if decide (k' = k) then (k, v) :: m' else (k', v') :: set k v m'
  end.

Fixpoint delete (k : string) (m : list (string * V)) : list (string * V) :=
  match m with
  | [] => []
  | (k', v') :: m' =>
      if decide (k' = k) then delete k m' else (k', v') :: delete k m'
  end.

(** How many entries the table holds for [k]. *)
Definition count (k : string) (m : list (string * V)) : nat :=
  length (filter (λ e, e.1 = k) m).

(** A table built by [set] and [delete] from the empty one. *)
Definition wf (m : list (string * V)) : Prop := NoDup m.*1.
End jsmap.
End JsMap.

(** ** Outcomes of calls *)

Inductive outcome (A : Type) : Type :=
  | Ret (a : A)
  | Throw (e : value).
Arguments Ret {A} a.
Arguments Throw {A} e.

Definition TypeError : value := VStr "TypeError".

(** ** Configuration store: the pure part *)

Definition STORAGE_SLOT : string := "FakeMessageComposerConfig".
Definition MESSAGE_ID_PREFIX : string := "fake-message-composer".
Definition LOCAL_BADGE_TEXT : string := "LOCAL FAKE".
Definition PERSIST_DEBOUNCE_MS : Z := 250.

Definition getDefaultConfig : gmap string value :=
  <["enabled" := VBool true]>
  (<["discordId" := VStr ""]>
  (<["messageContent" := VStr "This is a local-only fake message."]>
  (<["channelMode" := VStr "any"]>
  (<["targetChannelId" := VStr ""]>
  (<["embeds" := VArr []]> ∅))))).

(** The property names of the Configuration entity. *)
Definition config_fields : gset string :=
  {[ "enabled"; "discordId"; "messageContent"; "channelMode";
     "targetChannelId"; "embeds" ]}.

Definition embed_entry (label url : string) : value :=
  VObj (<["label" := VStr label]> (<["url" := VStr url]> ∅)).

Definition normalizeEmbeds (candidate : value) : list value :=
  match candidate with
  | VArr l =>
      (λ entry, embed_entry (string_or_empty (opt_prop entry "label"))
                            (string_or_empty (opt_prop entry "url"))) <$> l
  | _ => []
  end.

(** [mergeWithDefaults(configLike = {})]: the default parameter replaces
    [undefined]; the second spread reads [configLike ?? {}]. *)
Definition mergeWithDefaults (configLike : value) : gmap string value :=
  let configLike := match configLike with VUndefined => VObj ∅ | v => v end in
  <["embeds" := VArr (normalizeEmbeds (coalesce (opt_prop configLike "embeds") (VArr [])))]>
    (own_props (coalesce configLike (VObj ∅)) ∪ getDefaultConfig).

(** ** The host and the plugin *)

(** One link of a built message: [type], [color] and [footer] are
    constants of the source and not represented. *)
Record link := Link {
  link_title : string;
  link_url : string;
  link_description : string;
}.

(** A built message; the fields whose value is a constant of the source
    ([type], [tts], [pinned], [flags], [state], the empty arrays, the
    origin marker [__fakeMessageComposer: true]) are not represented. *)
Record fake_message := FakeMessage {
  msg_id : string;
  msg_channel_id : string;
  msg_guild_id : value;
  msg_author : value;
  msg_content : value;
  msg_timestamp : string;
  msg_embeds : list link;
  msg_nonce : string;
}.

(** What is handed to [dispatcher.dispatch]. *)
Inductive action : Type :=
  | MESSAGE_CREATE (channelId : string) (message : fake_message)
  | MESSAGE_DELETE (id channelId : string).

(** The calls on the host's collaborators, in the order they are made. *)
Inductive event : Type :=
  | CallReceiveMessage (channelId : string) (message : fake_message)
  | CallDeleteMessage (channelId messageId : string)
  | CallDispatch (a : action)
  | CallGetUser (id : string)
  | CallFetchUser (id : string)
  | CallStorageSet (cfg : gmap string value)
  | CallUnsubscribe
  | CallUndoPatch
  | Warn (msg : string).

(** The behaviour of the host: for each collaborator method, [None] when
    the collaborator or the method is missing, and otherwise what a call
    returns or throws.  [storage_get] and [storage_set] are the calls on
    [this.storage] for the plugin's id and [STORAGE_SLOT]; the getters of
    the selected-channel store answer a channel id, a string, or nothing. *)
Record host := Host {
  storage_get : option (outcome value);
  storage_set : option (gmap string value → outcome unit);
  JSON_parse : string → outcome value;
  userStore_getUser : option (string → outcome value);
  userStore_fetchUser : option (string → outcome value);
  channelStore_getChannel : option (string → outcome value);
  getCurrentlySelectedChannelId : option (outcome (option string));
  getChannelId : option (outcome (option string));
  getMostRecentSelectedTextChannelId : option (outcome (option string));
  messageActions_receiveMessage : option (string → fake_message → outcome unit);
  messageActions_deleteMessage : option (string → string → outcome unit);
  dispatcher_dispatch : option (action → outcome unit);
  dispatcher_unsubscribe : outcome unit;
  Date_toISOString : Z → string;
}.

(** The fields of [this] that the engine uses, and the host's timer queue
    and clock: [timers] holds the handle and the due time of every pending
    [setTimeout], oldest first. *)
Record plugin := Plugin {
  config : gmap string value;
  persistTimer : option positive;
  timestampBadgePatched : bool;
  injectedMessages : list (string * string);
  userCache : list (string * value);
  channelSelectUnsub : bool;
  started : bool;
  patches : list (outcome unit);
  timers : list (positive * Z);
  next_timer : positive;
  now : Z;
}.

Definition set_config (c : gmap string value) (s : plugin) : plugin :=
  Plugin c (persistTimer s) (timestampBadgePatched s) (injectedMessages s)
    (userCache s) (channelSelectUnsub s) (started s) (patches s) (timers s)
    (next_timer s) (now s).
Definition set_persistTimer (t : option positive) (s : plugin) : plugin :=
  Plugin (config s) t (timestampBadgePatched s) (injectedMessages s)
    (userCache s) (channelSelectUnsub s) (started s) (patches s) (timers s)
    (next_timer s) (now s).
Definition set_timestampBadgePatched (b : bool) (s : plugin) : plugin :=
  Plugin (config s) (persistTimer s) b (injectedMessages s)
    (userCache s) (channelSelectUnsub s) (started s) (patches s) (timers s)
    (next_timer s) (now s).
Definition set_injectedMessages (m : list (string * string)) (s : plugin) : plugin :=
  Plugin (config s) (persistTimer s) (timestampBadgePatched s) m
    (userCache s) (channelSelectUnsub s) (started s) (patches s) (timers s)
    (next_timer s) (now s).
Definition set_userCache (m : list (string * value)) (s : plugin) : plugin :=
  Plugin (config s) (persistTimer s) (timestampBadgePatched s) (injectedMessages s)
    m (channelSelectUnsub s) (started s) (patches s) (timers s)
    (next_timer s) (now s).
Definition set_channelSelectUnsub (b : bool) (s : plugin) : plugin :=
  Plugin (config s) (persistTimer s) (timestampBadgePatched s) (injectedMessages s)
    (userCache s) b (started s) (patches s) (timers s)
    (next_timer s) (now s).
Definition set_started (b : bool) (s : plugin) : plugin :=
  Plugin (config s) (persistTimer s) (timestampBadgePatched s) (injectedMessages s)
    (userCache s) (channelSelectUnsub s) b (patches s) (timers s)
    (next_timer s) (now s).
Definition set_patches (p : list (outcome unit)) (s : plugin) : plugin :=
  Plugin (config s) (persistTimer s) (timestampBadgePatched s) (injectedMessages s)
    (userCache s) (channelSelectUnsub s) (started s) p (timers s)
    (next_timer s) (now s).
Definition set_timers (t : list (positive * Z)) (n : positive) (s : plugin) : plugin :=
  Plugin (config s) (persistTimer s) (timestampBadgePatched s) (injectedMessages s)
    (userCache s) (channelSelectUnsub s) (started s) (patches s) t n (now s).
Definition set_now (t : Z) (s : plugin) : plugin :=
  Plugin (config s) (persistTimer s) (timestampBadgePatched s) (injectedMessages s)
    (userCache s) (channelSelectUnsub s) (started s) (patches s) (timers s)
    (next_timer s) t.

(** The state the constructor leaves. *)
Definition constructed : plugin :=
  Plugin getDefaultConfig None false [] [] false false [] [] 1%positive 0.

(** ** The monad of methods *)

Definition M (A : Type) : Type := plugin → outcome A * plugin * list event.

Definition ret {A} (a : A) : M A := λ s, (Ret a, s, []).
Definition throw {A} (e : value) : M A := λ s, (Throw e, s, []).
Definition bind {A B} (m : M A) (k : A → M B) : M B :=
  λ s, match m s with
       | (Ret a, s1, t1) =>
           match k a s1 with (r, s2, t2) => (r, s2, t1 ++ t2) end
       | (Throw e, s1, t1) => (Throw e, s1, t1)
       end.
Definition get_this : M plugin := λ s, (Ret s, s, []).
Definition modify (f : plugin → plugin) : M unit := λ s, (Ret tt, f s, []).
Definition emit (e : event) : M unit := λ s, (Ret tt, s, [e]).
(** The result of a call on a collaborator. *)
Definition lift {A} (o : outcome A) : M A := λ s, (o, s, []).
(** [try { m } catch (error) { h error }]. *)
Definition try_catch {A} (m : M A) (h : value → M A) : M A :=
  λ s, match m s with
       | (Ret a, s1, t1) => (Ret a, s1, t1)
       | (Throw e, s1, t1) =>
           match h e s1 with (r, s2, t2) => (r, s2, t1 ++ t2) end
       end.
(** A call that is not awaited on an [async] method: a rejection is not
    seen by the caller. *)
Definition detached (m : M unit) : M unit :=
  λ s, match m s with (_, s1, t1) => (Ret tt, s1, t1) end.

#[global] Instance M_ret : MRet M := @ret.
#[global] Instance M_bind : MBind M := λ A B k m, bind m k.

(** [this.warn(msg, error)].  The messages of [this.log] and [this.error]
    are not represented. *)
Definition warn (msg : string) : M unit := emit (Warn msg).

#[global] Instance outcome_ret : MRet outcome := @Ret.
#[global] Instance outcome_bind : MBind outcome :=
  λ A B k o, match o with Ret a => k a | Throw e => Throw e end.

(** [for (const x of l) { f(x) }]: the first throw ends the loop. *)
Fixpoint for_each {A} (l : list A) (f : A → M unit) : M unit :=
  match l with
  | [] => ret tt
  | x :: l' => f x;; for_each l' f
  end.

(** [Array.prototype.filter] with a callback that may throw. *)
Fixpoint filter_o {A} (p : A → outcome bool) (l : list A) : outcome (list A) :=
  match l with
  | [] => Ret []
  | x :: l' =>
      b ← p x;
      r ← filter_o p l';
      Ret (if b : bool then x :: r else r)
  end.

(** [Array.prototype.map] with its index argument, from index [i] on. *)
Fixpoint imap_o {A B} (f : nat → A → outcome B) (i : nat) (l : list A)
  : outcome (list B) :=
  match l with
  | [] => Ret []
  | x :: l' =>
      y ← f i x;
      r ← imap_o f (S i) l';
      Ret (y :: r)
  end.

(** [.filter(Boolean)] on an array of objects and [null]s. *)
Definition filter_Boolean {A} (l : list (option A)) : list A := omap id l.

(** [v?.trim()]: undefined on null and undefined, the trimmed string on a
    string; on any other value [trim] is not a function. *)
Definition opt_trim (v : value) : outcome value :=
  match v with
  | VUndefined | VNull => Ret VUndefined
  | VStr s => Ret (VStr (trim s))
  | _ => Throw TypeError
  end.

(** [this.config.k]. *)
Definition field (cfg : gmap string value) (k : string) : value :=
  default VUndefined (cfg !! k).

Definition isSnowflake (v : value) : bool :=
  match v with
  | VStr s => test_digits5 (trim s)
  | _ => false
  end.

Record options := Options { skipPersist : bool; skipReload : bool }.
Definition no_options : options := Options false false.

Section engine.
Variable h : host.

(** *** Storage helpers *)

Definition loadConfig : M (gmap string value) :=
  try_catch
    (saved ← lift (match storage_get h with
                   | Some o => o
                   | None => Ret VUndefined
                   end);
     if negb (truthy saved) then mret getDefaultConfig
     else
       parsed ← lift (match saved with
                      | VStr s => JSON_parse h s
                      | v => Ret v
                      end);
       mret (mergeWithDefaults parsed))
    (λ _, warn "Failed to load config, reverting to defaults";;
          mret getDefaultConfig).

Definition clearTimeout (id : positive) : M unit :=
  modify (λ s, set_timers (filter (λ t, t.1 ≠ id) (timers s)) (next_timer s) s).

(** [setTimeout(callback, delay)]; every callback of the program is the
    persistence callback, so the queue holds handles and due times. *)
Definition setTimeout (delay : Z) : M positive :=
  s ← get_this;
  let id := next_timer s in
  modify (set_timers (timers s ++ [(id, now s + delay)]) (Pos.succ id));;
  mret id.

Definition clearPersistTimer : M unit :=
  s ← get_this;
  match persistTimer s with
  | Some id => clearTimeout id;; modify (set_persistTimer None)
  | None => mret tt
  end.

(** The callback that [enqueuePersist] hands to [setTimeout]. *)
Definition persist_callback : M unit :=
  try_catch
    (s ← get_this;
     match storage_set h with
     | Some f => emit (CallStorageSet (config s));; lift (f (config s))
     | None => mret tt
     end)
    (λ _, warn "Failed to persist FakeMessageComposer configuration").

Definition enqueuePersist : M unit :=
  clearPersistTimer;;
  id ← setTimeout PERSIST_DEBOUNCE_MS;
  modify (set_persistTimer (Some id)).

(** The host lets [dt] milliseconds pass and runs the callbacks of the
    timers that are due by then, oldest first. *)
Definition advance (dt : Z) : M unit :=
  modify (λ s, set_now (now s + dt) s);;
  s ← get_this;
  modify (set_timers (filter (λ t, ¬ (t.2 ≤ now s)) (timers s)) (next_timer s));;
  for_each (filter (λ t, t.2 ≤ now s) (timers s)) (λ _, persist_callback).

(** *** Message injection lifecycle *)

Definition dispatchMessageDelete (channelId messageId : string) : M unit :=
  match messageActions_deleteMessage h with
  | Some f => emit (CallDeleteMessage channelId messageId);; lift (f channelId messageId)
  | None =>
      match dispatcher_dispatch h with
      | Some d =>
          emit (CallDispatch (MESSAGE_DELETE messageId channelId));;
          lift (d (MESSAGE_DELETE messageId channelId))
      | None => mret tt
      end
  end.

Definition removeFakeMessage (channelId : string) : M unit :=
  s ← get_this;
  match JsMap.get channelId (injectedMessages s) with
  | Some existingId =>
      if is_empty existingId then mret tt
      else
        dispatchMessageDelete channelId existingId;;
        modify (λ s, set_injectedMessages (JsMap.delete channelId (injectedMessages s)) s)
  | None => mret tt
  end.

Definition clearInjectedMessages : M unit :=
  s ← get_this;
  for_each (injectedMessages s) (λ e, dispatchMessageDelete e.1 e.2);;
  modify (set_injectedMessages []).

Definition shouldRenderInChannel (channelId : string) : M bool :=
  s ← get_this;
  let cfg := config s in
  if negb (truthy (field cfg "enabled")) then mret false
  else if negb (isSnowflake (field cfg "discordId")) then mret false
  else
    content ← lift (opt_trim (field cfg "messageContent"));
    if negb (truthy content) then mret false
    else if strict_eq_string (field cfg "channelMode") "specific" then
      if negb (isSnowflake (field cfg "targetChannelId")) then mret false
      else mret (strict_eq_string (field cfg "targetChannelId") channelId)
    else mret true.

Definition fetchUser (userId : value) : M value :=
  trimmed ← lift (match coalesce userId (VStr "") with
                  | VStr u => Ret (trim u)
                  | _ => Throw TypeError
                  end);
  if is_empty trimmed then mret VNull
  else
    s ← get_this;
    if JsMap.has trimmed (userCache s)
    then mret (default VUndefined (JsMap.get trimmed (userCache s)))
    else
      user ← match userStore_getUser h with
             | Some f => emit (CallGetUser trimmed);; lift (f trimmed)
             | None => mret VUndefined
             end;
      user ← match userStore_fetchUser h with
             | Some f =>
                 if negb (truthy user) then
                   try_catch
                     (emit (CallFetchUser trimmed);; lift (f trimmed))
                     (λ _, warn "Failed to fetch user from cache - falling back to placeholder";;
                           mret user)
                 else mret user
             | None => mret user
             end;
      (if truthy user
       then modify (λ s, set_userCache (JsMap.set trimmed user (userCache s)) s)
       else mret tt);;
      mret (coalesce user (VObj {[ "id" := VStr trimmed ]})).

Definition buildAuthor (user : value) (userId : string) : value :=
  let username :=
    coalesce (opt_prop user "username")
      (coalesce (opt_prop user "global_name")
         (coalesce (opt_prop user "globalName")
            (VStr ("Unknown User (" +:+ userId +:+ ")")))) in
  VObj (<["id" := VStr userId]>
       (<["username" := username]>
       (<["discriminator" := coalesce (opt_prop user "discriminator") (VStr "0000")]>
       (<["avatar" := coalesce (opt_prop user "avatar") VNull]>
       (<["bot" := coalesce (opt_prop user "bot") (VBool false)]>
       (<["public_flags" := coalesce (opt_prop user "public_flags") (VNum 0)]>
       (<["global_name" :=
            coalesce (opt_prop user "global_name")
              (coalesce (opt_prop user "globalName") VNull)]> ∅))))))).

(** The two callbacks of [buildEmbeds] and the method itself. *)
Definition embed_nonblank (entry : value) : outcome bool :=
  if negb (truthy entry) then Ret false
  else
    l ← opt_trim (opt_prop entry "label");
    if truthy l then Ret true
    else u ← opt_trim (opt_prop entry "url"); Ret (truthy u).

Definition embed_link (index : nat) (entry : value) : outcome (option link) :=
  l ← opt_trim (opt_prop entry "label");
  let label := if truthy l then string_or_empty l
               else "Link " +:+ decimal (index + 1) in
  u ← opt_trim (opt_prop entry "url");
  if negb (truthy u) then Ret None
  else Ret (Some (Link label (string_or_empty u) (string_or_empty u))).

Definition buildEmbeds_of (cfg : gmap string value) : outcome (list link) :=
  match coalesce (field cfg "embeds") (VArr []) with
  | VArr l =>
      kept ← filter_o embed_nonblank l;
      mapped ← imap_o embed_link 0%nat kept;
      Ret (filter_Boolean mapped)
  | _ => Throw TypeError
  end.

Definition buildEmbeds : M (list link) :=
  s ← get_this; lift (buildEmbeds_of (config s)).

Definition decorateContent (content : value) : M value :=
  s ← get_this;
  if timestampBadgePatched s then mret content
  else mret (VStr ("[" +:+ LOCAL_BADGE_TEXT +:+ "] " +:+ ToString content)).

Definition buildFakeMessage (channelId : string) : M (option fake_message) :=
  s ← get_this;
  authorId ← lift (match field (config s) "discordId" with
                   | VStr d => Ret (trim d)
                   | _ => Throw TypeError
                   end);
  author ← fetchUser (VStr authorId);
  s ← get_this;
  let baseContent := field (config s) "messageContent" in
  if negb (truthy baseContent) then mret None
  else
    let timestamp := Date_toISOString h (now s) in
    let messageId := MESSAGE_ID_PREFIX +:+ ":" +:+ channelId in
    embeds ← buildEmbeds;
    channel ← match channelStore_getChannel h with
              | Some f => lift (f channelId)
              | None => mret VUndefined
              end;
    let guildId := coalesce (opt_prop channel "guild_id") VNull in
    content ← decorateContent baseContent;
    mret (Some {| msg_id := messageId;
                  msg_channel_id := channelId;
                  msg_guild_id := guildId;
                  msg_author := buildAuthor author authorId;
                  msg_content := content;
                  msg_timestamp := timestamp;
                  msg_embeds := embeds;
                  msg_nonce := MESSAGE_ID_PREFIX +:+ ":" +:+ pretty (now s) |}).

Definition injectFakeMessage (message : fake_message) : M unit :=
  match messageActions_receiveMessage h with
  | Some f =>
      emit (CallReceiveMessage (msg_channel_id message) message);;
      lift (f (msg_channel_id message) message)
  | None =>
      match dispatcher_dispatch h with
      | Some d =>
          emit (CallDispatch (MESSAGE_CREATE (msg_channel_id message) message));;
          lift (d (MESSAGE_CREATE (msg_channel_id message) message))
      | None => mret tt
      end
  end.

(** The body of the [try] block of [refreshChannel]. *)
Definition build_and_inject (channelId : string) : M unit :=
  fakeMessage ← buildFakeMessage channelId;
  match fakeMessage with
  | Some m =>
      injectFakeMessage m;;
      modify (λ s, set_injectedMessages
                     (JsMap.set channelId (msg_id m) (injectedMessages s)) s)
  | None => mret tt
  end.

(** What [refreshChannel] does after [removeFakeMessage]: the gate, and
    the [try] block with its handler. *)
Definition decide_then_create (channelId : string) : M unit :=
  render ← shouldRenderInChannel channelId;
  if negb render then mret tt
  else
    try_catch (build_and_inject channelId)
              (λ _, warn "Failed to create fake message").

(** [refreshChannel(channelIdRaw)] for a channel id that is a string, so
    that [toString()] is the identity. *)
Definition refreshChannel (channelIdRaw : string) : M unit :=
  if is_empty channelIdRaw then mret tt
  else
    let channelId := channelIdRaw in
    removeFakeMessage channelId;;
    decide_then_create channelId.

(** A getter of the selected-channel store: [undefined] when the store
    or the getter is missing. *)
Definition call_getter (g : option (outcome (option string))) : M (option string) :=
  match g with
  | Some o => lift o
  | None => mret None
  end.

Definition getCurrentChannelId : M (option string) :=
  a ← call_getter (getCurrentlySelectedChannelId h);
  match a with
  | Some c => mret (Some c)
  | None =>
      b ← call_getter (getChannelId h);
      match b with
      | Some c => mret (Some c)
      | None => call_getter (getMostRecentSelectedTextChannelId h)
      end
  end.

Definition refreshForCurrentChannel (force : bool) : M unit :=
  s ← get_this;
  if negb (started s) && negb force then mret tt
  else
    current ← getCurrentChannelId;
    match current with
    | Some c => if is_empty c then mret tt else detached (refreshChannel c)
    | None => mret tt
    end.

Definition reapplyFakeMessages : M unit :=
  s ← get_this;
  if negb (started s) then mret tt
  else
    clearInjectedMessages;;
    refreshForCurrentChannel true.

(** *** Configuration store: the stateful part *)

Definition applyConfig (nextConfig : value) (o : options) : M (gmap string value) :=
  s ← get_this;
  modify (set_config (mergeWithDefaults (coalesce nextConfig (VObj (config s)))));;
  (if negb (skipPersist o) then enqueuePersist else mret tt);;
  (if negb (skipReload o) then reapplyFakeMessages else mret tt);;
  s ← get_this;
  mret (config s).

Definition updateConfig (patch : value) (o : options) : M (gmap string value) :=
  s ← get_this;
  let next := own_props (coalesce patch (VObj ∅)) ∪ config s in
  applyConfig (VObj next) o.

Definition resetConfigToDefaults : M (gmap string value) :=
  let defaults := getDefaultConfig in
  applyConfig (VObj defaults) no_options;;
  mret defaults.

(** *** Lifecycle *)

Definition unsubscribeFromChannelChanges : M unit :=
  s ← get_this;
  (if channelSelectUnsub s then
     try_catch
       (emit CallUnsubscribe;; lift (dispatcher_unsubscribe h))
       (λ _, warn "Failed to unsubscribe from CHANNEL_SELECT")
   else mret tt);;
  modify (set_channelSelectUnsub false).

(** The loop of [unpatchAll] on the patches still queued. *)
Fixpoint unpatch_loop (ps : list (outcome unit)) : M unit :=
  match ps with
  | [] => mret tt
  | undo :: rest =>
      modify (set_patches rest);;
      try_catch (emit CallUndoPatch;; lift undo)
                (λ _, warn "Failed to undo patch");;
      unpatch_loop rest
  end.

Definition unpatchAll : M unit :=
  s ← get_this;
  unpatch_loop (patches s);;
  modify (set_timestampBadgePatched false).

Definition stop : M unit :=
  modify (set_started false);;
  unsubscribeFromChannelChanges;;
  unpatchAll;;
  clearInjectedMessages;;
  clearPersistTimer.
End engine.

(** ** Specification vocabulary *)

(** A method [preserves R P] when every run relates the state before to the
    state after by [R], whether it returns or throws, and makes only calls
    that satisfy [P]. *)
Definition preserves (R : relation plugin) (P : event → Prop) {A} (m : M A) : Prop :=
  ∀ s, match m s with (_, s', t) => R s s' ∧ Forall P t end.

(** The conjunction of two frame relations. *)
Definition rel_and (R1 R2 : relation plugin) : relation plugin :=
  λ s s', R1 s s' ∧ R2 s s'.

(** The representation invariant of the Active-Injection Table: one entry
    per channel, and neither an empty channel id nor an empty message id. *)
Definition table_ok (m : list (string * string)) : Prop :=
  JsMap.wf m ∧ ∀ c id, (c, id) ∈ m → c ≠ "" ∧ id ≠ "".

(** Only the identity cache changes. *)
Definition cache_only : relation plugin :=
  λ s s', s' = set_userCache (userCache s') s.

(** Only the identity cache and the table change. *)
Definition engine_frame : relation plugin :=
  λ s s', s' = set_userCache (userCache s') (set_injectedMessages (injectedMessages s') s).

Definition keeps_table_ok : relation plugin :=
  λ s s', table_ok (injectedMessages s) → table_ok (injectedMessages s').

(** The table changes at channel [c] only. *)
Definition keeps_others (c : string) : relation plugin :=
  λ s s', ∀ c', c' ≠ c →
    JsMap.get c' (injectedMessages s') = JsMap.get c' (injectedMessages s).

(** The calls of the identity cache. *)
Definition identity_event (e : event) : Prop :=
  match e with
  | CallGetUser _ | CallFetchUser _ | Warn _ => True
  | _ => False
  end.

(** The calls of the reconciliation engine: identity lookups, injections,
    removals and warnings. *)
Definition engine_event (e : event) : Prop :=
  match e with
  | CallStorageSet _ | CallUnsubscribe | CallUndoPatch => False
  | _ => True
  end.

(** No injection is among the calls. *)
Definition not_creation (e : event) : Prop :=
  match e with
  | CallReceiveMessage _ _ | CallDispatch (MESSAGE_CREATE _ _) => False
  | _ => True
  end.

(** [table_ok], decided. *)
Definition table_okb (m : list (string * string)) : bool :=
  bool_decide (NoDup m.*1)
  && forallb (λ e, negb (is_empty e.1) && negb (is_empty e.2)) m.

(** The frame of one refresh of channel [c]. *)
Definition refresh_rel (c : string) : relation plugin :=
  rel_and engine_frame (rel_and keeps_table_ok (keeps_others c)).

(** The call on the removal collaborator that [dispatchMessageDelete]
    makes, and its result: [deleteMessage] when the host has it, the
    dispatcher otherwise, and nothing when both are missing. *)
Definition removal_call (h : host) (c id : string) : list event :=
  match messageActions_deleteMessage h with
  | Some _ => [CallDeleteMessage c id]
  | None =>
      match dispatcher_dispatch h with
      | Some _ => [CallDispatch (MESSAGE_DELETE id c)]
      | None => []
      end
  end.

Definition removal_result (h : host) (c id : string) : outcome unit :=
  match messageActions_deleteMessage h with
  | Some f => f c id
  | None =>
      match dispatcher_dispatch h with
      | Some d => d (MESSAGE_DELETE id c)
      | None => Ret tt
      end
  end.

(** The decision gate in the words of the specification: the
    configuration is enabled; [discordId], trimmed, matches [^\d{5,}$]; the
    trimmed content is not empty; and under the scope "specific" the target
    channel is a valid identifier and is [c] (so that it matches [^\d{5,}$]
    as it stands whenever [c] has no white space around it). *)
Definition gate_open (cfg : gmap string value) (c : string) : Prop :=
  truthy (field cfg "enabled") = true ∧
  (∃ d, field cfg "discordId" = VStr d ∧ test_digits5 (trim d) = true) ∧
  (∃ m, field cfg "messageContent" = VStr m ∧ trim m ≠ "") ∧
  (field cfg "channelMode" = VStr "specific" →
   ∃ tc, field cfg "targetChannelId" = VStr tc ∧ tc = c ∧
         test_digits5 (trim tc) = true ∧
         (trim c = c → test_digits5 tc = true)).

(** Channel [c] is Absent: the table tracks no item for it. *)
Definition absent (c : string) (s : plugin) : Prop :=
  JsMap.get c (injectedMessages s) = None.

(** The table of [s'] has no entry that the table of [s] had not. *)
Definition no_new_entry (s s' : plugin) : Prop :=
  ∀ c v, JsMap.get c (injectedMessages s') = Some v →
         JsMap.get c (injectedMessages s) = Some v.

(** The retraction of the item tracked for [c], if any, returns. *)
Definition retraction_returns (h : host) (c : string) (s : plugin) : Prop :=
  ∀ id, JsMap.get c (injectedMessages s) = Some id → removal_result h c id = Ret tt.

(** The representation invariant of the identity cache: [fetchUser] stores
    truthy values only. *)
Definition cache_ok (m : list (string * value)) : Prop :=
  ∀ k v, (k, v) ∈ m → truthy v = true.

(** The placeholder identity. *)
Definition placeholder (trimmed : string) : value :=
  VObj {[ "id" := VStr trimmed ]}.

(** The synchronous identity lookup, when the host has one, does not
    throw. *)
Definition sync_lookup_returns (h : host) : Prop :=
  ∀ f id, userStore_getUser h = Some f → ∃ v, f id = Ret v.

(** The channel lookup, when the host has one, does not throw. *)
Definition channel_lookup_returns (h : host) : Prop :=
  ∀ f c, channelStore_getChannel h = Some f → ∃ v, f c = Ret v.

(** The call on the injection collaborator that [injectFakeMessage]
    makes, and its result. *)
Definition injection_call (h : host) (m : fake_message) : list event :=
  match messageActions_receiveMessage h with
  | Some _ => [CallReceiveMessage (msg_channel_id m) m]
  | None =>
      match dispatcher_dispatch h with
      | Some _ => [CallDispatch (MESSAGE_CREATE (msg_channel_id m) m)]
      | None => []
      end
  end.

Definition injection_result (h : host) (m : fake_message) : outcome unit :=
  match messageActions_receiveMessage h with
  | Some f => f (msg_channel_id m) m
  | None =>
      match dispatcher_dispatch h with
      | Some d => d (MESSAGE_CREATE (msg_channel_id m) m)
      | None => Ret tt
      end
  end.

Definition injection_returns (h : host) : Prop :=
  ∀ m, injection_result h m = Ret tt.

(** What the collaborators resolve for a trimmed id that the cache does not
    hold, and the calls made: the synchronous lookup, then the
    asynchronous fetch when the lookup found nothing and the host has one;
    a fetch that throws leaves what the lookup returned.  [None] when the
    synchronous lookup throws. *)
Definition resolve_identity (h : host) (trimmed : string)
  : option (value * list event) :=
  let sync :=
    match userStore_getUser h with
    | Some f =>
        match f trimmed with
        | Ret v => Some (v, [CallGetUser trimmed])
        | Throw _ => None
        end
    | None => Some (VUndefined, [])
    end in
  match sync with
  | None => None
  | Some (user, t) =>
      match userStore_fetchUser h with
      | Some f =>
          if truthy user then Some (user, t)
          else
            match f trimmed with
            | Ret v => Some (v, t ++ [CallFetchUser trimmed])
            | Throw _ =>
                Some (user,
                      t ++ [CallFetchUser trimmed;
                            Warn "Failed to fetch user from cache - falling back to placeholder"])
            end
      | None => Some (user, t)
      end
  end.

(** The removal collaborator does not throw. *)
Definition removal_returns (h : host) : Prop :=
  ∀ c id, removal_result h c id = Ret tt.

(** The configuration passes the gate but for the conditions on the
    scope: it is enabled, the source identity is valid and the content is
    not blank. *)
Definition otherwise_valid (cfg : gmap string value) : Prop :=
  truthy (field cfg "enabled") = true ∧
  (∃ d, field cfg "discordId" = VStr d ∧ test_digits5 (trim d) = true) ∧
  (∃ m, field cfg "messageContent" = VStr m ∧ trim m ≠ "").

(** The links of the configuration can be built. *)
Definition embeds_buildable (cfg : gmap string value) : Prop :=
  ∃ links, buildEmbeds_of cfg = Ret links.

(** The calls of [t] that inject an item. *)
Definition creations (t : list event) : list (string * fake_message) :=
  omap (λ e, match e with
             | CallReceiveMessage c m => Some (c, m)
             | CallDispatch (MESSAGE_CREATE c m) => Some (c, m)
             | _ => None
             end) t.

(** The state in which [refreshChannel] takes its decision, when the
    retraction returned. *)
Definition after_retraction (c : string) (s : plugin) : plugin :=
  match JsMap.get c (injectedMessages s) with
  | Some _ => set_injectedMessages (JsMap.delete c (injectedMessages s)) s
  | None => s
  end.

(** The removal calls for the entries of a table, in its order. *)
Definition removal_calls (h : host) (l : list (string * string)) : list event :=
  concat ((λ e, removal_call h e.1 e.2) <$> l).

(** Every entry of the table can be retracted without a throw. *)
Definition retractions_return (h : host) (l : list (string * string)) : Prop :=
  ∀ c id, (c, id) ∈ l → removal_result h c id = Ret tt.

(** What [getCurrentChannelId] answers: the first getter that the host has
    and that answers a channel. *)
Definition current_channel (h : host) : outcome (option string) :=
  let call g := match g with Some o => o | None => Ret None end in
  a ← call (getCurrentlySelectedChannelId h);
  match a with
  | Some c => Ret (Some c)
  | None =>
      b ← call (getChannelId h);
      match b with
      | Some c => Ret (Some c)
      | None => call (getMostRecentSelectedTextChannelId h)
      end
  end.

(** The removals that the calls of [t] ask for, as channel and item. *)
Definition removals (t : list event) : list (string * string) :=
  omap (λ e, match e with
             | CallDeleteMessage c id => Some (c, id)
             | CallDispatch (MESSAGE_DELETE id c) => Some (c, id)
             | _ => None
             end) t.

(** The host has a removal collaborator. *)
Definition has_removal_collaborator (h : host) : Prop :=
  is_Some (messageActions_deleteMessage h) ∨ is_Some (dispatcher_dispatch h).

(** The calls of the teardown that are not removals. *)
Definition teardown_event (e : event) : Prop :=
  match e with
  | CallUnsubscribe | CallUndoPatch | Warn _ => True
  | _ => False
  end.

(** What [clearPersistTimer] leaves. *)
Definition timer_cleared (s : plugin) : plugin :=
  match persistTimer s with
  | Some id =>
      set_persistTimer None
        (set_timers (filter (λ t, t.1 ≠ id) (timers s)) (next_timer s) s)
  | None => s
  end.

(** The state that the first three steps of [stop] leave. *)
Definition unwired (s : plugin) : plugin :=
  set_timestampBadgePatched false
    (set_patches [] (set_channelSelectUnsub false (set_started false s))).

(** The value that [loadConfig] merges over the defaults: the stored
    value when it is truthy, parsed when it is a string; [None] when the
    storage has nothing or throws, or the string does not parse. *)
Definition stored_value (h : host) : option value :=
  match storage_get h with
  | Some (Ret saved) =>
      if truthy saved then
        match saved with
        | VStr s => match JSON_parse h s with Ret v => Some v | Throw _ => None end
        | v => Some v
        end
      else None
  | _ => None
  end.

(** The array of link entries that [normalizeEmbeds] produces, from the
    labels and urls. *)
Definition embeds_value (l : list (string * string)) : value :=
  VArr ((λ e, embed_entry e.1 e.2) <$> l).

(** A string is blank when nothing is left of it after trimming. *)
Definition blank (s : string) : bool := is_empty (trim s).

(** The links of a list of configured entries, in one pass: [n] counts the
    entries passed so far that are not blank in both label and url.  An
    entry without url gives no link; an entry without label is titled by
    its rank among the counted entries. *)
Fixpoint links_from (n : nat) (l : list (string * string)) : list link :=
  match l with
  | [] => []
  | (label, url) :: l' =>
      if blank label && blank url then links_from n l'
      else
        (if blank url then []
         else [Link (if blank label then "Link " +:+ decimal (n + 1) else trim label)
                    (trim url) (trim url)])
        ++ links_from (S n) l'
  end.

(** The url has the scheme http or https. *)
Definition is_http_url (u : string) : bool :=
  String.prefix "http://" u || String.prefix "https://" u.

(** The links in the words of the specification: the configured entries
    with an http(s) url, an empty label replaced by "Link N" for the
    1-based position N of the entry among the configured ones. *)
Definition claimed_links (l : list (string * string)) : list link :=
  filter_Boolean
    (imap (λ i e,
             if is_http_url (trim e.2)
             then Some (Link (if blank e.1 then "Link " +:+ decimal (i + 1) else trim e.1)
                             (trim e.2) (trim e.2))
             else None) l).

(** A handler run by the host for one event: what it throws is not seen
    by the handlers of the events that follow. *)
Definition handler {A} (m : M A) : M unit :=
  λ s, match m s with (_, s1, t1) => (Ret tt, s1, t1) end.

(** A burst of [update()] calls: the first one, and then each further one
    after the host let some time pass. *)
Definition burst (h : host) (first : value) (rest : list (Z * value)) : M unit :=
  handler (updateConfig h first no_options);;
  for_each rest (λ e, advance h e.1;; handler (updateConfig h e.2 no_options)).

(** The configurations that the calls of [t] write to the storage. *)
Definition storage_writes (t : list event) : list (gmap string value) :=
  omap (λ e, match e with CallStorageSet cfg => Some cfg | _ => None end) t.

(** The configuration after [update(patch)]. *)
Definition patched (cfg : gmap string value) (patch : value) : gmap string value :=
  mergeWithDefaults (VObj (own_props (coalesce patch (VObj ∅)) ∪ cfg)).

(** Timers do not stack: at most one is pending, and it is the one that
    [persistTimer] holds. *)
Definition timers_ok (s : plugin) : Prop :=
  match timers s with
  | [] => True
  | [(id, _)] => persistTimer s = Some id
  | _ => False
  end.

(** One timer is pending, set at the present time. *)
Definition armed (s : plugin) : Prop :=
  ∃ id, timers s = [(id, now s + PERSIST_DEBOUNCE_MS)] ∧ persistTimer s = Some id.

(** ** Sample hosts and states *)

(** A host whose collaborators are all present and return normally; the
    identity store knows nobody and has no asynchronous fetch. *)
Definition quiet_host : host := {|
  storage_get := Some (Ret VNull);
  storage_set := Some (λ _, Ret tt);
  JSON_parse := λ _, Throw (VStr "SyntaxError");
  userStore_getUser := Some (λ _, Ret VNull);
  userStore_fetchUser := None;
  channelStore_getChannel := Some (λ _, Ret VUndefined);
  getCurrentlySelectedChannelId := Some (Ret (Some "22222"));
  getChannelId := None;
  getMostRecentSelectedTextChannelId := None;
  messageActions_receiveMessage := Some (λ _ _, Ret tt);
  messageActions_deleteMessage := Some (λ _ _, Ret tt);
  dispatcher_dispatch := Some (λ _, Ret tt);
  dispatcher_unsubscribe := Ret tt;
  Date_toISOString := λ _, "2026-01-01T00:00:00.000Z";
|}.

(** An enabled configuration for every channel. *)
Definition any_channel_config : gmap string value :=
  mergeWithDefaults
    (VObj (<["discordId" := VStr "123456789012345"]>
          (<["messageContent" := VStr "hello"]> ∅))).

(** A started plugin with that configuration and an active item in channel
    "11111". *)
Definition one_active : plugin :=
  set_injectedMessages [("11111", "fake-message-composer:11111")]
    (set_started true (set_config any_channel_config constructed)).

(** The configuration of Scenario B for a target channel. *)
Definition specific_config (target : string) : gmap string value :=
  mergeWithDefaults
    (VObj (<["discordId" := VStr "123456789012345"]>
          (<["messageContent" := VStr "hello"]>
          (<["channelMode" := VStr "specific"]>
          (<["targetChannelId" := VStr target]> ∅))))).

(** A started plugin for the configuration [cfg], with nothing injected. *)
Definition started_with (cfg : gmap string value) : plugin :=
  set_started true (set_config cfg constructed).

(** [quiet_host] with an asynchronous identity fetch that throws. *)
Definition failing_fetch_host : host := {|
  storage_get := storage_get quiet_host;
  storage_set := storage_set quiet_host;
  JSON_parse := JSON_parse quiet_host;
  userStore_getUser := userStore_getUser quiet_host;
  userStore_fetchUser := Some (λ _, Throw (VStr "network down"));
  channelStore_getChannel := channelStore_getChannel quiet_host;
  getCurrentlySelectedChannelId := getCurrentlySelectedChannelId quiet_host;
  getChannelId := getChannelId quiet_host;
  getMostRecentSelectedTextChannelId := getMostRecentSelectedTextChannelId quiet_host;
  messageActions_receiveMessage := messageActions_receiveMessage quiet_host;
  messageActions_deleteMessage := messageActions_deleteMessage quiet_host;
  dispatcher_dispatch := dispatcher_dispatch quiet_host;
  dispatcher_unsubscribe := dispatcher_unsubscribe quiet_host;
  Date_toISOString := Date_toISOString quiet_host;
|}.

(** [quiet_host] with an injection collaborator that throws. *)
Definition failing_inject_host : host := {|
  storage_get := storage_get quiet_host;
  storage_set := storage_set quiet_host;
  JSON_parse := JSON_parse quiet_host;
  userStore_getUser := userStore_getUser quiet_host;
  userStore_fetchUser := userStore_fetchUser quiet_host;
  channelStore_getChannel := channelStore_getChannel quiet_host;
  getCurrentlySelectedChannelId := getCurrentlySelectedChannelId quiet_host;
  getChannelId := getChannelId quiet_host;
  getMostRecentSelectedTextChannelId := getMostRecentSelectedTextChannelId quiet_host;
  messageActions_receiveMessage := Some (λ _ _, Throw (VStr "store is gone"));
  messageActions_deleteMessage := messageActions_deleteMessage quiet_host;
  dispatcher_dispatch := dispatcher_dispatch quiet_host;
  dispatcher_unsubscribe := dispatcher_unsubscribe quiet_host;
  Date_toISOString := Date_toISOString quiet_host;
|}.

(** [quiet_host] with a removal collaborator that throws. *)
Definition failing_removal_host : host := {|
  storage_get := storage_get quiet_host;
  storage_set := storage_set quiet_host;
  JSON_parse := JSON_parse quiet_host;
  userStore_getUser := userStore_getUser quiet_host;
  userStore_fetchUser := userStore_fetchUser quiet_host;
  channelStore_getChannel := channelStore_getChannel quiet_host;
  getCurrentlySelectedChannelId := getCurrentlySelectedChannelId quiet_host;
  getChannelId := getChannelId quiet_host;
  getMostRecentSelectedTextChannelId := getMostRecentSelectedTextChannelId quiet_host;
  messageActions_receiveMessage := messageActions_receiveMessage quiet_host;
  messageActions_deleteMessage := Some (λ _ _, Throw (VStr "message not found"));
  dispatcher_dispatch := dispatcher_dispatch quiet_host;
  dispatcher_unsubscribe := dispatcher_unsubscribe quiet_host;
  Date_toISOString := Date_toISOString quiet_host;
|}.

(** [one_active] with a persistence timer pending. *)
Definition one_active_armed : plugin :=
  set_persistTimer (Some 1%positive)
    (set_timers [(1%positive, 250)] 2%positive one_active).

(** [quiet_host] with a stored configuration that carries a field the
    Configuration entity does not have. *)
Definition extra_field_host : host := {|
  storage_get := Some (Ret (VObj (<["enabled" := VBool false]>
                                 (<["theme" := VStr "dark"]> ∅))));
  storage_set := storage_set quiet_host;
  JSON_parse := JSON_parse quiet_host;
  userStore_getUser := userStore_getUser quiet_host;
  userStore_fetchUser := userStore_fetchUser quiet_host;
  channelStore_getChannel := channelStore_getChannel quiet_host;
  getCurrentlySelectedChannelId := getCurrentlySelectedChannelId quiet_host;
  getChannelId := getChannelId quiet_host;
  getMostRecentSelectedTextChannelId := getMostRecentSelectedTextChannelId quiet_host;
  messageActions_receiveMessage := messageActions_receiveMessage quiet_host;
  messageActions_deleteMessage := messageActions_deleteMessage quiet_host;
  dispatcher_dispatch := dispatcher_dispatch quiet_host;
  dispatcher_unsubscribe := dispatcher_unsubscribe quiet_host;
  Date_toISOString := Date_toISOString quiet_host;
|}.

(** A configuration with the given link entries. *)
Definition config_with_links (l : list (string * string)) : gmap string value :=
  mergeWithDefaults (VObj (<["embeds" := embeds_value l]> ∅)).

(** A disabled configuration. *)
Definition disabled_config : gmap string value :=
  mergeWithDefaults
    (VObj (<["enabled" := VBool false]>
          (<["discordId" := VStr "123456789012345"]>
          (<["messageContent" := VStr "hello"]> ∅)))).


(** ** Further vocabulary *)

(** The configuration went through [mergeWithDefaults], as every
    configuration that the plugin holds did. *)
Definition config_merged (cfg : gmap string value) : Prop :=
  ∃ v, cfg = mergeWithDefaults v.

(** A link as [buildEmbeds] makes them: a title and a url that are not
    empty, and the url for description. *)
Definition link_ok (l : link) : Prop :=
  link_title l ≠ "" ∧ link_url l ≠ "" ∧ link_description l = link_url l.

(** How many times the calls of [t] run the undo of a patch, and how many
    times they unsubscribe. *)
Definition undo_calls (t : list event) : nat :=
  length (omap (λ e, match e with CallUndoPatch => Some tt | _ => None end) t).

Definition unsubscribe_calls (t : list event) : nat :=
  length (omap (λ e, match e with CallUnsubscribe => Some tt | _ => None end) t).

(** ** The CHANNEL_SELECT handler *)

(** [refreshChannel(channelIdRaw)] for any value: a falsy one is ignored,
    and any other is turned into a string by [toString()]. *)
Definition refreshChannel_of (h : host) (channelIdRaw : value) : M unit :=
  if negb (truthy channelIdRaw) then mret tt
  else
    let channelId := ToString channelIdRaw in
    removeFakeMessage h channelId;;
    decide_then_create h channelId.

(** The channel that the handler of [subscribeToChannelChanges] reads from
    the payload of the event:
    [payload?.channelId ?? payload?.channel?.id ?? payload?.id ??
     (typeof payload === "string" ? payload : null)],
    the default parameter replacing [undefined] by [{}]. *)
Definition payload_channel (payload : value) : value :=
  let payload := match payload with VUndefined => VObj ∅ | v => v end in
  coalesce (opt_prop payload "channelId")
    (coalesce (opt_prop (opt_prop payload "channel") "id")
       (coalesce (opt_prop payload "id")
          (match payload with VStr _ => payload | _ => VNull end))).

(** The handler: the refresh is not awaited. *)
Definition on_channel_select (h : host) (payload : value) : M unit :=
  let channelId := payload_channel payload in
  if truthy channelId then detached (refreshChannel_of h channelId)
  else mret tt.

(** ** Module lookups *)

(** What [waitForModule] is asked to match: an array of property names, a
    predicate, or a value that is neither. *)
Inductive matcher : Type :=
  | ByProps (names : list string)
  | ByPredicate
  | NoMatcher.

(** The module registry [kettu.Modules] at one moment: for each lookup,
    [None] when the registry or the lookup is missing, and otherwise what
    the call returns or throws for the matcher at hand. *)
Record registry := Registry {
  Modules_getByProps : option (list string → outcome value);
  Modules_find : option (outcome value);
  Modules_getModule : option (outcome value);
}.

(** The literals of [waitForModule]: the delay between two attempts and the
    default of [timeout], in milliseconds. *)
Definition WAIT_STEP_MS : Z := 100.
Definition WAIT_TIMEOUT_MS : Z := 15000.

(** The body of the [try] block of [waitForModule]: the module found, or
    [null]. *)
Definition lookup_module (reg : registry) (m : matcher) : outcome value :=
  let call (o : option (outcome value)) :=
    match o with Some r => r | None => Ret VUndefined end in
  match m with
  | ByProps names =>
      match Modules_getByProps reg with
      | Some f => f names
      | None => Ret VUndefined
      end
  | ByPredicate =>
      a ← call (Modules_find reg);
      if nullish a then b ← call (Modules_getModule reg); Ret (coalesce b VNull)
      else Ret a
  | NoMatcher => Ret VNull
  end.

(** An attempt finds the module when the lookup returns a truthy value; a
    lookup that throws is ignored. *)
Definition found (o : outcome value) : bool :=
  match o with Ret v => truthy v | Throw _ => false end.

(** [match.join(", ")]. *)
Fixpoint join_names (names : list string) : string :=
  match names with
  | [] => ""
  | [n] => n
  | n :: rest => n +:+ ", " +:+ join_names rest
  end.

(** The error of [waitForModule], as its message. *)
Definition not_found_error (m : matcher) : value :=
  VStr ("Module " +:+
        match m with ByProps names => join_names names | _ => "predicate" end
        +:+ " not found within timeout").

(** The loop of [waitForModule], from its attempt [n] on, [elapsed]
    milliseconds after the start.  [registry_at n] is the registry at the
    time of attempt [n], and [lag n] the time that passes from the test of
    the clock before attempt [n] to the next test, which includes the
    [delay(100)]; the clock is taken not to move between the reading of
    [start] and the first test.  The result comes with the number of
    attempts made; [None] when [fuel] attempts were not enough to get to the
    end. *)
Fixpoint waitForModule_from (fuel : nat) (registry_at : nat → registry)
    (lag : nat → Z) (m : matcher) (timeout : Z) (n : nat) (elapsed : Z)
  : option (outcome value * nat) :=
  if elapsed <? timeout then
    match fuel with
    | O => None
    | S fuel' =>
        match lookup_module (registry_at n) m with
        | Ret module =>
            if truthy module then Some (Ret module, S n)
            else waitForModule_from fuel' registry_at lag m timeout (S n) (elapsed + lag n)
        | Throw _ =>
            waitForModule_from fuel' registry_at lag m timeout (S n) (elapsed + lag n)
        end
    end
  else Some (Throw (not_found_error m), n).

Definition waitForModule (fuel : nat) (registry_at : nat → registry)
    (lag : nat → Z) (m : matcher) (timeout : Z) : option (outcome value * nat) :=
  waitForModule_from fuel registry_at lag m timeout 0 0.

(** A registry in which the dispatcher is found from the third attempt
    on. *)
Definition late_registry (n : nat) : registry :=
  Registry
    (Some (λ names, if (n <? 2)%nat then Ret VUndefined
                    else Ret (VObj {[ "dispatch" := VBool true ]})))
    None None.

(** ** Representation invariants *)

(** The invariants of the plugin object between two operations: the table
    and the identity cache are well formed, timers do not stack, and the
    configuration went through [mergeWithDefaults]. *)
Definition plugin_ok (s : plugin) : Prop :=
  table_ok (injectedMessages s) ∧ cache_ok (userCache s) ∧
  timers_ok s ∧ config_merged (config s).

(** The frame relations of the invariants, and the trivial condition on
    calls. *)
Definition keeps_ok : relation plugin := λ s s', plugin_ok s → plugin_ok s'.

Definition keeps_cache_ok : relation plugin :=
  λ s s', cache_ok (userCache s) → cache_ok (userCache s').

Definition any_event (e : event) : Prop := True.

(** The state that a run leaves. *)
Definition state_after {A} (run : outcome A * plugin * list event) : plugin := run.1.2.

(** * Properties *)

(** ** Strings *)

Lemma is_empty_true s : is_empty s = true ↔ s = "".
Proof. destruct s; simpl; split; congruence. Qed.

Lemma is_empty_false s : is_empty s = false ↔ s ≠ "".
Proof. destruct s; simpl; split; congruence. Qed.

Lemma digit_not_ws a : is_digit a = true → is_ws a = false.
Proof.
  unfold is_digit, is_ws. intros H.
  apply andb_true_iff in H as [H1 H2].
  apply Nat.leb_le in H1, H2.
  apply orb_false_iff; split; [apply orb_false_iff; split|].
  - apply andb_false_iff. right. apply Nat.leb_gt. lia.
  - apply Nat.eqb_neq. lia.
  - apply Nat.eqb_neq. lia.
Qed.

Lemma trimStart_digits s : all_digits s = true → trimStart s = s.
Proof.
  destruct s as [|a s]; simpl; [done|]. intros H.
  apply andb_true_iff in H as [H _]. by rewrite (digit_not_ws _ H).
Qed.

Lemma trimEnd_digits s : all_digits s = true → trimEnd s = s.
Proof.
  induction s as [|a s IH]; simpl; [done|]. intros H.
  apply andb_true_iff in H as [Ha Hs].
  rewrite (IH Hs), (digit_not_ws _ Ha). done.
Qed.

(** A string of digits has no white space to trim. *)
Lemma trim_digits s : all_digits s = true → trim s = s.
Proof.
  intros H. unfold trim. rewrite (trimStart_digits _ H). by apply trimEnd_digits.
Qed.

(** ** Map objects *)

Module JsMapFacts.
Import JsMap.
Section facts.
Context {V : Type}.
Implicit Types (m : list (string * V)) (k : string) (v : V).

Lemma get_elem_of k v m : get k m = Some v → (k, v) ∈ m.
Proof.
  induction m as [|[k' v'] m IH]; simpl; [done|].
  case_decide; intros Hget; simplify_eq; [left | right; auto].
Qed.

Lemma get_None k m : get k m = None ↔ k ∉ m.*1.
Proof.
  induction m as [|[k' v'] m IH]; simpl.
  - split; [intros _; apply not_elem_of_nil | done].
  - case_decide; subst.
    + split; [done | intros Hn; exfalso; apply Hn; left].
    + rewrite IH. rewrite not_elem_of_cons. naive_solver.
Qed.

Lemma get_delete_eq k m : get k (delete k m) = None.
Proof.
  induction m as [|[k' v'] m IH]; simpl; [done|].
  case_decide; simpl; [done|]. by rewrite decide_False.
Qed.

Lemma get_delete_ne k k' m : k ≠ k' → get k' (delete k m) = get k' m.
Proof.
  intros Hne. induction m as [|[k0 v0] m IH]; simpl; [done|].
  case_decide; subst; simpl.
  - by rewrite decide_False.
  - case_decide; done.
Qed.

Lemma get_set_eq k v m : get k (set k v m) = Some v.
Proof.
  induction m as [|[k' v'] m IH]; simpl.
  - by rewrite decide_True.
  - case_decide; simpl; [by rewrite decide_True | by rewrite decide_False].
Qed.

Lemma get_set_ne k k' v m : k ≠ k' → get k' (set k v m) = get k' m.
Proof.
  intros Hne. induction m as [|[k0 v0] m IH]; simpl.
  - by rewrite decide_False.
  - case_decide; subst; simpl.
    + by rewrite !decide_False.
    + case_decide; done.
Qed.

Lemma elem_of_delete k0 v0 k m : (k0, v0) ∈ delete k m → (k0, v0) ∈ m.
Proof.
  induction m as [|[k' v'] m IH]; simpl; [done|].
  case_decide; rewrite ?elem_of_cons; naive_solver.
Qed.

Lemma keys_delete k0 k m : k0 ∈ (delete k m).*1 → k0 ∈ m.*1.
Proof.
  induction m as [|[k' v'] m IH]; simpl; [done|].
  case_decide; simpl; rewrite ?elem_of_cons; naive_solver.
Qed.

Lemma elem_of_set k0 v0 k v m :
  (k0, v0) ∈ set k v m → (k0, v0) = (k, v) ∨ (k0, v0) ∈ m.
Proof.
  induction m as [|[k' v'] m IH]; simpl.
  - rewrite list_elem_of_singleton. auto.
  - case_decide; rewrite !elem_of_cons; naive_solver.
Qed.

Lemma keys_set k0 k v m : k0 ∈ (set k v m).*1 → k0 = k ∨ k0 ∈ m.*1.
Proof.
  induction m as [|[k' v'] m IH]; simpl.
  - rewrite list_elem_of_singleton. auto.
  - case_decide; simpl; rewrite !elem_of_cons; naive_solver.
Qed.

Lemma wf_nil : wf (V:=V) [].
Proof. apply NoDup_nil_2. Qed.

Lemma wf_delete k m : wf m → wf (delete k m).
Proof.
  unfold wf. induction m as [|[k' v'] m IH]; simpl; [done|].
  rewrite NoDup_cons. intros [Hk Hm].
  case_decide; simpl; [auto|].
  apply NoDup_cons. split; [|auto]. intros Hin. apply Hk. by eapply keys_delete.
Qed.

Lemma wf_set k v m : wf m → wf (set k v m).
Proof.
  unfold wf. induction m as [|[k' v'] m IH]; simpl.
  - intros _. apply NoDup_singleton.
  - rewrite NoDup_cons. intros [Hk Hm].
    case_decide; subst; simpl; apply NoDup_cons; split; auto.
    intros Hin. apply keys_set in Hin as [?|?]; [congruence | done].
Qed.

Lemma count_zero k m : k ∉ m.*1 → count k m = 0%nat.
Proof.
  unfold count. induction m as [|[k' v'] m IH]; simpl; [done|].
  rewrite not_elem_of_cons. intros [Hne Hin].
  rewrite filter_cons_False by (simpl; congruence). auto.
Qed.

(** A well-formed table has at most one entry for a key. *)
Lemma wf_count_le_1 k m : wf m → (count k m ≤ 1)%nat.
Proof.
  unfold wf. induction m as [|[k' v'] m IH]; simpl; [unfold count; simpl; lia|].
  rewrite NoDup_cons. intros [Hk Hm]. unfold count.
  destruct (decide (k' = k)) as [->|Hne].
  - rewrite filter_cons_True by done. simpl.
    fold (count k m). rewrite (count_zero _ _ Hk). lia.
  - rewrite filter_cons_False by (simpl; congruence). by apply IH.
Qed.
End facts.
End JsMapFacts.

(** ** Running a method *)

Lemma run_bind {A B} (m : M A) (k : A → M B) s :
  (m ≫= k) s =
  match m s with
  | (Ret a, s1, t1) => match k a s1 with (r, s2, t2) => (r, s2, t1 ++ t2) end
  | (Throw e, s1, t1) => (Throw e, s1, t1)
  end.
Proof. reflexivity. Qed.

Lemma run_try_catch {A} (m : M A) (hd : value → M A) s :
  try_catch m hd s =
  match m s with
  | (Ret a, s1, t1) => (Ret a, s1, t1)
  | (Throw e, s1, t1) => match hd e s1 with (r, s2, t2) => (r, s2, t1 ++ t2) end
  end.
Proof. reflexivity. Qed.

Lemma for_each_cons {A} (x : A) (l : list A) (f : A → M unit) s :
  for_each (x :: l) f s =
  match f x s with
  | (Ret _, s1, t1) => match for_each l f s1 with (r, s2, t2) => (r, s2, t1 ++ t2) end
  | (Throw e, s1, t1) => (Throw e, s1, t1)
  end.
Proof. reflexivity. Qed.

Lemma bind_Ret_inv {A B} (m : M A) (k : A → M B) s b s' t :
  (m ≫= k) s = (Ret b, s', t) →
  ∃ a s1 t1 t2, m s = (Ret a, s1, t1) ∧ k a s1 = (Ret b, s', t2) ∧ t = t1 ++ t2.
Proof.
  rewrite run_bind. destruct (m s) as [[[a|e] s1] t1]; [|done].
  destruct (k a s1) as [[r s2] t2] eqn:Hk. intros H. simplify_eq.
  by exists a, s1, t1, t2.
Qed.

Lemma bind_inv {A B} (m : M A) (k : A → M B) s r s' t :
  (m ≫= k) s = (r, s', t) →
  (∃ a s1 t1 t2, m s = (Ret a, s1, t1) ∧ k a s1 = (r, s', t2) ∧ t = t1 ++ t2)
  ∨ (∃ e, m s = (Throw e, s', t) ∧ r = Throw e).
Proof.
  rewrite run_bind. destruct (m s) as [[[a|e] s1] t1].
  - destruct (k a s1) as [[r2 s2] t2] eqn:Hk. intros H. simplify_eq.
    left. by exists a, s1, t1, t2.
  - intros H. simplify_eq. right. by exists e.
Qed.

(** Unfolding of the monad's operations in a goal. *)
Ltac mrun :=
  cbv [mbind M_bind bind mret M_ret ret lift get_this modify emit warn throw
       try_catch detached].

(** Inversion of a run that returned, along the shape of the method. *)
Ltac minv H :=
  lazymatch type of H with
  | (_ ≫= _) _ = (Ret _, _, _) =>
      let H1 := fresh "Hrun" in
      let H2 := fresh "Hrun" in
      apply bind_Ret_inv in H as (? & ? & ? & ? & H1 & H2 & ->);
      minv H1; minv H2
  | mret _ _ = _ => cbv [mret M_ret ret] in H; simplify_eq
  | lift _ _ = _ => cbv [lift] in H; simplify_eq
  | get_this _ = _ => cbv [get_this] in H; simplify_eq
  | modify _ _ = _ => cbv [modify] in H; simplify_eq
  | emit _ _ = _ => cbv [emit] in H; simplify_eq
  | (if ?b then _ else _) _ = _ => destruct b eqn:?; minv H
  | (match ?x with _ => _ end) _ = _ => destruct x eqn:?; minv H
  | _ => idtac
  end.

Lemma try_catch_inv {A} (m : M A) (hd : value → M A) s r s' t :
  try_catch m hd s = (r, s', t) →
  (∃ a, m s = (Ret a, s', t) ∧ r = Ret a)
  ∨ (∃ e s1 t1 t2, m s = (Throw e, s1, t1) ∧ hd e s1 = (r, s', t2) ∧ t = t1 ++ t2).
Proof.
  rewrite run_try_catch. destruct (m s) as [[[a|e] s1] t1].
  - intros H. simplify_eq. left. by exists a.
  - destruct (hd e s1) as [[r2 s2] t2] eqn:Hh. intros H. simplify_eq.
    right. by exists e, s1, t1, t2.
Qed.

(** Inversion of a run with any outcome, along the shape of the method. *)
Ltac minv_all H :=
  lazymatch type of H with
  | (_ ≫= _) _ = _ =>
      let H1 := fresh "Hrun" in
      let H2 := fresh "Hrun" in
      let Hr := fresh "Hout" in
      apply bind_inv in H as [(? & ? & ? & ? & H1 & H2 & ->) | (? & H1 & Hr)];
      [minv_all H1; minv_all H2 | try discriminate Hr; minv_all H1]
  | try_catch _ _ _ = _ =>
      let H1 := fresh "Hrun" in
      let H2 := fresh "Hrun" in
      let Hr := fresh "Hout" in
      apply try_catch_inv in H as [(? & H1 & Hr) | (? & ? & ? & ? & H1 & H2 & ->)];
      [try discriminate Hr; minv_all H1 | minv_all H1; minv_all H2]
  | mret _ _ = _ => cbv [mret M_ret ret] in H; simplify_eq
  | lift _ _ = _ => cbv [lift] in H; simplify_eq
  | get_this _ = _ => cbv [get_this] in H; simplify_eq
  | modify _ _ = _ => cbv [modify] in H; simplify_eq
  | emit _ _ = _ => cbv [emit] in H; simplify_eq
  | warn _ _ = _ => cbv [warn emit] in H; simplify_eq
  | (if ?b then _ else _) _ = _ => destruct b eqn:?; minv_all H
  | (match ?x with _ => _ end) _ = _ => destruct x eqn:?; minv_all H
  | _ => idtac
  end.

Section preserves.
Context (R : relation plugin) (P : event → Prop) `{!PreOrder R}.

Lemma preserves_ret {A} (a : A) : preserves R P (mret a).
Proof. intros s. simpl. split; [reflexivity | constructor]. Qed.

Lemma preserves_lift {A} (o : outcome A) : preserves R P (lift o).
Proof. intros s. simpl. split; [reflexivity | constructor]. Qed.

Lemma preserves_get_this : preserves R P get_this.
Proof. intros s. simpl. split; [reflexivity | constructor]. Qed.

Lemma preserves_emit e : P e → preserves R P (emit e).
Proof. intros He s. simpl. split; [reflexivity | by repeat constructor]. Qed.

Lemma preserves_modify f : (∀ s, R s (f s)) → preserves R P (modify f).
Proof. intros Hf s. simpl. auto. Qed.

Lemma preserves_bind {A B} (m : M A) (k : A → M B) :
  preserves R P m → (∀ a, preserves R P (k a)) → preserves R P (m ≫= k).
Proof.
  intros Hm Hk s. rewrite run_bind. specialize (Hm s).
  destruct (m s) as [[[a|e] s1] t1]; [|done].
  specialize (Hk a s1). destruct (k a s1) as [[r s2] t2].
  destruct Hm, Hk. split; [by etrans | by apply Forall_app].
Qed.

Lemma preserves_try_catch {A} (m : M A) (hd : value → M A) :
  preserves R P m → (∀ e, preserves R P (hd e)) → preserves R P (try_catch m hd).
Proof.
  intros Hm Hh s. rewrite run_try_catch. specialize (Hm s).
  destruct (m s) as [[[a|e] s1] t1]; [done|].
  specialize (Hh e s1). destruct (hd e s1) as [[r s2] t2].
  destruct Hm, Hh. split; [by etrans | by apply Forall_app].
Qed.

Lemma preserves_detached (m : M unit) : preserves R P m → preserves R P (detached m).
Proof.
  intros Hm s. unfold detached. specialize (Hm s).
  by destruct (m s) as [[r s1] t1].
Qed.

Lemma preserves_for_each {A} (l : list A) (f : A → M unit) :
  (∀ x, preserves R P (f x)) → preserves R P (for_each l f).
Proof.
  intros Hf. induction l as [|x l IH]; simpl.
  - apply (preserves_ret tt).
  - apply preserves_bind; auto.
Qed.
End preserves.

(** One step of a proof that a method preserves a relation: the shape of
    the method decides the rule. *)
Ltac preserves_step :=
  lazymatch goal with
  | |- PreOrder _ => tc_solve
  | |- ∀ _, preserves _ _ _ => intros ?
  | |- preserves _ _ (mret _) => apply preserves_ret
  | |- preserves _ _ (ret _) => apply preserves_ret
  | |- preserves _ _ (lift _) => apply preserves_lift
  | |- preserves _ _ get_this => apply preserves_get_this
  | |- preserves _ _ (warn _) => apply preserves_emit
  | |- preserves _ _ (emit _) => apply preserves_emit
  | |- preserves _ _ (modify _) => apply preserves_modify
  | |- preserves _ _ (_ ≫= _) => apply preserves_bind
  | |- preserves _ _ (try_catch _ _) => apply preserves_try_catch
  | |- preserves _ _ (detached _) => apply preserves_detached
  | |- preserves _ _ (for_each _ _) => apply preserves_for_each
  | |- preserves _ _ (match ?x with _ => _ end) => destruct x
  end.

Lemma preserves_weaken (R R' : relation plugin) (P P' : event → Prop) {A} (m : M A) :
  (∀ s s', R s s' → R' s s') → (∀ e, P e → P' e) →
  preserves R P m → preserves R' P' m.
Proof.
  intros HR HP Hm s. specialize (Hm s). destruct (m s) as [[r s'] t].
  destruct Hm as [H1 H2]. split; [auto | by eapply Forall_impl].
Qed.

#[global] Instance rel_and_preorder R1 R2 :
  PreOrder R1 → PreOrder R2 → PreOrder (rel_and R1 R2).
Proof.
  intros H1 H2. split.
  - intros s. split; reflexivity.
  - intros s1 s2 s3 [? ?] [? ?]. split; etrans; eauto.
Qed.

(** ** Frames of the engine *)

#[global] Instance cache_only_preorder : PreOrder cache_only.
Proof.
  split.
  - intros []. reflexivity.
  - intros [] [] [] H1 H2. unfold cache_only, set_userCache in *.
    simpl in *. injection H1; injection H2; intros; subst; reflexivity.
Qed.

#[global] Instance engine_frame_preorder : PreOrder engine_frame.
Proof.
  split.
  - intros []. reflexivity.
  - intros [] [] [] H1 H2.
    unfold engine_frame, set_userCache, set_injectedMessages in *.
    simpl in *. injection H1; injection H2; intros; subst; reflexivity.
Qed.

#[global] Instance keeps_table_ok_preorder : PreOrder keeps_table_ok.
Proof. split; unfold keeps_table_ok; [intros s; auto | intros s1 s2 s3; auto]. Qed.

#[global] Instance keeps_others_preorder c : PreOrder (keeps_others c).
Proof.
  split; unfold keeps_others.
  - intros s c' _. reflexivity.
  - intros s1 s2 s3 H1 H2 c' Hne. rewrite H2, H1; auto.
Qed.

Lemma cache_only_engine_frame s s' : cache_only s s' → engine_frame s s'.
Proof.
  destruct s, s'. unfold cache_only, engine_frame, set_userCache, set_injectedMessages.
  simpl. intros H; injection H; intros; subst; reflexivity.
Qed.

Lemma cache_only_table s s' : cache_only s s' → injectedMessages s' = injectedMessages s.
Proof. unfold cache_only. intros ->. reflexivity. Qed.

Lemma cache_only_config s s' : cache_only s s' → config s' = config s.
Proof. unfold cache_only. intros ->. reflexivity. Qed.

Lemma identity_event_engine e : identity_event e → engine_event e.
Proof. by destruct e. Qed.

Lemma identity_event_not_creation e : identity_event e → not_creation e.
Proof. by destruct e. Qed.

Section frames.
Variable h : host.

Lemma fetchUser_frame v : preserves cache_only identity_event (fetchUser h v).
Proof.
  unfold fetchUser. repeat preserves_step; done.
Qed.

Lemma buildEmbeds_frame : preserves cache_only identity_event buildEmbeds.
Proof. unfold buildEmbeds. repeat preserves_step. Qed.

Lemma buildFakeMessage_frame c :
  preserves cache_only identity_event (buildFakeMessage h c).
Proof.
  unfold buildFakeMessage, decorateContent.
  repeat first [apply fetchUser_frame | apply buildEmbeds_frame | preserves_step].
Qed.
End frames.

Lemma table_okb_ok m : table_okb m = true → table_ok m.
Proof.
  unfold table_okb, table_ok, JsMap.wf. intros H.
  apply andb_true_iff in H as [H1 H2]. apply bool_decide_eq_true in H1.
  split; [done|]. intros c id Hin.
  rewrite forallb_forall in H2. apply list_elem_of_In, H2 in Hin. simpl in Hin.
  apply andb_true_iff in Hin as [Hc Hid].
  apply negb_true_iff in Hc, Hid. by rewrite <- !is_empty_false.
Qed.

Lemma table_ok_nil : table_ok [].
Proof. split; [apply JsMapFacts.wf_nil | intros c id Hin; by apply elem_of_nil in Hin]. Qed.

Lemma table_ok_delete c m : table_ok m → table_ok (JsMap.delete c m).
Proof.
  intros [Hwf Hne]. split; [by apply JsMapFacts.wf_delete|].
  intros c' id Hin. eapply Hne, JsMapFacts.elem_of_delete, Hin.
Qed.

Lemma table_ok_set c id m : c ≠ "" → id ≠ "" → table_ok m → table_ok (JsMap.set c id m).
Proof.
  intros Hc Hid [Hwf Hne]. split; [by apply JsMapFacts.wf_set|].
  intros c' id' Hin. apply JsMapFacts.elem_of_set in Hin as [Heq|Hin]; [|eauto].
  by simplify_eq.
Qed.

Lemma cache_only_refresh_rel c s s' : cache_only s s' → refresh_rel c s s'.
Proof.
  intros H. split; [by apply cache_only_engine_frame|].
  pose proof (cache_only_table _ _ H) as Ht.
  split; [intros ?; by rewrite Ht | intros c' _; by rewrite Ht].
Qed.

Lemma refresh_rel_delete c s :
  refresh_rel c s (set_injectedMessages (JsMap.delete c (injectedMessages s)) s).
Proof.
  split; [by destruct s|]. split; simpl.
  - intros ?. by apply table_ok_delete.
  - intros c' Hne. apply JsMapFacts.get_delete_ne. congruence.
Qed.

Lemma refresh_rel_set c id s :
  c ≠ "" → id ≠ "" →
  refresh_rel c s (set_injectedMessages (JsMap.set c id (injectedMessages s)) s).
Proof.
  intros Hc Hid. split; [by destruct s|]. split; simpl.
  - intros ?. by apply table_ok_set.
  - intros c' Hne. apply JsMapFacts.get_set_ne. congruence.
Qed.

(** A variant of the rule for [bind] that passes what is known of the
    value returned on to the continuation. *)
Lemma preserves_bind_with (R : relation plugin) (P : event → Prop) `{!PreOrder R}
    {A B} (Q : A → Prop) (m : M A) (k : A → M B) :
  (∀ s a s' t, m s = (Ret a, s', t) → Q a) →
  preserves R P m → (∀ a, Q a → preserves R P (k a)) → preserves R P (m ≫= k).
Proof.
  intros HQ Hm Hk s. rewrite run_bind. specialize (Hm s). specialize (HQ s).
  destruct (m s) as [[[a|e] s1] t1]; [|done].
  specialize (Hk a (HQ _ _ _ eq_refl) s1). destruct (k a s1) as [[r s2] t2].
  destruct Hm, Hk. split; [by etrans | by apply Forall_app].
Qed.

Section refresh.
Variable h : host.

Lemma dispatchMessageDelete_run c id s :
  dispatchMessageDelete h c id s = (removal_result h c id, s, removal_call h c id).
Proof.
  unfold dispatchMessageDelete, removal_result, removal_call.
  destruct (messageActions_deleteMessage h) as [f|].
  - rewrite run_bind. simpl. by destruct (f c id).
  - destruct (dispatcher_dispatch h) as [d|]; [|done].
    rewrite run_bind. simpl. by destruct (d _).
Qed.

Lemma removeFakeMessage_run c s :
  table_ok (injectedMessages s) →
  removeFakeMessage h c s =
  match JsMap.get c (injectedMessages s) with
  | None => (Ret tt, s, [])
  | Some id =>
      match removal_result h c id with
      | Ret _ =>
          (Ret tt, set_injectedMessages (JsMap.delete c (injectedMessages s)) s,
           removal_call h c id)
      | Throw e => (Throw e, s, removal_call h c id)
      end
  end.
Proof.
  intros [_ Hne]. unfold removeFakeMessage. rewrite run_bind. simpl.
  destruct (JsMap.get c (injectedMessages s)) as [id|] eqn:Hget; [|done].
  apply JsMapFacts.get_elem_of, Hne in Hget as [_ Hid].
  apply is_empty_false in Hid. rewrite Hid.
  rewrite run_bind, dispatchMessageDelete_run.
  destruct (removal_result h c id); [|done].
  simpl. by rewrite app_nil_r.
Qed.

Lemma dispatchMessageDelete_frame c id :
  preserves cache_only engine_event (dispatchMessageDelete h c id).
Proof. unfold dispatchMessageDelete. repeat preserves_step; done. Qed.

Lemma removeFakeMessage_frame c :
  preserves (refresh_rel c) engine_event (removeFakeMessage h c).
Proof.
  unfold removeFakeMessage. repeat preserves_step.
  - eapply preserves_weaken, dispatchMessageDelete_frame;
      [apply cache_only_refresh_rel | done].
  - intros s'. apply refresh_rel_delete.
Qed.

Lemma shouldRenderInChannel_frame c :
  preserves cache_only identity_event (shouldRenderInChannel c).
Proof. unfold shouldRenderInChannel. repeat preserves_step. Qed.

(** A built message carries the id derived from its channel. *)
Lemma buildFakeMessage_id c s m s' t :
  buildFakeMessage h c s = (Ret (Some m), s', t) →
  msg_id m = MESSAGE_ID_PREFIX +:+ ":" +:+ c ∧ msg_channel_id m = c.
Proof.
  unfold buildFakeMessage, decorateContent. intros H. minv H; done.
Qed.

Lemma injectFakeMessage_frame m :
  preserves cache_only engine_event (injectFakeMessage h m).
Proof. unfold injectFakeMessage. repeat preserves_step; done. Qed.

Lemma message_id_nonempty c : MESSAGE_ID_PREFIX +:+ ":" +:+ c ≠ "".
Proof. done. Qed.

Lemma build_and_inject_frame c :
  c ≠ "" → preserves (refresh_rel c) engine_event (build_and_inject h c).
Proof.
  intros Hc. unfold build_and_inject.
  apply (preserves_bind_with _ _
           (λ fm, ∀ m, fm = Some m → msg_id m = MESSAGE_ID_PREFIX +:+ ":" +:+ c)).
  - intros s a s' t Hrun m ->. by apply buildFakeMessage_id in Hrun as [? _].
  - eapply preserves_weaken, buildFakeMessage_frame;
      [apply cache_only_refresh_rel | apply identity_event_engine].
  - intros [m|] Hm; repeat preserves_step.
    + eapply preserves_weaken, injectFakeMessage_frame;
        [apply cache_only_refresh_rel | done].
    + intros s'. apply refresh_rel_set; [done|].
      rewrite (Hm m eq_refl). apply message_id_nonempty.
Qed.

Lemma decide_then_create_frame c :
  c ≠ "" → preserves (refresh_rel c) engine_event (decide_then_create h c).
Proof.
  intros Hc. unfold decide_then_create. repeat preserves_step; try done.
  - eapply preserves_weaken, shouldRenderInChannel_frame;
      [apply cache_only_refresh_rel | apply identity_event_engine].
  - by apply build_and_inject_frame.
Qed.

Lemma refreshChannel_frame c :
  preserves (refresh_rel c) engine_event (refreshChannel h c).
Proof.
  unfold refreshChannel. destruct (is_empty c) eqn:Hc; repeat preserves_step.
  - apply removeFakeMessage_frame.
  - apply decide_then_create_frame. by apply is_empty_false.
Qed.
End refresh.

(** ** The reconciliation engine *)

(** C1. The retract-then-decide protocol of [refreshChannel].  On a table
    that satisfies its representation invariant, every run of
    [refreshChannel h c] leaves the invariant in place and at most one entry
    for [c].  When the table holds an item [id] for [c], the first call of
    the run is the call on the removal collaborator with [c] and [id]; when
    that call returns, the entry is deleted and the rest of the run is the
    decision, taken in a state whose table has no entry for [c]; when it
    throws, the run ends there.  When the table holds nothing for [c] the
    run is the decision alone. *)
Theorem refreshChannel_retract_then_decide (h : host) (s : plugin) (c : string) :
  table_ok (injectedMessages s) →
  match refreshChannel h c s with
  | (r, s', t) =>
      table_ok (injectedMessages s') ∧
      (JsMap.count c (injectedMessages s') ≤ 1)%nat ∧
      (∀ id, JsMap.get c (injectedMessages s) = Some id →
         match removal_result h c id with
         | Ret _ =>
             let s1 := set_injectedMessages (JsMap.delete c (injectedMessages s)) s in
             JsMap.get c (injectedMessages s1) = None ∧
             ∃ t', decide_then_create h c s1 = (r, s', t') ∧
                   t = removal_call h c id ++ t'
         | Throw e => r = Throw e ∧ s' = s ∧ t = removal_call h c id
         end) ∧
      (JsMap.get c (injectedMessages s) = None → c ≠ "" →
         decide_then_create h c s = (r, s', t))
  end.
Proof.
  intros Hok.
  pose proof (refreshChannel_frame h c s) as Hframe.
  destruct (refreshChannel h c s) as [[r s'] t] eqn:Hrun.
  destruct Hframe as [(_ & Hkeep & _) _].
  specialize (Hkeep Hok). split; [done|].
  split; [apply JsMapFacts.wf_count_le_1, Hkeep|].
  unfold refreshChannel in Hrun. split.
  - intros id Hget.
    destruct (is_empty c) eqn:Hc.
    { apply is_empty_true in Hc. subst c.
      apply JsMapFacts.get_elem_of, Hok in Hget as [? _]. done. }
    rewrite run_bind, (removeFakeMessage_run h c s Hok), Hget in Hrun.
    destruct (removal_result h c id) as [[]|e].
    + simpl. split; [apply JsMapFacts.get_delete_eq|].
      destruct (decide_then_create h c _) as [[r2 s2] t2].
      simplify_eq. by exists t2.
    + by simplify_eq.
  - intros Hget Hc. apply is_empty_false in Hc. rewrite Hc in Hrun.
    rewrite run_bind, (removeFakeMessage_run h c s Hok), Hget in Hrun.
    destruct (decide_then_create h c s) as [[r2 s2] t2]. by simplify_eq.
Qed.

Lemma refreshChannel_retract_then_decide_witness :
  table_ok (injectedMessages one_active) ∧
  match refreshChannel quiet_host "11111" one_active with
  | (r, s', t) =>
      table_ok (injectedMessages s') ∧
      (JsMap.count "11111" (injectedMessages s') ≤ 1)%nat ∧
      (∀ id, JsMap.get "11111" (injectedMessages one_active) = Some id →
         match removal_result quiet_host "11111" id with
         | Ret _ =>
             let s1 := set_injectedMessages
                         (JsMap.delete "11111" (injectedMessages one_active)) one_active in
             JsMap.get "11111" (injectedMessages s1) = None ∧
             ∃ t', decide_then_create quiet_host "11111" s1 = (r, s', t') ∧
                   t = removal_call quiet_host "11111" id ++ t'
         | Throw e => r = Throw e ∧ s' = one_active ∧ t = removal_call quiet_host "11111" id
         end) ∧
      (JsMap.get "11111" (injectedMessages one_active) = None → "11111" ≠ "" →
         decide_then_create quiet_host "11111" one_active = (r, s', t))
  end.
Proof.
  split.
  - apply table_okb_ok. reflexivity.
  - apply (refreshChannel_retract_then_decide quiet_host one_active "11111").
    apply table_okb_ok. reflexivity.
Defined.

Lemma strict_eq_string_true v s : strict_eq_string v s = true ↔ v = VStr s.
Proof.
  destruct v; simpl; try (split; [done | congruence]).
  rewrite bool_decide_eq_true. split; congruence.
Qed.

Lemma strict_eq_string_false v s : strict_eq_string v s = false ↔ v ≠ VStr s.
Proof. rewrite <- strict_eq_string_true. by destruct (strict_eq_string v s). Qed.

Lemma isSnowflake_true v :
  isSnowflake v = true ↔ ∃ d, v = VStr d ∧ test_digits5 (trim d) = true.
Proof.
  destruct v; simpl; try (split; [done | by intros (? & ? & ?)]).
  split; [eauto | by intros (? & ? & ?); simplify_eq].
Qed.

Lemma opt_trim_truthy v u :
  opt_trim v = Ret u → truthy u = true → ∃ m, v = VStr m ∧ u = VStr (trim m) ∧ trim m ≠ "".
Proof.
  destruct v; simpl; intros H Ht; simplify_eq; try done.
  eexists. split; [done|]. split; [done|].
  simpl in Ht. apply negb_true_iff in Ht. by apply is_empty_false.
Qed.

Ltac gate_answers_no := eexists; split; [reflexivity | intros ?; discriminate].

Section gate.
Variable h : host.

(** The gate reads the configuration and changes nothing; it answers
    [true] only when the gate of the specification is open. *)
Lemma shouldRenderInChannel_run c s :
  ∃ r, shouldRenderInChannel c s = (r, s, []) ∧
       (r = Ret true → gate_open (config s) c).
Proof.
  unfold shouldRenderInChannel. mrun.
  destruct (truthy (field (config s) "enabled")) eqn:Hen; mrun;
    [|by gate_answers_no].
  destruct (isSnowflake (field (config s) "discordId")) eqn:Hid; mrun;
    [|by gate_answers_no].
  destruct (opt_trim (field (config s) "messageContent")) as [u|e] eqn:Hu; mrun;
    [|by gate_answers_no].
  destruct (truthy u) eqn:Htu; mrun; [|by gate_answers_no].
  apply isSnowflake_true in Hid.
  destruct (opt_trim_truthy _ _ Hu Htu) as (m & Hm & _ & Hne).
  destruct (strict_eq_string (field (config s) "channelMode") "specific") eqn:Hmode; mrun.
  - destruct (isSnowflake (field (config s) "targetChannelId")) eqn:Htc; mrun;
      [|by gate_answers_no].
    eexists. split; [done|]. intros Hr. simplify_eq.
    apply strict_eq_string_true in Hr.
    apply isSnowflake_true in Htc as (tc & Htc & Hd).
    rewrite Htc in Hr. simplify_eq.
    repeat split; eauto. intros _. exists c. repeat split; auto.
    intros Htrim. by rewrite Htrim in Hd.
  - eexists. split; [done|]. intros _.
    apply strict_eq_string_false in Hmode. repeat split; eauto. done.
Qed.

Lemma shouldRenderInChannel_open c s :
  gate_open (config s) c → shouldRenderInChannel c s = (Ret true, s, []).
Proof.
  intros (Hen & (d & Hd & Hdd) & (m & Hm & Hmm) & Hmode).
  unfold shouldRenderInChannel. mrun.
  rewrite Hen, Hd, Hm. simpl. rewrite Hdd. simpl.
  apply is_empty_false in Hmm. rewrite Hmm. simpl.
  destruct (strict_eq_string (field (config s) "channelMode") "specific") eqn:Hsp;
    [|done].
  apply strict_eq_string_true in Hsp.
  destruct (Hmode Hsp) as (tc & Htc & -> & Ht & _).
  rewrite Htc. simpl. rewrite Ht. simpl. by rewrite bool_decide_eq_true_2.
Qed.

(** With the gate closed the decision creates nothing. *)
Lemma decide_then_create_closed c s :
  ¬ gate_open (config s) c →
  ∃ r, decide_then_create h c s = (r, s, []).
Proof.
  intros Hclosed. unfold decide_then_create. rewrite run_bind.
  destruct (shouldRenderInChannel_run c s) as (r & -> & Hr).
  destruct r as [[|]|e]; simpl; [|by eexists..].
  destruct Hclosed. by apply Hr.
Qed.

Lemma refreshChannel_gate_closed s c :
  table_ok (injectedMessages s) →
  ¬ gate_open (config s) c →
  match refreshChannel h c s with
  | (r, s', t) =>
      Forall not_creation t ∧ no_new_entry s s' ∧
      (retraction_returns h c s → absent c s')
  end.
Proof.
  intros Hok Hclosed. unfold refreshChannel, no_new_entry, absent.
  destruct (is_empty c) eqn:Hc; simpl.
  { split; [constructor|]. split; [by intros ??|]. intros _.
    apply is_empty_true in Hc. subst c.
    destruct (JsMap.get "" (injectedMessages s)) eqn:Hget; [|done].
    by apply JsMapFacts.get_elem_of, Hok in Hget as [? _]. }
  rewrite run_bind, (removeFakeMessage_run h c s Hok).
  destruct (JsMap.get c (injectedMessages s)) as [id|] eqn:Hget.
  - destruct (removal_result h c id) as [[]|e] eqn:Hrem.
    + destruct (decide_then_create_closed c
                  (set_injectedMessages (JsMap.delete c (injectedMessages s)) s))
        as (r & ->); [done|].
      rewrite app_nil_r. simpl. split; [|split].
      * unfold removal_call. repeat case_match; by repeat constructor.
      * intros c' v. simpl. destruct (decide (c = c')) as [->|Hne].
        -- by rewrite JsMapFacts.get_delete_eq.
        -- by rewrite JsMapFacts.get_delete_ne.
      * intros _. apply JsMapFacts.get_delete_eq.
    + split; [|split].
      * unfold removal_call. repeat case_match; by repeat constructor.
      * by intros ??.
      * intros Hret. specialize (Hret _ Hget). congruence.
  - destruct (decide_then_create_closed c s) as (r & ->); [done|].
    simpl. split; [constructor|]. split; [by intros ??|]. by intros _.
Qed.
End gate.

(** C3. The decision gate.  Whenever the gate of the specification is not
    open for the configuration and channel [c] (the configuration is not
    enabled, or the trimmed source identity does not match [^\d{5,}$], or
    the trimmed content is empty, or the scope is "specific" and the target
    channel is not a valid identifier equal to [c]), [refreshChannel h c]
    makes no injection call and adds no entry to the table, and [c] is
    Absent afterwards whenever the retraction of an item tracked before
    returned. *)
Theorem refreshChannel_stays_absent (h : host) (s : plugin) (c : string) :
  table_ok (injectedMessages s) →
  ¬ gate_open (config s) c →
  match refreshChannel h c s with
  | (r, s', t) =>
      Forall not_creation t ∧ no_new_entry s s' ∧
      (retraction_returns h c s → absent c s')
  end.
Proof. apply refreshChannel_gate_closed. Qed.

Lemma refreshChannel_stays_absent_witness :
  let s := set_config disabled_config one_active in
  table_ok (injectedMessages s) ∧ ¬ gate_open (config s) "11111" ∧
  match refreshChannel quiet_host "11111" s with
  | (r, s', t) =>
      Forall not_creation t ∧ no_new_entry s s' ∧
      (retraction_returns quiet_host "11111" s → absent "11111" s')
  end.
Proof.
  assert (Hok : table_ok (injectedMessages (set_config disabled_config one_active)))
    by (apply table_okb_ok; reflexivity).
  assert (Hclosed : ¬ gate_open (config (set_config disabled_config one_active)) "11111")
    by (intros [Hen _]; vm_compute in Hen; discriminate).
  split; [exact Hok|]. split; [exact Hclosed|].
  exact (refreshChannel_stays_absent quiet_host _ "11111" Hok Hclosed).
Defined.

(** With [enabled] false, no run of [refreshChannel] makes a channel
    Active. *)
Lemma refreshChannel_disabled (h : host) (s : plugin) (c : string) :
  table_ok (injectedMessages s) →
  truthy (field (config s) "enabled") = false →
  match refreshChannel h c s with
  | (r, s', t) =>
      Forall not_creation t ∧ no_new_entry s s' ∧
      (retraction_returns h c s → absent c s')
  end.
Proof.
  intros Hok Hen. apply refreshChannel_gate_closed; [done|].
  intros [Hen' _]. congruence.
Qed.

(** ** The identity cache *)

Section identity.
Variable h : host.

Lemma resolve_identity_returns trimmed :
  sync_lookup_returns h → is_Some (resolve_identity h trimmed).
Proof.
  intros Hsync. unfold resolve_identity.
  destruct (userStore_getUser h) as [f|] eqn:Hf.
  - destruct (Hsync f trimmed Hf) as [v ->].
    destruct (userStore_fetchUser h) as [g|]; [|done].
    destruct (truthy v); [done|]. by destruct (g trimmed).
  - destruct (userStore_fetchUser h) as [g|]; [|done].
    simpl. by destruct (g trimmed).
Qed.

Lemma fetchUser_empty rawId s :
  trim rawId = "" → fetchUser h (VStr rawId) s = (Ret VNull, s, []).
Proof. intros Ht. unfold fetchUser. mrun. simpl. by rewrite Ht. Qed.

Lemma has_true {V} k (m : list (string * V)) : JsMap.has k m = true ↔ is_Some (JsMap.get k m).
Proof. unfold JsMap.has. apply bool_decide_eq_true. Qed.

Lemma fetchUser_hit rawId s u :
  trim rawId ≠ "" → JsMap.get (trim rawId) (userCache s) = Some u →
  fetchUser h (VStr rawId) s = (Ret u, s, []).
Proof.
  intros Hne Hget. unfold fetchUser. mrun. simpl.
  apply is_empty_false in Hne. rewrite Hne.
  assert (JsMap.has (trim rawId) (userCache s) = true) as ->
    by (apply has_true; eauto).
  by rewrite Hget.
Qed.

Lemma fetchUser_miss rawId s :
  trim rawId ≠ "" → JsMap.get (trim rawId) (userCache s) = None →
  match resolve_identity h (trim rawId) with
  | Some (user, t) =>
      fetchUser h (VStr rawId) s =
      (Ret (coalesce user (placeholder (trim rawId))),
       (if truthy user
        then set_userCache (JsMap.set (trim rawId) user (userCache s)) s
        else s),
       t)
  | None => ∃ e t, fetchUser h (VStr rawId) s = (Throw e, s, t)
  end.
Proof.
  intros Hne Hget. unfold fetchUser, resolve_identity, placeholder. mrun. simpl.
  apply is_empty_false in Hne. rewrite Hne.
  assert (JsMap.has (trim rawId) (userCache s) = false) as ->.
  { apply not_true_is_false. rewrite has_true, Hget. by intros [? ?]. }
  destruct (userStore_getUser h) as [f|]; simpl.
  - destruct (f (trim rawId)) as [v|e]; simpl; [|by eexists _, _].
    destruct (userStore_fetchUser h) as [g|]; simpl.
    + destruct (truthy v) eqn:Hv; simpl; [by rewrite Hv|].
      destruct (g (trim rawId)) as [w|e]; simpl.
      * by destruct (truthy w).
      * by rewrite Hv.
    + by destruct (truthy v).
  - destruct (userStore_fetchUser h) as [g|]; simpl; [|done].
    destruct (g (trim rawId)) as [w|e]; simpl; [|done].
    by destruct (truthy w).
Qed.

(** When the synchronous lookup does not throw, neither does
    [fetchUser]: a throw of the asynchronous fetch is caught inside. *)
Lemma fetchUser_returns rawId s :
  sync_lookup_returns h →
  ∃ v s' t, fetchUser h (VStr rawId) s = (Ret v, s', t).
Proof.
  intros Hsync. destruct (decide (trim rawId = "")) as [He|Hne].
  { rewrite fetchUser_empty by done. by eexists _, _, _. }
  destruct (JsMap.get (trim rawId) (userCache s)) as [u|] eqn:Hget.
  { erewrite fetchUser_hit by done. by eexists _, _, _. }
  pose proof (fetchUser_miss rawId s Hne Hget) as Hmiss.
  destruct (resolve_identity_returns (trim rawId) Hsync) as [[user t] Hres].
  rewrite Hres in Hmiss. rewrite Hmiss. by eexists _, _, _.
Qed.
End identity.

Lemma cache_ok_set k v m : truthy v = true → cache_ok m → cache_ok (JsMap.set k v m).
Proof.
  intros Hv Hm k' v' Hin.
  apply JsMapFacts.elem_of_set in Hin as [Heq|Hin]; [by simplify_eq | eauto].
Qed.

Lemma coalesce_placeholder_not_nullish user trimmed :
  nullish (coalesce user (placeholder trimmed)) = false.
Proof. by destruct user. Qed.

(** C6, as the code has it.  [fetchUser] trims its input and answers
    [null] when nothing is left.  Otherwise, when the synchronous lookup
    does not throw, it returns a value that is neither [null] nor
    [undefined]: on a cache hit the cached value, with no call on the
    collaborators; on a miss what the collaborators resolved, or the
    placeholder [{id: trimmed}] when they resolved [null] or [undefined].
    Only a truthy resolved identity is stored in the cache; the placeholder
    is never stored, so the next fetch of the same id is a cache hit
    exactly when an identity was resolved. *)
Theorem fetchUser_caches_resolved_only (h : host) (s : plugin) (rawId : string) :
  cache_ok (userCache s) →
  sync_lookup_returns h →
  match fetchUser h (VStr rawId) s with
  | (r, s', t) =>
      cache_only s s' ∧ cache_ok (userCache s') ∧
      if is_empty (trim rawId) then r = Ret VNull ∧ s' = s ∧ t = []
      else
        ∃ v, r = Ret v ∧ nullish v = false ∧
          match JsMap.get (trim rawId) (userCache s) with
          | Some u => v = u ∧ s' = s ∧ t = []
          | None =>
              ∃ user calls,
                resolve_identity h (trim rawId) = Some (user, calls) ∧
                t = calls ∧
                v = coalesce user (placeholder (trim rawId)) ∧
                userCache s' =
                  (if truthy user
                   then JsMap.set (trim rawId) user (userCache s)
                   else userCache s) ∧
                JsMap.get (trim rawId) (userCache s') =
                  (if truthy user then Some v else None)
          end
  end.
Proof.
  intros Hcache Hsync.
  pose proof (fetchUser_frame h (VStr rawId) s) as Hframe.
  destruct (is_empty (trim rawId)) eqn:Hemp.
  { apply is_empty_true in Hemp. rewrite fetchUser_empty in * by done.
    destruct Hframe as [? _]. done. }
  apply is_empty_false in Hemp.
  destruct (JsMap.get (trim rawId) (userCache s)) as [u|] eqn:Hget.
  { rewrite (fetchUser_hit h rawId s u) in * by done.
    destruct Hframe as [? _]. split; [done|]. split; [done|].
    exists u. split; [done|]. split; [|done].
    apply JsMapFacts.get_elem_of, Hcache in Hget. by destruct u. }
  pose proof (fetchUser_miss h rawId s Hemp Hget) as Hmiss.
  destruct (resolve_identity_returns h (trim rawId) Hsync) as [[user calls] Hres].
  rewrite Hres in Hmiss. rewrite Hmiss in *.
  destruct Hframe as [Hfr _]. split; [done|].
  destruct (truthy user) eqn:Huser; simpl.
  - split; [by apply cache_ok_set|].
    eexists. split; [done|]. split; [apply coalesce_placeholder_not_nullish|].
    exists user, calls. rewrite Huser. repeat split; try done.
    rewrite JsMapFacts.get_set_eq. f_equal. by destruct user.
  - split; [done|].
    eexists. split; [done|]. split; [apply coalesce_placeholder_not_nullish|].
    exists user, calls. rewrite Huser. by repeat split.
Qed.

Lemma fetchUser_caches_resolved_only_witness :
  cache_ok (userCache constructed) ∧ sync_lookup_returns quiet_host ∧
  match fetchUser quiet_host (VStr " 12345 ") constructed with
  | (r, s', t) =>
      cache_only constructed s' ∧ cache_ok (userCache s') ∧
      if is_empty (trim " 12345 ") then r = Ret VNull ∧ s' = constructed ∧ t = []
      else
        ∃ v, r = Ret v ∧ nullish v = false ∧
          match JsMap.get (trim " 12345 ") (userCache constructed) with
          | Some u => v = u ∧ s' = constructed ∧ t = []
          | None =>
              ∃ user calls,
                resolve_identity quiet_host (trim " 12345 ") = Some (user, calls) ∧
                t = calls ∧
                v = coalesce user (placeholder (trim " 12345 ")) ∧
                userCache s' =
                  (if truthy user
                   then JsMap.set (trim " 12345 ") user (userCache constructed)
                   else userCache constructed) ∧
                JsMap.get (trim " 12345 ") (userCache s') =
                  (if truthy user then Some v else None)
          end
  end.
Proof.
  assert (Hc : cache_ok (userCache constructed)).
  { intros k v Hin. simpl in Hin. by apply elem_of_nil in Hin. }
  assert (Hs : sync_lookup_returns quiet_host).
  { intros f id Hf. simpl in Hf. injection Hf as <-. by eexists. }
  split; [exact Hc|]. split; [exact Hs|].
  exact (fetchUser_caches_resolved_only quiet_host constructed " 12345 " Hc Hs).
Defined.

(** C6 as it was stated fails: the host resolves nobody for " 12345 ", the
    result is the placeholder for the trimmed id (not for the raw one), and
    it is not stored, so the next fetch is not a cache hit and calls the
    collaborator again. *)
Lemma fetchUser_placeholder_not_cached :
  ∃ v s' t,
    fetchUser quiet_host (VStr " 12345 ") constructed = (Ret v, s', t) ∧
    v = placeholder "12345" ∧ v ≠ placeholder " 12345 " ∧
    JsMap.get "12345" (userCache s') ≠ Some v ∧
    ∃ r2 s2, fetchUser quiet_host (VStr " 12345 ") s' = (r2, s2, [CallGetUser "12345"]).
Proof.
  eexists _, _, _. split; [reflexivity|].
  split; [reflexivity|]. split.
  - intros Heq. apply (f_equal (λ v, opt_prop v "id")) in Heq.
    vm_compute in Heq. discriminate.
  - split; [discriminate|]. by eexists _, _.
Qed.

(** ** Building and injecting *)

Lemma trim_nonempty m : trim m ≠ "" → m ≠ "".
Proof. intros H ->. by apply H. Qed.

Lemma creations_app t1 t2 : creations (t1 ++ t2) = creations t1 ++ creations t2.
Proof. unfold creations. apply omap_app. Qed.

Lemma creations_not_creation t : Forall not_creation t → creations t = [].
Proof.
  induction 1 as [|e t He _ IH]; [done|].
  unfold creations in *. simpl.
  destruct e as [| | [] | | | | | |]; simpl in *; done.
Qed.

Lemma removal_call_not_creation h c id : Forall not_creation (removal_call h c id).
Proof. unfold removal_call. repeat case_match; by repeat constructor. Qed.

Section creation.
Variable h : host.

Lemma injectFakeMessage_run m s :
  injectFakeMessage h m s = (injection_result h m, s, injection_call h m).
Proof.
  unfold injectFakeMessage, injection_result, injection_call.
  destruct (messageActions_receiveMessage h) as [f|].
  - mrun. by destruct (f _ _).
  - destruct (dispatcher_dispatch h) as [d|]; [|done].
    mrun. by destruct (d _).
Qed.

Lemma buildFakeMessage_success c s :
  otherwise_valid (config s) → embeds_buildable (config s) →
  sync_lookup_returns h → channel_lookup_returns h →
  ∃ m s' t,
    buildFakeMessage h c s = (Ret (Some m), s', t) ∧
    cache_only s s' ∧ Forall identity_event t ∧
    msg_id m = MESSAGE_ID_PREFIX +:+ ":" +:+ c ∧ msg_channel_id m = c.
Proof.
  intros (_ & (d & Hd & _) & (content & Hcontent & Hblank)) [links Hlinks] Hsync Hch.
  destruct (fetchUser_returns h (trim d) s Hsync) as (author & s1 & t1 & Hfetch).
  pose proof (fetchUser_frame h (VStr (trim d)) s) as Hframe.
  rewrite Hfetch in Hframe. destruct Hframe as [Hs1 _].
  pose proof (cache_only_config _ _ Hs1) as Hcfg.
  assert (Htruthy : truthy (VStr content) = true).
  { simpl. apply negb_true_iff, is_empty_false. by apply trim_nonempty. }
  pose proof (buildFakeMessage_frame h c s) as Hf.
  destruct (buildFakeMessage h c s) as [[r s'] t] eqn:Hrun.
  destruct Hf as [Hs' Ht].
  assert (∃ m, r = Ret (Some m)) as [m ->].
  { unfold buildFakeMessage, buildEmbeds, decorateContent in Hrun.
    minv_all Hrun; try (by eexists); exfalso;
      repeat match goal with
             | H : context [field (config _) "discordId"] |- _ =>
                 progress (rewrite Hd in H); simpl in H; simplify_eq
             | H : fetchUser _ _ _ = _ |- _ =>
                 progress (rewrite Hfetch in H); simplify_eq
             | Hc : config ?a = config ?b, H : context [config ?a] |- _ =>
                 progress (rewrite Hc in H)
             | H : context [field (config _) "messageContent"] |- _ =>
                 progress (rewrite Hcontent, Htruthy in H); simpl in H
             | H : buildEmbeds_of (config _) = _ |- _ =>
                 progress (rewrite Hlinks in H)
             | H : channelStore_getChannel h = Some ?f, H' : ?f c = Throw _ |- _ =>
                 destruct (Hch f c H) as [? ?]; congruence
             end; done. }
  exists m, s', t. split; [done|]. split; [done|]. split; [done|].
  by eapply buildFakeMessage_id.
Qed.

(** When identity, links, channel lookup and injection go through, the
    [try] block records the item of the channel. *)
Lemma build_and_inject_success c s :
  otherwise_valid (config s) → embeds_buildable (config s) →
  sync_lookup_returns h → channel_lookup_returns h → injection_returns h →
  ∃ m s1 t1,
    build_and_inject h c s =
      (Ret tt,
       set_injectedMessages (JsMap.set c (MESSAGE_ID_PREFIX +:+ ":" +:+ c)
                               (injectedMessages s)) s1,
       t1 ++ injection_call h m) ∧
    cache_only s s1 ∧ Forall identity_event t1 ∧ msg_channel_id m = c.
Proof.
  intros Hvalid Hemb Hsync Hch Hinj.
  destruct (buildFakeMessage_success c s Hvalid Hemb Hsync Hch)
    as (m & s1 & t1 & Hbuild & Hs1 & Ht1 & Hid & Hchan).
  exists m, s1, t1. split; [|done].
  unfold build_and_inject. rewrite run_bind, Hbuild.
  rewrite run_bind, injectFakeMessage_run, (Hinj m). cbv [modify].
  rewrite Hid, (cache_only_table _ _ Hs1). by rewrite app_nil_r.
Qed.

(** A throw out of the [try] block leaves the table as it was. *)
Lemma build_and_inject_throw c s e s' t :
  build_and_inject h c s = (Throw e, s', t) → cache_only s s'.
Proof.
  unfold build_and_inject. intros Hrun.
  apply bind_inv in Hrun as [(fm & s1 & t1 & t2 & Hbuild & Hrest & ->)|(e' & Hbuild & _)].
  - pose proof (buildFakeMessage_frame h c s) as Hf. rewrite Hbuild in Hf.
    destruct Hf as [Hs1 _]. destruct fm as [m|]; [|by cbv in Hrest].
    apply bind_inv in Hrest as [(? & s2 & ? & ? & Hinj & Hmod & ->)|(e' & Hinj & _)].
    + by cbv [modify] in Hmod.
    + rewrite injectFakeMessage_run in Hinj. by simplify_eq.
  - pose proof (buildFakeMessage_frame h c s) as Hf. rewrite Hbuild in Hf.
    by destruct Hf.
Qed.

(** With the gate open and collaborators that return, a refresh makes
    the channel Active, with one injection call, made last. *)
Lemma refreshChannel_creates c s :
  table_ok (injectedMessages s) → c ≠ "" →
  gate_open (config s) c → embeds_buildable (config s) →
  sync_lookup_returns h → channel_lookup_returns h → injection_returns h →
  retraction_returns h c s →
  ∃ m s' t,
    refreshChannel h c s = (Ret tt, s', t) ∧
    JsMap.get c (injectedMessages s') = Some (MESSAGE_ID_PREFIX +:+ ":" +:+ c) ∧
    msg_channel_id m = c ∧
    creations t = creations (injection_call h m).
Proof.
  intros Hok Hc Hgate Hemb Hsync Hch Hinj Hret.
  set (s1 := match JsMap.get c (injectedMessages s) with
             | Some _ => set_injectedMessages (JsMap.delete c (injectedMessages s)) s
             | None => s
             end).
  set (t0 := match JsMap.get c (injectedMessages s) with
             | Some id => removal_call h c id
             | None => []
             end).
  assert (Hrem : removeFakeMessage h c s = (Ret tt, s1, t0)).
  { rewrite removeFakeMessage_run by done. unfold s1, t0.
    destruct (JsMap.get c (injectedMessages s)) as [id|] eqn:Hget; [|done].
    by rewrite (Hret id Hget). }
  assert (Hcfg : config s1 = config s).
  { unfold s1. by destruct (JsMap.get c (injectedMessages s)). }
  assert (Ht0 : Forall not_creation t0).
  { unfold t0. destruct (JsMap.get c (injectedMessages s));
      [apply removal_call_not_creation | constructor]. }
  assert (Hvalid : otherwise_valid (config s1)).
  { rewrite Hcfg. destruct Hgate as (? & ? & ? & _). by repeat split. }
  rewrite <- Hcfg in Hgate, Hemb.
  destruct (build_and_inject_success c s1 Hvalid Hemb Hsync Hch Hinj)
    as (m & s2 & t1 & Hbuild & Hs2 & Ht1 & Hchan).
  eexists m, _, _. split; [|split; [|split; [exact Hchan|]]].
  - unfold refreshChannel. apply is_empty_false in Hc. rewrite Hc.
    rewrite run_bind, Hrem. unfold decide_then_create.
    rewrite run_bind, (shouldRenderInChannel_open c s1 Hgate).
    cbv [negb]. rewrite run_try_catch, Hbuild. reflexivity.
  - simpl. apply JsMapFacts.get_set_eq.
  - simpl. rewrite !creations_app.
    rewrite (creations_not_creation t0 Ht0).
    rewrite (creations_not_creation t1); [done|].
    eapply Forall_impl; [exact Ht1 | apply identity_event_not_creation].
Qed.
End creation.

(** Checks by evaluation, for concrete configurations and hosts. *)
Lemma gate_open_check c s :
  (shouldRenderInChannel c s).1.1 = Ret true → gate_open (config s) c.
Proof.
  destruct (shouldRenderInChannel_run c s) as (r & Hrun & Hg).
  rewrite Hrun. simpl. exact Hg.
Qed.

Lemma quiet_host_sync : sync_lookup_returns quiet_host.
Proof. intros f id Hf. simpl in Hf. injection Hf as <-. by eexists. Qed.

Lemma quiet_host_channel : channel_lookup_returns quiet_host.
Proof. intros f c Hf. simpl in Hf. injection Hf as <-. by eexists. Qed.

Lemma quiet_host_injection : injection_returns quiet_host.
Proof. intros m. reflexivity. Qed.

Lemma quiet_host_removal : removal_returns quiet_host.
Proof. intros c id. reflexivity. Qed.

Lemma removal_returns_retraction h c s : removal_returns h → retraction_returns h c s.
Proof. intros H id _. apply H. Qed.

(** C4, as the code has it.  Under an otherwise valid, enabled
    configuration of scope "specific" and collaborators that do not throw:
    with the target channel "111", which is too short to be a valid
    identifier, neither [refreshChannel "222"] nor [refreshChannel "111"]
    creates an item; with the valid target "11111", [refreshChannel
    "22222"] creates no item and [refreshChannel "11111"] makes channel
    "11111" Active, with the item "fake-message-composer:11111" and one
    injection. *)
Theorem specific_scope_needs_valid_target (h : host) (s : plugin) :
  table_ok (injectedMessages s) →
  otherwise_valid (config s) → embeds_buildable (config s) →
  field (config s) "channelMode" = VStr "specific" →
  sync_lookup_returns h → channel_lookup_returns h →
  injection_returns h → removal_returns h →
  (field (config s) "targetChannelId" = VStr "111" →
   match refreshChannel h "222" s, refreshChannel h "111" s with
   | (_, s2, t2), (_, s1, t1) =>
       absent "222" s2 ∧ creations t2 = [] ∧ absent "111" s1 ∧ creations t1 = []
   end) ∧
  (field (config s) "targetChannelId" = VStr "11111" →
   match refreshChannel h "22222" s, refreshChannel h "11111" s with
   | (_, s2, t2), (r1, s1, t1) =>
       absent "22222" s2 ∧ creations t2 = [] ∧
       r1 = Ret tt ∧
       JsMap.get "11111" (injectedMessages s1) = Some "fake-message-composer:11111" ∧
       ∃ m, msg_channel_id m = "11111" ∧ creations t1 = creations (injection_call h m)
   end).
Proof.
  intros Hok Hvalid Hemb Hmode Hsync Hch Hinj Hrem.
  assert (Hclosed : ∀ tc c,
            field (config s) "targetChannelId" = VStr tc →
            tc ≠ c ∨ test_digits5 (trim tc) = false →
            match refreshChannel h c s with
            | (_, s', t) => absent c s' ∧ creations t = []
            end).
  { intros tc c Htc Hbad.
    pose proof (refreshChannel_gate_closed h s c Hok) as Hg.
    destruct (refreshChannel h c s) as [[r s'] t].
    destruct Hg as (Hnc & _ & Habs).
    - intros (_ & _ & _ & Hsp). destruct (Hsp Hmode) as (tc' & Htc' & Heq & Hd & _).
      rewrite Htc in Htc'. simplify_eq. destruct Hbad; congruence.
    - split; [by apply Habs, removal_returns_retraction|].
      by apply creations_not_creation. }
  split; intros Htc.
  - pose proof (Hclosed "111" "222" Htc (or_intror eq_refl)) as H2.
    pose proof (Hclosed "111" "111" Htc (or_intror eq_refl)) as H1.
    destruct (refreshChannel h "222" s) as [[? ?] ?].
    destruct (refreshChannel h "111" s) as [[? ?] ?].
    naive_solver.
  - assert (Hne : "11111" ≠ "22222") by done.
    pose proof (Hclosed "11111" "22222" Htc (or_introl Hne)) as H2.
    destruct (refreshChannel_creates h "11111" s) as (m & s1 & t1 & Hrun & Hget & Hm & Hcr);
      try done.
    { destruct Hvalid as (? & ? & ?). repeat split; try done.
      intros _. by exists "11111". }
    { by apply removal_returns_retraction. }
    rewrite Hrun. destruct (refreshChannel h "22222" s) as [[? ?] ?].
    destruct H2. repeat split; try done. by exists m.
Qed.

Lemma specific_scope_needs_valid_target_witness :
  let s := started_with (specific_config "11111") in
  match refreshChannel quiet_host "22222" s, refreshChannel quiet_host "11111" s with
  | (_, s2, t2), (r1, s1, t1) =>
      absent "22222" s2 ∧ creations t2 = [] ∧
      r1 = Ret tt ∧
      JsMap.get "11111" (injectedMessages s1) = Some "fake-message-composer:11111" ∧
      ∃ m, msg_channel_id m = "11111" ∧
           creations t1 = creations (injection_call quiet_host m)
  end.
Proof.
  refine (proj2 (specific_scope_needs_valid_target quiet_host
                   (started_with (specific_config "11111")) _ _ _ _
                   quiet_host_sync quiet_host_channel quiet_host_injection
                   quiet_host_removal) _).
  - apply table_okb_ok. reflexivity.
  - split; [reflexivity|]. split.
    + exists "123456789012345". split; reflexivity.
    + exists "hello". split; [reflexivity|]. vm_compute. discriminate.
  - eexists. vm_compute. reflexivity.
  - reflexivity.
  - reflexivity.
Defined.

(** C4 as it was stated fails: under Scenario B with the target "111",
    [refreshChannel "111"] creates nothing and leaves the channel Absent. *)
Lemma scenario_B_short_target_not_created :
  match refreshChannel quiet_host "111" (started_with (specific_config "111")) with
  | (r, s', t) =>
      r = Ret tt ∧ JsMap.get "111" (injectedMessages s') = None ∧ t = [] ∧
      ¬ (∃ id, JsMap.get "111" (injectedMessages s') = Some id)
  end.
Proof.
  vm_compute. repeat split. intros [id Hid]. discriminate.
Qed.

Section build_failure.
Variable h : host.

Lemma removeFakeMessage_returns c s :
  table_ok (injectedMessages s) → retraction_returns h c s →
  ∃ t0, removeFakeMessage h c s = (Ret tt, after_retraction c s, t0) ∧
        Forall not_creation t0.
Proof.
  intros Hok Hret. rewrite removeFakeMessage_run by done. unfold after_retraction.
  destruct (JsMap.get c (injectedMessages s)) as [id|] eqn:Hget.
  - rewrite (Hret id Hget). eexists. split; [done|]. apply removal_call_not_creation.
  - eexists. split; [done|]. constructor.
Qed.

Lemma after_retraction_absent c s : absent c (after_retraction c s).
Proof.
  unfold absent, after_retraction.
  destruct (JsMap.get c (injectedMessages s)) eqn:Hget; [|done].
  apply JsMapFacts.get_delete_eq.
Qed.

Lemma after_retraction_config c s : config (after_retraction c s) = config s.
Proof. unfold after_retraction. by destruct (JsMap.get c (injectedMessages s)). Qed.

Lemma refreshChannel_try_block c s :
  table_ok (injectedMessages s) → c ≠ "" →
  gate_open (config s) c → retraction_returns h c s →
  ∃ t0,
    removeFakeMessage h c s = (Ret tt, after_retraction c s, t0) ∧
    match build_and_inject h c (after_retraction c s) with
    | (Ret _, s2, t2) => refreshChannel h c s = (Ret tt, s2, t0 ++ t2)
    | (Throw e, s2, t2) =>
        refreshChannel h c s =
          (Ret tt, s2, t0 ++ t2 ++ [Warn "Failed to create fake message"]) ∧
        absent c s2
    end.
Proof.
  intros Hok Hc Hgate Hret.
  destruct (removeFakeMessage_returns c s Hok Hret) as (t0 & Hrem & _).
  exists t0. split; [done|].
  rewrite <- (after_retraction_config c s) in Hgate.
  unfold refreshChannel. apply is_empty_false in Hc. rewrite Hc.
  rewrite run_bind, Hrem. unfold decide_then_create.
  rewrite run_bind, (shouldRenderInChannel_open c _ Hgate). cbv [negb].
  rewrite run_try_catch.
  destruct (build_and_inject h c (after_retraction c s)) as [[[[]|e] s2] t2] eqn:Hb.
  - reflexivity.
  - split; [reflexivity|].
    apply build_and_inject_throw in Hb. unfold absent.
    rewrite (cache_only_table _ _ Hb). apply after_retraction_absent.
Qed.
End build_failure.

(** C5, as the code has it.  When the gate is open and the retraction
    returned, no exception escapes [refreshChannel]: it answers normally
    whatever the [try] block does.  When an exception comes out of
    building or injecting the item (the synchronous identity lookup, the
    links, the channel lookup or the injection collaborator throws), it is
    caught and logged, and the channel ends Absent, with no entry recorded.
    A throw of the asynchronous identity fetch is not such an exception:
    [fetchUser] catches it and answers, so building goes on. *)
Theorem refreshChannel_catches_build_failure (h : host) (s : plugin) (c : string) :
  table_ok (injectedMessages s) → c ≠ "" →
  gate_open (config s) c → retraction_returns h c s →
  (∃ s' t, refreshChannel h c s = (Ret tt, s', t)) ∧
  (∀ e s2 t2,
     build_and_inject h c (after_retraction c s) = (Throw e, s2, t2) →
     ∃ t, refreshChannel h c s =
            (Ret tt, s2, t ++ [Warn "Failed to create fake message"]) ∧
          absent c s2) ∧
  (sync_lookup_returns h →
   ∀ rawId s0, ∃ v s' t, fetchUser h (VStr rawId) s0 = (Ret v, s', t)).
Proof.
  intros Hok Hc Hgate Hret.
  destruct (refreshChannel_try_block h c s Hok Hc Hgate Hret) as (t0 & _ & Htry).
  split; [|split].
  - destruct (build_and_inject h c (after_retraction c s)) as [[[[]|e] s2] t2].
    + by eexists _, _.
    + destruct Htry as [-> _]. by eexists _, _.
  - intros e s2 t2 Hb. rewrite Hb in Htry. destruct Htry as [-> Habs].
    exists (t0 ++ t2). by rewrite <- app_assoc.
  - intros Hsync rawId s0. by apply fetchUser_returns.
Qed.

Lemma refreshChannel_catches_build_failure_witness :
  let s := started_with any_channel_config in
  (∃ e s2 t2,
     build_and_inject failing_inject_host "99999" (after_retraction "99999" s)
       = (Throw e, s2, t2)) ∧
  (∃ s' t, refreshChannel failing_inject_host "99999" s = (Ret tt, s', t)) ∧
  (∀ e s2 t2,
     build_and_inject failing_inject_host "99999" (after_retraction "99999" s)
       = (Throw e, s2, t2) →
     ∃ t, refreshChannel failing_inject_host "99999" s =
            (Ret tt, s2, t ++ [Warn "Failed to create fake message"]) ∧
          absent "99999" s2) ∧
  (sync_lookup_returns failing_inject_host →
   ∀ rawId s0, ∃ v s' t, fetchUser failing_inject_host (VStr rawId) s0 = (Ret v, s', t)).
Proof.
  split.
  - eexists _, _, _. vm_compute. reflexivity.
  - apply (refreshChannel_catches_build_failure failing_inject_host
             (started_with any_channel_config) "99999").
    + apply table_okb_ok. reflexivity.
    + discriminate.
    + apply gate_open_check. vm_compute. reflexivity.
    + intros id Hid. vm_compute in Hid. discriminate.
Defined.

(** C5 as it was stated fails: here the asynchronous identity fetch
    throws while the item is built, and the channel ends Active, with an
    entry in the table and one injection. *)
Lemma refreshChannel_fetch_throw_still_creates :
  (∃ f, userStore_fetchUser failing_fetch_host = Some f ∧
        f "123456789012345" = Throw (VStr "network down")) ∧
  match refreshChannel failing_fetch_host "99999" (started_with any_channel_config) with
  | (r, s', t) =>
      r = Ret tt ∧
      CallFetchUser "123456789012345" ∈ t ∧
      JsMap.get "99999" (injectedMessages s') = Some "fake-message-composer:99999" ∧
      length (creations t) = 1%nat ∧
      ¬ absent "99999" s'
  end.
Proof.
  split; [by eexists|].
  vm_compute. split; [reflexivity|]. split.
  - apply list_elem_of_In. right. left. reflexivity.
  - split; [reflexivity|]. split; [reflexivity|]. discriminate.
Qed.

(** ** Reconciliation after a configuration change *)

Section reapply.
Variable h : host.

Lemma getCurrentChannelId_run s :
  getCurrentChannelId h s = (current_channel h, s, []).
Proof.
  unfold getCurrentChannelId, current_channel, call_getter. mrun.
  destruct (getCurrentlySelectedChannelId h) as [[[a|]|e]|]; simpl; try done;
    destruct (getChannelId h) as [[[b|]|e]|]; simpl; try done;
    destruct (getMostRecentSelectedTextChannelId h) as [[o|e]|]; simpl; done.
Qed.

Lemma for_each_removals l s :
  retractions_return h l →
  for_each l (λ e, dispatchMessageDelete h e.1 e.2) s = (Ret tt, s, removal_calls h l).
Proof.
  induction l as [|[c id] l IH]; intros Hret; [done|].
  simpl. rewrite run_bind, dispatchMessageDelete_run. simpl.
  rewrite (Hret c id) by left. rewrite IH; [done|].
  intros c' id' Hin. apply Hret. by right.
Qed.

Lemma clearInjectedMessages_run s :
  retractions_return h (injectedMessages s) →
  clearInjectedMessages h s =
    (Ret tt, set_injectedMessages [] s, removal_calls h (injectedMessages s)).
Proof.
  intros Hret. unfold clearInjectedMessages. rewrite run_bind. cbv [get_this].
  rewrite run_bind, (for_each_removals _ _ Hret). cbv [modify].
  by rewrite !app_nil_r.
Qed.

(** The refresh of the current channel leaves the other channels of the
    table alone. *)
Lemma refreshForCurrentChannel_others force s :
  match refreshForCurrentChannel h force s with
  | (r, s', t) =>
      ∀ c, current_channel h ≠ Ret (Some c) →
           JsMap.get c (injectedMessages s') = JsMap.get c (injectedMessages s)
  end.
Proof.
  unfold refreshForCurrentChannel. rewrite run_bind. cbv [get_this].
  destruct (negb (started s) && negb force); [done|].
  rewrite run_bind, getCurrentChannelId_run.
  destruct (current_channel h) as [[c0|]|e] eqn:Hcur; [|done..].
  destruct (is_empty c0); [done|]. unfold detached.
  pose proof (refreshChannel_frame h c0 s) as Hf.
  destruct (refreshChannel h c0 s) as [[r s'] t].
  destruct Hf as [(_ & _ & Hothers) _]. simpl.
  intros c Hc. apply Hothers. congruence.
Qed.
End reapply.

(** C2, as the code has it.  When the plugin is not started,
    [reapplyFakeMessages] does nothing.  When it is started and the removal
    collaborator does not throw, it first retracts every entry of the
    table, whatever its channel (one removal call per entry, in the order
    of the table, which is then empty), and then refreshes the currently
    selected channel only: afterwards no channel but the current one holds
    an item. *)
Theorem reapply_retracts_all_then_refreshes_current (h : host) (s : plugin) :
  retractions_return h (injectedMessages s) →
  match reapplyFakeMessages h s with
  | (r, s', t) =>
      if started s then
        (∃ t', refreshForCurrentChannel h true (set_injectedMessages [] s) = (r, s', t') ∧
               t = removal_calls h (injectedMessages s) ++ t') ∧
        (∀ c, current_channel h ≠ Ret (Some c) → absent c s')
      else (r, s', t) = (Ret tt, s, [])
  end.
Proof.
  intros Hret. unfold reapplyFakeMessages. rewrite run_bind. cbv [get_this].
  destruct (started s); [|done]. cbv [negb].
  rewrite run_bind, (clearInjectedMessages_run h s Hret).
  pose proof (refreshForCurrentChannel_others h true (set_injectedMessages [] s)) as Hothers.
  destruct (refreshForCurrentChannel h true _) as [[r s'] t'].
  simpl. split; [by exists t'|].
  intros c Hc. unfold absent. by rewrite (Hothers c Hc).
Qed.

Lemma reapply_retracts_all_then_refreshes_current_witness :
  retractions_return quiet_host (injectedMessages one_active) ∧
  match reapplyFakeMessages quiet_host one_active with
  | (r, s', t) =>
      if started one_active then
        (∃ t', refreshForCurrentChannel quiet_host true
                 (set_injectedMessages [] one_active) = (r, s', t') ∧
               t = removal_calls quiet_host (injectedMessages one_active) ++ t') ∧
        (∀ c, current_channel quiet_host ≠ Ret (Some c) → absent c s')
      else (r, s', t) = (Ret tt, one_active, [])
  end.
Proof.
  assert (H : retractions_return quiet_host (injectedMessages one_active))
    by (intros c id _; reflexivity).
  split; [exact H|].
  exact (reapply_retracts_all_then_refreshes_current quiet_host one_active H).
Defined.

(** C2 as it was stated fails: channel "22222" is selected, channel "11111"
    holds an item, and the reconciliation retracts that item: the removal
    collaborator is called for "11111" and its entry is gone. *)
Lemma reapply_retracts_background_channel :
  current_channel quiet_host = Ret (Some "22222") ∧
  JsMap.get "11111" (injectedMessages one_active) = Some "fake-message-composer:11111" ∧
  match reapplyFakeMessages quiet_host one_active with
  | (r, s', t) =>
      CallDeleteMessage "11111" "fake-message-composer:11111" ∈ t ∧
      JsMap.get "11111" (injectedMessages s') = None ∧
      ¬ (JsMap.get "11111" (injectedMessages s') = Some "fake-message-composer:11111" ∧
         CallDeleteMessage "11111" "fake-message-composer:11111" ∉ t)
  end.
Proof.
  split; [reflexivity|]. split; [reflexivity|].
  vm_compute. split; [|split].
  - apply list_elem_of_In. left. reflexivity.
  - reflexivity.
  - intros [Hget _]. discriminate.
Qed.

(** ** Lifecycle *)

Lemma removals_app t1 t2 : removals (t1 ++ t2) = removals t1 ++ removals t2.
Proof. unfold removals. apply omap_app. Qed.

Lemma removals_teardown t : Forall teardown_event t → removals t = [].
Proof.
  induction 1 as [|e t He _ IH]; [done|].
  unfold removals in *. simpl.
  destruct e as [| | [] | | | | | |]; simpl in *; done.
Qed.

Lemma removals_removal_calls h l :
  has_removal_collaborator h → removals (removal_calls h l) = l.
Proof.
  intros Hcol. induction l as [|[c id] l IH]; [done|].
  change (removal_calls h ((c, id) :: l))
    with (removal_call h c id ++ removal_calls h l).
  rewrite removals_app, IH.
  unfold removal_call.
  destruct (messageActions_deleteMessage h) eqn:E1; [reflexivity|].
  destruct (dispatcher_dispatch h) eqn:E2; [reflexivity|].
  destruct Hcol as [[? ?]|[? ?]]; congruence.
Qed.

Section lifecycle.
Variable h : host.

Lemma clearPersistTimer_run s : clearPersistTimer s = (Ret tt, timer_cleared s, []).
Proof.
  unfold clearPersistTimer, timer_cleared, clearTimeout. mrun.
  by destruct (persistTimer s).
Qed.

Lemma unsubscribeFromChannelChanges_run s :
  ∃ t, unsubscribeFromChannelChanges h s = (Ret tt, set_channelSelectUnsub false s, t) ∧
       Forall teardown_event t.
Proof.
  unfold unsubscribeFromChannelChanges. mrun.
  destruct (channelSelectUnsub s); [|by eexists].
  destruct (dispatcher_unsubscribe h); eexists; (split; [done|]); by repeat constructor.
Qed.

Lemma unpatch_loop_run ps s :
  ∃ t, unpatch_loop ps s = (Ret tt, match ps with [] => s | _ => set_patches [] s end, t) ∧
       Forall teardown_event t.
Proof.
  revert s. induction ps as [|undo rest IH]; intros s; [by eexists|].
  simpl. rewrite run_bind. cbv [modify]. rewrite run_bind, run_try_catch.
  rewrite run_bind. cbv [emit lift].
  destruct (IH (set_patches rest s)) as (t & Hrun & Ht).
  assert (Hst : match rest with [] => set_patches rest s | _ => set_patches [] (set_patches rest s) end
                = set_patches [] s) by (by destruct rest).
  rewrite Hst in Hrun.
  destruct undo as [[]|e]; simpl; rewrite Hrun; eexists; (split; [done|]);
    simpl; by repeat constructor.
Qed.

Lemma unpatchAll_run s :
  ∃ t, unpatchAll s =
         (Ret tt, set_timestampBadgePatched false (set_patches [] s), t) ∧
       Forall teardown_event t.
Proof.
  unfold unpatchAll. rewrite run_bind. cbv [get_this]. rewrite run_bind.
  destruct (unpatch_loop_run (patches s) s) as (t & -> & Ht).
  cbv [modify]. exists t. rewrite !app_nil_r. split; [|done].
  destruct s as [? ? ? ? ? ? ? ps]. simpl. by destruct ps.
Qed.

Lemma stop_run s :
  ∃ t, Forall teardown_event t ∧
    match clearInjectedMessages h (unwired s) with
    | (Ret _, s1, t1) => stop h s = (Ret tt, timer_cleared s1, t ++ t1)
    | (Throw e, s1, t1) => stop h s = (Throw e, s1, t ++ t1)
    end.
Proof.
  unfold stop. rewrite run_bind. cbv [modify].
  destruct (unsubscribeFromChannelChanges_run (set_started false s)) as (t1 & Hu & Ht1).
  rewrite run_bind, Hu.
  destruct (unpatchAll_run (set_channelSelectUnsub false (set_started false s)))
    as (t2 & Hp & Ht2).
  rewrite run_bind, Hp. fold (unwired s). rewrite run_bind.
  exists (t1 ++ t2). split; [by apply Forall_app|].
  destruct (clearInjectedMessages h (unwired s)) as [[[[]|e] s1] t3].
  - rewrite clearPersistTimer_run. simpl. by rewrite app_nil_r, app_assoc.
  - simpl. by rewrite app_assoc.
Qed.

(** When the removal collaborator returns for every tracked item, [stop]
    returns, the table is empty, every tracked item was retracted once,
    in the order of the table, and the pending timer is cancelled. *)
Lemma stop_drains s :
  retractions_return h (injectedMessages s) →
  ∃ s' t,
    stop h s = (Ret tt, s', t) ∧
    injectedMessages s' = [] ∧
    (has_removal_collaborator h → removals t = injectedMessages s) ∧
    persistTimer s' = None ∧
    (∀ id, persistTimer s = Some id → id ∉ (timers s').*1) ∧
    started s' = false ∧ channelSelectUnsub s' = false ∧ patches s' = [].
Proof.
  intros Hret. destruct (stop_run s) as (t & Ht & Hstop).
  rewrite clearInjectedMessages_run in Hstop by done.
  eexists _, _. split; [exact Hstop|].
  unfold timer_cleared. simpl.
  destruct (persistTimer s) as [id|] eqn:Hid; simpl.
  - repeat split; try done.
    + intros Hcol. rewrite removals_app, (removals_teardown _ Ht).
      by apply removals_removal_calls.
    + intros id' Hid'. simplify_eq.
      rewrite list_elem_of_fmap. intros ([id2 due] & -> & Hin).
      apply list_elem_of_filter in Hin as [Hne _]. done.
  - repeat split; try done.
    intros Hcol. rewrite removals_app, (removals_teardown _ Ht).
    by apply removals_removal_calls.
Qed.

(** A second [stop] returns as well and has nothing left to retract. *)
Lemma stop_twice s :
  retractions_return h (injectedMessages s) →
  ∃ s1 t1 s2 t2,
    stop h s = (Ret tt, s1, t1) ∧ stop h s1 = (Ret tt, s2, t2) ∧
    removals t2 = [] ∧ injectedMessages s2 = [] ∧ persistTimer s2 = None.
Proof.
  intros Hret.
  destruct (stop_drains s Hret) as (s1 & t1 & Hs1 & Htab & _ & Hpt & _).
  destruct (stop_run s1) as (t & Ht & Hstop).
  rewrite clearInjectedMessages_run in Hstop
    by (simpl; rewrite Htab; intros ?? Hin; by apply elem_of_nil in Hin).
  simpl in Hstop. rewrite Htab in Hstop.
  eexists _, _, _, _. split; [exact Hs1|]. split; [exact Hstop|].
  split; [|split].
  - rewrite removals_app, (removals_teardown _ Ht). done.
  - unfold timer_cleared. simpl. by rewrite Hpt.
  - unfold timer_cleared. simpl. by rewrite Hpt.
Qed.

(** [stop] on a plugin that was only constructed. *)
Lemma stop_before_start :
  stop h constructed = (Ret tt, constructed, []).
Proof. reflexivity. Qed.
End lifecycle.

(** C7, where the code departs from it.  The plugin tracks an item in
    channel "11111" and a persistence timer is pending; the removal
    collaborator throws.  [stop] throws that exception: the table is not
    drained and the timer is not cancelled. *)
Theorem stop_throws_when_removal_throws :
  match stop failing_removal_host one_active_armed with
  | (r, s', t) =>
      r = Throw (VStr "message not found") ∧
      injectedMessages s' = [("11111", "fake-message-composer:11111")] ∧
      persistTimer s' = Some 1%positive ∧
      timers s' = [(1%positive, 250)] ∧
      t = [CallDeleteMessage "11111" "fake-message-composer:11111"]
  end.
Proof. vm_compute. repeat split. Qed.

(** ** Loading the configuration *)

Lemma own_props_coalesce v : own_props (coalesce v (VObj ∅)) = own_props v.
Proof. by destruct v. Qed.

Lemma mergeWithDefaults_eq v :
  mergeWithDefaults v =
  <["embeds" := VArr (normalizeEmbeds (coalesce (opt_prop v "embeds") (VArr [])))]>
    (own_props v ∪ getDefaultConfig).
Proof. by destruct v. Qed.

Lemma dom_getDefaultConfig : dom getDefaultConfig = config_fields.
Proof.
  unfold getDefaultConfig, config_fields.
  rewrite !dom_insert_L, dom_empty_L. set_solver.
Qed.

Lemma dom_mergeWithDefaults v :
  dom (mergeWithDefaults v) = config_fields ∪ dom (own_props v).
Proof.
  rewrite mergeWithDefaults_eq, dom_insert_L, dom_union_L, dom_getDefaultConfig.
  unfold config_fields. set_solver.
Qed.

Lemma lookup_mergeWithDefaults v k :
  k ≠ "embeds" →
  mergeWithDefaults v !! k =
  match own_props v !! k with
  | Some x => Some x
  | None => getDefaultConfig !! k
  end.
Proof.
  intros Hk. rewrite mergeWithDefaults_eq, lookup_insert_ne by done.
  rewrite lookup_union. by destruct (own_props v !! k), (getDefaultConfig !! k).
Qed.

Lemma lookup_mergeWithDefaults_embeds v :
  mergeWithDefaults v !! "embeds" =
  Some (VArr (normalizeEmbeds (coalesce (opt_prop v "embeds") (VArr [])))).
Proof. rewrite mergeWithDefaults_eq. apply lookup_insert_eq. Qed.

Lemma loadConfig_run h s :
  ∃ t, loadConfig h s =
         (Ret (match stored_value h with
               | Some v => mergeWithDefaults v
               | None => getDefaultConfig
               end), s, t).
Proof.
  unfold loadConfig, stored_value. mrun.
  destruct (storage_get h) as [[saved|e]|]; simpl; try by eexists.
  destruct (truthy saved) eqn:Ht; simpl; [|by eexists].
  destruct saved; simpl; try by eexists.
  destruct (JSON_parse h s0); simpl; by eexists.
Qed.

(** C9, as the code has it.  [loadConfig] never raises and leaves the
    plugin as it is.  When the storage holds nothing (or a falsy value), or
    throws, or holds a string that does not parse, the result is the
    defaults.  Otherwise the properties of the stored value override the
    defaults one by one, the fields the stored value lacks keep their
    default, [embeds] is normalized, and every other property of the stored
    value is carried over: the result has the fields of the Configuration
    entity and, beside them, whatever else was stored. *)
Theorem loadConfig_merges_stored_over_defaults (h : host) (s : plugin) :
  ∃ cfg t,
    loadConfig h s = (Ret cfg, s, t) ∧
    config_fields ⊆ dom cfg ∧
    match stored_value h with
    | None => cfg = getDefaultConfig
    | Some v =>
        dom cfg = config_fields ∪ dom (own_props v) ∧
        (∀ k, k ≠ "embeds" →
              cfg !! k = match own_props v !! k with
                         | Some x => Some x
                         | None => getDefaultConfig !! k
                         end) ∧
        cfg !! "embeds" =
          Some (VArr (normalizeEmbeds (coalesce (opt_prop v "embeds") (VArr []))))
    end.
Proof.
  destruct (loadConfig_run h s) as [t Hrun].
  eexists _, t. split; [exact Hrun|].
  destruct (stored_value h) as [v|].
  - split; [rewrite dom_mergeWithDefaults; set_solver|].
    split; [apply dom_mergeWithDefaults|].
    split; [intros k Hk; by apply lookup_mergeWithDefaults|].
    apply lookup_mergeWithDefaults_embeds.
  - split; [by rewrite dom_getDefaultConfig|done].
Qed.

(** C9 as it was stated fails: the stored object has a field "theme", and
    the loaded configuration has it too, so its fields are not exactly
    those of the Configuration entity. *)
Lemma loadConfig_keeps_unknown_field :
  ∃ cfg t,
    loadConfig extra_field_host constructed = (Ret cfg, constructed, t) ∧
    cfg !! "theme" = Some (VStr "dark") ∧
    ("theme" ∉ config_fields) ∧
    dom cfg ≠ config_fields.
Proof.
  eexists _, _. split; [reflexivity|].
  assert (Hnot : "theme" ∉ config_fields).
  { unfold config_fields. set_solver. }
  split; [reflexivity|]. split; [exact Hnot|].
  intros Heq. apply Hnot. rewrite <- Heq. apply elem_of_dom. by eexists.
Qed.

(** ** The links of a built item *)

Lemma opt_prop_embed_entry_label label url :
  opt_prop (embed_entry label url) "label" = VStr label.
Proof. reflexivity. Qed.

Lemma opt_prop_embed_entry_url label url :
  opt_prop (embed_entry label url) "url" = VStr url.
Proof. reflexivity. Qed.

Lemma embed_nonblank_entry label url :
  embed_nonblank (embed_entry label url) = Ret (negb (blank label && blank url)).
Proof.
  unfold embed_nonblank, blank.
  rewrite opt_prop_embed_entry_label, opt_prop_embed_entry_url. simpl.
  by destruct (is_empty (trim label)), (is_empty (trim url)).
Qed.

Lemma embed_link_entry i label url :
  embed_link i (embed_entry label url) =
  Ret (if blank url then None
       else Some (Link (if blank label then "Link " +:+ decimal (i + 1) else trim label)
                       (trim url) (trim url))).
Proof.
  unfold embed_link, blank.
  rewrite opt_prop_embed_entry_label, opt_prop_embed_entry_url. simpl.
  by destruct (is_empty (trim label)), (is_empty (trim url)).
Qed.

(** The first [filter] of [buildEmbeds] drops the entries that are blank in
    label and url. *)
Lemma filter_o_entries l :
  filter_o embed_nonblank ((λ e, embed_entry e.1 e.2) <$> l) =
  Ret ((λ e, embed_entry e.1 e.2) <$>
         filter (λ e, negb (blank e.1 && blank e.2) = true) l).
Proof.
  induction l as [|[label url] l IH]; [done|].
  cbn [fmap list_fmap filter_o]. rewrite embed_nonblank_entry, IH. simpl.
  destruct (blank label && blank url) eqn:Hb; simpl.
  - rewrite filter_cons_False; [done | simpl; by rewrite Hb].
  - rewrite filter_cons_True; [done | simpl; by rewrite Hb].
Qed.

(** The pipeline of [buildEmbeds] on entries counted from [n] is the
    one-pass [links_from]. *)
Lemma pipeline_links_from n l :
  ∃ mapped,
    imap_o embed_link n
      ((λ e, embed_entry e.1 e.2) <$>
         filter (λ e, negb (blank e.1 && blank e.2) = true) l) = Ret mapped ∧
    filter_Boolean mapped = links_from n l.
Proof.
  revert n. induction l as [|[label url] l IH]; intros n; [by exists []|].
  simpl. destruct (blank label && blank url) eqn:Hb.
  - rewrite filter_cons_False; [apply IH | simpl; by rewrite Hb].
  - rewrite filter_cons_True; [| simpl; by rewrite Hb].
    cbn [fmap list_fmap imap_o]. rewrite embed_link_entry.
    destruct (IH (S n)) as (mapped & -> & Hm). simpl.
    eexists. split; [done|].
    rewrite <- Hm. by destruct (blank url).
Qed.

Lemma buildEmbeds_of_links cfg l :
  field cfg "embeds" = embeds_value l → buildEmbeds_of cfg = Ret (links_from 0 l).
Proof.
  intros Hf. unfold buildEmbeds_of. rewrite Hf. simpl.
  rewrite filter_o_entries. simpl.
  destruct (pipeline_links_from 0 l) as (mapped & -> & Hm). simpl. by rewrite Hm.
Qed.

Lemma links_from_urls n l :
  link_url <$> links_from n l = filter (λ u, u ≠ "") ((λ e, trim e.2) <$> l).
Proof.
  revert n. induction l as [|[label url] l IH]; intros n; [done|].
  simpl. unfold blank at 1 2.
  destruct (is_empty (trim url)) eqn:Hu.
  - apply is_empty_true in Hu.
    rewrite filter_cons_False by (simpl; rewrite Hu; by intros []).
    destruct (is_empty (trim label)); simpl; [apply IH|].
    unfold blank. rewrite Hu. simpl. apply IH.
  - rewrite andb_false_r. unfold blank. rewrite Hu.
    apply is_empty_false in Hu.
    rewrite filter_cons_True by done. simpl. by rewrite IH.
Qed.

(** What [normalizeEmbeds] returns is an array of entries with a string
    label and a string url, so every configuration that [mergeWithDefaults]
    produces has links of that shape. *)
Lemma mergeWithDefaults_embeds_shape v :
  ∃ l, field (mergeWithDefaults v) "embeds" = embeds_value l.
Proof.
  unfold field. rewrite lookup_mergeWithDefaults_embeds. simpl.
  unfold normalizeEmbeds, embeds_value.
  destruct (coalesce (opt_prop v "embeds") (VArr [])) as [| | | | | entries |];
    try by exists [].
  exists ((λ entry, (string_or_empty (opt_prop entry "label"),
                     string_or_empty (opt_prop entry "url"))) <$> entries).
  f_equal. rewrite <- list_fmap_compose. done.
Qed.

(** C10, as the code has it.  For a configuration whose links are entries
    with a string label and a string url, [buildEmbeds] never throws; the
    links it builds are, in order, the configured entries whose url is not
    empty after trimming, whatever its scheme, each with its trimmed url;
    the title is the trimmed label, or, when that is empty, "Link N" where
    N is the 1-based rank of the entry among the configured entries that
    are not blank in both label and url. *)
Theorem buildEmbeds_links (cfg : gmap string value) (l : list (string * string)) :
  field cfg "embeds" = embeds_value l →
  buildEmbeds_of cfg = Ret (links_from 0 l) ∧
  link_url <$> links_from 0 l = filter (λ u, u ≠ "") ((λ e, trim e.2) <$> l).
Proof.
  intros Hf. split; [by apply buildEmbeds_of_links | apply links_from_urls].
Qed.

Lemma buildEmbeds_links_witness :
  let l := [("docs", ""); ("", " https://a.example "); ("", "")] in
  field (config_with_links l) "embeds" = embeds_value l ∧
  buildEmbeds_of (config_with_links l) = Ret (links_from 0 l) ∧
  link_url <$> links_from 0 l = filter (λ u, u ≠ "") ((λ e, trim e.2) <$> l).
Proof.
  split; [reflexivity|].
  apply (buildEmbeds_links
           (config_with_links [("docs", ""); ("", " https://a.example "); ("", "")])).
  reflexivity.
Defined.

(** C10 as it was stated fails.  An entry whose url is not http(s) is
    kept; an unlabelled entry that follows an entry blank in label and url
    is titled "Link 1" though it is the second configured entry; and an
    unlabelled entry that follows a labelled entry without url is titled
    "Link 2" though it is the first link built. *)
Lemma buildEmbeds_not_as_claimed :
  let ftp := [("mirror", "ftp://files.example/a")] in
  let second := [("", ""); ("", "https://a.example")] in
  let first_built := [("docs", ""); ("", "https://a.example")] in
  buildEmbeds_of (config_with_links ftp)
    = Ret [Link "mirror" "ftp://files.example/a" "ftp://files.example/a"] ∧
  claimed_links ftp = [] ∧
  buildEmbeds_of (config_with_links second)
    = Ret [Link "Link 1" "https://a.example" "https://a.example"] ∧
  claimed_links second = [Link "Link 2" "https://a.example" "https://a.example"] ∧
  buildEmbeds_of (config_with_links first_built)
    = Ret [Link "Link 2" "https://a.example" "https://a.example"] ∧
  buildEmbeds_of (config_with_links ftp) ≠ Ret (claimed_links ftp) ∧
  buildEmbeds_of (config_with_links second) ≠ Ret (claimed_links second).
Proof.
  vm_compute. repeat split; discriminate.
Qed.

(** ** Debounced persistence *)

Lemma storage_writes_app t1 t2 :
  storage_writes (t1 ++ t2) = storage_writes t1 ++ storage_writes t2.
Proof. unfold storage_writes. apply omap_app. Qed.

Lemma storage_writes_engine t : Forall engine_event t → storage_writes t = [].
Proof.
  induction 1 as [|e t He _ IH]; [done|].
  unfold storage_writes in *. simpl. destruct e; simpl in *; done.
Qed.

Lemma engine_frame_fields s s' :
  engine_frame s s' →
  config s' = config s ∧ persistTimer s' = persistTimer s ∧ timers s' = timers s ∧
  next_timer s' = next_timer s ∧ now s' = now s.
Proof. unfold engine_frame. intros ->. done. Qed.

Lemma timer_cleared_timers s : timers_ok s → timers (timer_cleared s) = [].
Proof.
  unfold timers_ok, timer_cleared. intros Hok.
  destruct (persistTimer s) as [id|] eqn:Hp; simpl.
  - destruct (timers s) as [|[id' due] [|]]; [done| |done].
    simplify_eq. rewrite filter_cons_False; [done|].
    simpl. intros Hne. by apply Hne.
  - destruct (timers s) as [|[id' due] [|]]; done.
Qed.

Lemma timer_cleared_set_config c s :
  timer_cleared (set_config c s) = set_config c (timer_cleared s).
Proof. unfold timer_cleared. simpl. by destruct (persistTimer s). Qed.

Lemma config_timer_cleared s : config (timer_cleared s) = config s.
Proof. unfold timer_cleared. by destruct (persistTimer s). Qed.

Lemma next_timer_timer_cleared s : next_timer (timer_cleared s) = next_timer s.
Proof. unfold timer_cleared. by destruct (persistTimer s). Qed.

Lemma now_timer_cleared s : now (timer_cleared s) = now s.
Proof. unfold timer_cleared. by destruct (persistTimer s). Qed.

Section debounce.
Variable h : host.

Lemma clearInjectedMessages_frame :
  preserves engine_frame engine_event (clearInjectedMessages h).
Proof.
  unfold clearInjectedMessages. repeat preserves_step.
  - eapply preserves_weaken, dispatchMessageDelete_frame;
      [apply cache_only_engine_frame | done].
  - by intros [].
Qed.

Lemma refreshForCurrentChannel_frame force :
  preserves engine_frame engine_event (refreshForCurrentChannel h force).
Proof.
  unfold refreshForCurrentChannel, getCurrentChannelId, call_getter.
  repeat preserves_step.
  eapply preserves_weaken, refreshChannel_frame; [by intros ?? [? _] | done].
Qed.

Lemma reapplyFakeMessages_frame :
  preserves engine_frame engine_event (reapplyFakeMessages h).
Proof.
  unfold reapplyFakeMessages.
  repeat first [apply clearInjectedMessages_frame
               | apply refreshForCurrentChannel_frame
               | preserves_step].
Qed.

(** One [update()]: the configuration is patched, the pending timer is
    cancelled and a new one is set at the present time; nothing is
    written. *)
Lemma updateConfig_persist patch s :
  match updateConfig h patch no_options s with
  | (r, s', t) =>
      config s' = patched (config s) patch ∧
      timers s' = timers (timer_cleared s) ++ [(next_timer s, now s + PERSIST_DEBOUNCE_MS)] ∧
      persistTimer s' = Some (next_timer s) ∧
      now s' = now s ∧
      storage_writes t = []
  end.
Proof.
  pose proof reapplyFakeMessages_frame as Hre.
  destruct (updateConfig h patch no_options s) as [[r s'] t] eqn:Hrun.
  unfold updateConfig, applyConfig, enqueuePersist, setTimeout in Hrun.
  simpl in Hrun. unfold patched.
  minv_all Hrun;
    repeat match goal with
           | H : clearPersistTimer _ = _ |- _ =>
               rewrite clearPersistTimer_run in H; simplify_eq
           | H : reapplyFakeMessages h ?s0 = _ |- _ =>
               let Hf := fresh in
               pose proof (Hre s0) as Hf; rewrite H in Hf;
               destruct Hf as [Hf ?]; apply engine_frame_fields in Hf;
               destruct Hf as (? & ? & ? & ? & ?); clear H
           end;
    simpl in *;
    rewrite ?timer_cleared_set_config in *; simpl in *;
    rewrite ?config_timer_cleared, ?next_timer_timer_cleared, ?now_timer_cleared in *;
    rewrite ?app_nil_r, ?storage_writes_app;
    repeat split; try done; try congruence;
    try (by apply storage_writes_engine).
Qed.
End debounce.

(** Every call of the persist scheduler cancels the timer in flight and
    sets a new one. *)
Lemma enqueuePersist_run s :
  enqueuePersist s =
    (Ret tt,
     set_persistTimer (Some (next_timer s))
       (set_timers (timers (timer_cleared s) ++ [(next_timer s, now s + PERSIST_DEBOUNCE_MS)])
                   (Pos.succ (next_timer s)) (timer_cleared s)),
     []).
Proof.
  unfold enqueuePersist, setTimeout.
  rewrite run_bind, clearPersistTimer_run. mrun.
  by rewrite next_timer_timer_cleared, now_timer_cleared.
Qed.

Section burst.
Variable h : host.

Lemma persist_callback_run f s :
  storage_set h = Some f →
  ∃ t, persist_callback h s = (Ret tt, s, t) ∧ storage_writes t = [config s].
Proof.
  intros Hf. unfold persist_callback. rewrite Hf. mrun.
  destruct (f (config s)) as [[]|e]; by eexists.
Qed.

(** Before the timer is due the host runs nothing. *)
Lemma advance_quiet dt s id due :
  timers s = [(id, due)] → now s + dt < due →
  ∃ s', advance h dt s = (Ret tt, s', []) ∧
        timers s' = timers s ∧ persistTimer s' = persistTimer s ∧
        config s' = config s ∧ now s' = now s + dt.
Proof.
  intros Ht Hlt. unfold advance. mrun. simpl. rewrite Ht.
  rewrite !filter_cons, !filter_nil. simpl.
  rewrite (decide_False (P := due ≤ now s + dt)) by lia.
  rewrite (decide_True (P := ¬ due ≤ now s + dt)) by lia.
  simpl. by eexists.
Qed.

(** Once the timer is due the host runs its callback, once. *)
Lemma advance_fires f dt s id due :
  storage_set h = Some f →
  timers s = [(id, due)] → due ≤ now s + dt →
  ∃ s' t, advance h dt s = (Ret tt, s', t) ∧
          storage_writes t = [config s] ∧ timers s' = [] ∧ config s' = config s.
Proof.
  intros Hf Ht Hle. unfold advance. rewrite run_bind. cbv [modify].
  rewrite run_bind. cbv [get_this]. rewrite run_bind. cbv [modify].
  simpl. rewrite Ht.
  rewrite !filter_cons, !filter_nil. simpl.
  rewrite (decide_True (P := due ≤ now s + dt)) by lia.
  rewrite (decide_False (P := ¬ due ≤ now s + dt)) by lia.
  cbn [for_each]. rewrite run_bind.
  match goal with
  | |- context [persist_callback h ?s0] =>
      destruct (persist_callback_run f s0 Hf) as (t & -> & Hw)
  end.
  simpl. eexists _, _. split; [done|]. rewrite !app_nil_r. by repeat split.
Qed.

Lemma update_arms patch s :
  timers_ok s →
  match handler (updateConfig h patch no_options) s with
  | (r, s', t) =>
      r = Ret tt ∧ armed s' ∧ storage_writes t = [] ∧
      config s' = patched (config s) patch
  end.
Proof.
  intros Hok. unfold handler.
  pose proof (updateConfig_persist h patch s) as Hup.
  destruct (updateConfig h patch no_options s) as [[r s'] t].
  destruct Hup as (Hc & Ht & Hp & Hn & Hw).
  rewrite (timer_cleared_timers s Hok) in Ht. simpl in Ht.
  repeat split; try done. exists (next_timer s). by rewrite Ht, Hn.
Qed.

Lemma armed_timers_ok s : armed s → timers_ok s.
Proof. intros (id & Ht & Hp). unfold timers_ok. by rewrite Ht. Qed.

(** The further updates of a burst, each within the window after the one
    before: the timer is replaced every time and nothing is written. *)
Lemma rest_of_burst rest s :
  armed s → Forall (λ e, 0 ≤ e.1 < PERSIST_DEBOUNCE_MS) rest →
  match for_each rest (λ e, advance h e.1;; handler (updateConfig h e.2 no_options)) s with
  | (r, s', t) =>
      r = Ret tt ∧ armed s' ∧ storage_writes t = [] ∧
      config s' = foldl patched (config s) rest.*2
  end.
Proof.
  intros Harmed Hrest. revert s Harmed.
  induction Hrest as [|[dt patch] rest Hdt _ IH]; intros s Harmed; [done|].
  simpl in Hdt. destruct Harmed as (id & Ht & Hp).
  destruct (advance_quiet dt s id _ Ht) as (s1 & Hadv & Ht1 & Hp1 & Hc1 & Hn1);
    [unfold PERSIST_DEBOUNCE_MS in *; lia|].
  assert (Hok1 : timers_ok s1).
  { unfold timers_ok. by rewrite Ht1, Ht, Hp1. }
  pose proof (update_arms patch s1 Hok1) as Hup.
  destruct (handler (updateConfig h patch no_options) s1) as [[r2 s2] t2] eqn:Hh.
  destruct Hup as (-> & Harmed2 & Hw2 & Hc2).
  specialize (IH s2 Harmed2).
  rewrite for_each_cons. cbn [fst snd]. rewrite run_bind, Hadv, Hh.
  simpl. destruct (for_each rest _ s2) as [[r3 s3] t3].
  destruct IH as (-> & Harmed3 & Hw3 & Hc3).
  repeat split; try done.
  - by rewrite storage_writes_app, Hw2, Hw3.
  - by rewrite Hc3, Hc2, Hc1.
Qed.
End burst.

(** C8.  Debounced persistence, with the host's timers on a logical clock.
    Every call of the persist scheduler cancels the pending timer and sets
    a new one, so that one timer at most is pending.  For a burst of updates in which every
    update follows the one before by less than the debounce delay, and a
    quiet period of at least the delay after the last one, the storage is
    written exactly once, with the configuration that the last update
    left, which is the configuration patched by every update in turn. *)
Theorem debounced_persist_latest_wins
    (h : host) (f : gmap string value → outcome unit) (s : plugin)
    (first : value) (rest : list (Z * value)) (quiet : Z) :
  storage_set h = Some f →
  timers_ok s →
  Forall (λ e, 0 ≤ e.1 < PERSIST_DEBOUNCE_MS) rest →
  PERSIST_DEBOUNCE_MS ≤ quiet →
  (match enqueuePersist s with
   | (r, s', t) =>
       r = Ret tt ∧ t = [] ∧ persistTimer s' = Some (next_timer s) ∧
       timers s' = [(next_timer s, now s + PERSIST_DEBOUNCE_MS)]
   end) ∧
  match burst h first rest s with
  | (_, s1, t1) =>
      match advance h quiet s1 with
      | (_, s2, t2) =>
          storage_writes (t1 ++ t2) = [config s1] ∧
          config s1 = foldl patched (config s) (first :: rest.*2) ∧
          length (timers s1) = 1%nat ∧
          timers s2 = []
      end
  end.
Proof.
  intros Hf Hok Hrest Hquiet. split.
  { rewrite enqueuePersist_run. simpl. by rewrite (timer_cleared_timers s Hok). }
  unfold burst. rewrite run_bind.
  pose proof (update_arms h first s Hok) as Hup.
  destruct (handler (updateConfig h first no_options) s) as [[r0 s0] t0].
  destruct Hup as (-> & Harmed0 & Hw0 & Hc0).
  pose proof (rest_of_burst h rest s0 Harmed0 Hrest) as Hr.
  destruct (for_each rest _ s0) as [[r1 s1] t1].
  destruct Hr as (-> & (id & Ht1 & Hp1) & Hw1 & Hc1).
  destruct (advance_fires h f quiet s1 id _ Hf Ht1) as (s2 & t2 & -> & Hw2 & Ht2 & _);
    [lia|].
  rewrite !storage_writes_app, Hw0, Hw1, Hw2.
  repeat split; try done.
  - simpl. by rewrite Hc1, Hc0.
  - by rewrite Ht1.
Qed.

Lemma debounced_persist_latest_wins_witness :
  let rest := [(100, VObj (<["messageContent" := VStr "he"]> ∅));
               (249, VObj (<["messageContent" := VStr "hello"]> ∅))] in
  let first := VObj (<["messageContent" := VStr "h"]> ∅) in
  (match enqueuePersist one_active_armed with
   | (r, s', t) =>
       r = Ret tt ∧ t = [] ∧ persistTimer s' = Some (next_timer one_active_armed) ∧
       timers s' = [(next_timer one_active_armed,
                     now one_active_armed + PERSIST_DEBOUNCE_MS)]
   end) ∧
  match burst quiet_host first rest one_active_armed with
  | (_, s1, t1) =>
      match advance quiet_host 250 s1 with
      | (_, s2, t2) =>
          storage_writes (t1 ++ t2) = [config s1] ∧
          config s1 = foldl patched (config one_active_armed) (first :: rest.*2) ∧
          length (timers s1) = 1%nat ∧
          timers s2 = []
      end
  end.
Proof.
  apply (debounced_persist_latest_wins quiet_host (λ _, Ret tt) one_active_armed).
  - reflexivity.
  - reflexivity.
  - repeat constructor; simpl; unfold PERSIST_DEBOUNCE_MS; lia.
  - unfold PERSIST_DEBOUNCE_MS. lia.
Defined.

(** * Further properties of the code *)

(** ** The configuration store *)

Lemma normalizeEmbeds_entries l :
  normalizeEmbeds (embeds_value l) = (λ e, embed_entry e.1 e.2) <$> l.
Proof.
  unfold embeds_value, normalizeEmbeds. rewrite <- list_fmap_compose.
  apply list_fmap_ext. by intros _ [label url] _.
Qed.

Lemma union_defaults_absorbed (m : gmap string value) x :
  <["embeds" := x]> (m ∪ getDefaultConfig) ∪ getDefaultConfig
  = <["embeds" := x]> (m ∪ getDefaultConfig).
Proof.
  apply map_eq. intros k. rewrite lookup_union.
  destruct (decide (k = "embeds")) as [->|Hk].
  - by rewrite lookup_insert_eq.
  - rewrite lookup_insert_ne by done. rewrite lookup_union.
    by destruct (m !! k), (getDefaultConfig !! k).
Qed.

Lemma mergeWithDefaults_merged (v : value) :
  mergeWithDefaults (VObj (mergeWithDefaults v)) = mergeWithDefaults v.
Proof.
  destruct (mergeWithDefaults_embeds_shape v) as [l Hl].
  rewrite (mergeWithDefaults_eq (VObj _)). simpl.
  unfold field in Hl.
  destruct (mergeWithDefaults v !! "embeds") as [e|] eqn:He;
    [|by rewrite lookup_mergeWithDefaults_embeds in He].
  simpl in *. subst e.
  assert (Hn : coalesce (embeds_value l) (VArr []) = embeds_value l) by done.
  rewrite Hn, normalizeEmbeds_entries.
  fold (embeds_value l).
  rewrite (mergeWithDefaults_eq v) in He |- *.
  rewrite union_defaults_absorbed.
  rewrite lookup_insert_eq in He. injection He as He.
  rewrite insert_insert_eq. unfold embeds_value. by rewrite <- He.
Qed.

(** X1.  [mergeWithDefaults] is idempotent: merging a configuration that
    was already merged gives it back, the normalized links included. *)
Theorem mergeWithDefaults_idempotent (v : value) :
  mergeWithDefaults (VObj (mergeWithDefaults v)) = mergeWithDefaults v.
Proof. exact (mergeWithDefaults_merged v). Qed.

Lemma links_from_ok n l : Forall link_ok (links_from n l).
Proof.
  revert n. induction l as [|[label url] l IH]; intros n; [constructor|].
  simpl. destruct (blank label && blank url); [apply IH|].
  apply Forall_app. split; [|apply IH].
  destruct (blank url) eqn:Hu; [constructor|].
  repeat constructor; simpl.
  - destruct (blank label) eqn:Hl; [done|]. by apply is_empty_false.
  - by apply is_empty_false.
Qed.

Lemma length_links_from n l : (length (links_from n l) ≤ length l)%nat.
Proof.
  revert n. induction l as [|[label url] l IH]; intros n; [done|].
  simpl. destruct (blank label && blank url).
  - specialize (IH n). lia.
  - rewrite length_app. specialize (IH (S n)).
    destruct (blank url); simpl; lia.
Qed.

(** X2.  On every configuration that [mergeWithDefaults] produced,
    whatever was merged, [buildEmbeds] returns without throwing, and none of
    the links it builds has an empty title or an empty url. *)
Theorem buildEmbeds_total_on_merged (v : value) :
  ∃ links,
    buildEmbeds_of (mergeWithDefaults v) = Ret links ∧ Forall link_ok links.
Proof.
  destruct (mergeWithDefaults_embeds_shape v) as [l Hl].
  exists (links_from 0 l). split; [by apply buildEmbeds_of_links|].
  apply links_from_ok.
Qed.

Lemma patched_lookup cfg patch k :
  k ≠ "embeds" →
  patched cfg patch !! k =
  match own_props patch !! k with
  | Some x => Some x
  | None => match cfg !! k with
            | Some y => Some y
            | None => getDefaultConfig !! k
            end
  end.
Proof.
  intros Hk. unfold patched. rewrite lookup_mergeWithDefaults by done.
  simpl. rewrite own_props_coalesce, lookup_union.
  by destruct (own_props patch !! k), (cfg !! k).
Qed.

Lemma injectedMessages_timer_cleared s :
  injectedMessages (timer_cleared s) = injectedMessages s.
Proof. unfold timer_cleared. by destruct (persistTimer s). Qed.

Section config_store.
Variable h : host.

(** What [applyConfig] does to the configuration, the timer and the
    table, for any outcome of the reconciliation. *)
Lemma applyConfig_effect next o s :
  match applyConfig h next o s with
  | (r, s', t) =>
      config s' = mergeWithDefaults (coalesce next (VObj (config s))) ∧
      (skipReload o = true →
         r = Ret (config s') ∧ t = [] ∧ injectedMessages s' = injectedMessages s) ∧
      (skipPersist o = true →
         timers s' = timers s ∧ persistTimer s' = persistTimer s)
  end.
Proof.
  pose proof (reapplyFakeMessages_frame h) as Hre.
  destruct (applyConfig h next o s) as [[r s'] t] eqn:Hrun.
  unfold applyConfig in Hrun. destruct o as [sp sr]. simpl in *.
  destruct sp, sr; simpl in Hrun; minv_all Hrun;
    repeat match goal with
           | H : enqueuePersist _ = _ |- _ =>
               rewrite enqueuePersist_run in H; simplify_eq
           | H : reapplyFakeMessages h ?s0 = _ |- _ =>
               let Hf := fresh in
               pose proof (Hre s0) as Hf; rewrite H in Hf;
               destruct Hf as [Hf ?]; apply engine_frame_fields in Hf;
               destruct Hf as (? & ? & ? & ? & ?); clear H
           end;
    simpl in *;
    rewrite ?config_timer_cleared, ?injectedMessages_timer_cleared in *;
    repeat split; try done; try congruence.
Qed.
End config_store.

(** X3.  [applyConfig] called without a next configuration ([null] or
    [undefined]) re-merges the current one, and so keeps the configuration
    as it is; with [skipReload] it returns it and touches neither the table
    nor any collaborator, and with [skipPersist] it leaves the persistence
    timer alone. *)
Theorem applyConfig_without_next_keeps_config
    (h : host) (next : value) (o : options) (s : plugin) :
  config_merged (config s) → nullish next = true →
  match applyConfig h next o s with
  | (r, s', t) =>
      config s' = config s ∧
      (skipReload o = true →
         r = Ret (config s) ∧ t = [] ∧ injectedMessages s' = injectedMessages s) ∧
      (skipPersist o = true →
         timers s' = timers s ∧ persistTimer s' = persistTimer s)
  end.
Proof.
  intros [v Hv] Hnull.
  pose proof (applyConfig_effect h next o s) as Heff.
  destruct (applyConfig h next o s) as [[r s'] t].
  destruct Heff as (Hc & Hr & Hp).
  assert (Hcfg : config s' = config s).
  { rewrite Hc. unfold coalesce. rewrite Hnull, Hv.
    apply mergeWithDefaults_merged. }
  split; [done|]. split; [|done].
  intros Hsr. rewrite <- Hcfg. by apply Hr.
Qed.

Lemma applyConfig_without_next_keeps_config_witness :
  config_merged (config one_active) ∧ nullish VNull = true ∧
  match applyConfig quiet_host VNull (Options true true) one_active with
  | (r, s', t) =>
      config s' = config one_active ∧
      (skipReload (Options true true) = true →
         r = Ret (config one_active) ∧ t = [] ∧
         injectedMessages s' = injectedMessages one_active) ∧
      (skipPersist (Options true true) = true →
         timers s' = timers one_active ∧ persistTimer s' = persistTimer one_active)
  end.
Proof.
  assert (Hm : config_merged (config one_active)) by (by eexists).
  split; [exact Hm|]. split; [reflexivity|].
  exact (applyConfig_without_next_keeps_config quiet_host VNull (Options true true)
           one_active Hm eq_refl).
Defined.

(** X4.  [updateConfig(patch)] overrides field by field: after the call,
    whether or not the reconciliation went through, every field but
    [embeds] has the value of the patch when the patch has it, else the
    value it had, else the default; no field of the configuration is ever
    dropped. *)
Theorem updateConfig_overrides_fields (h : host) (patch : value) (s : plugin) :
  match updateConfig h patch no_options s with
  | (r, s', t) =>
      (∀ k, k ≠ "embeds" →
            config s' !! k =
            match own_props patch !! k with
            | Some x => Some x
            | None => match config s !! k with
                      | Some y => Some y
                      | None => getDefaultConfig !! k
                      end
            end) ∧
      dom (config s) ∪ config_fields ⊆ dom (config s')
  end.
Proof.
  pose proof (updateConfig_persist h patch s) as Hup.
  destruct (updateConfig h patch no_options s) as [[r s'] t].
  destruct Hup as (Hc & _). rewrite Hc. split.
  - intros k Hk. by apply patched_lookup.
  - unfold patched. rewrite dom_mergeWithDefaults. simpl.
    rewrite own_props_coalesce, dom_union_L. set_solver.
Qed.

Lemma get_all_None {V} (m : list (string * V)) :
  (∀ k, JsMap.get k m = None) → m = [].
Proof.
  destruct m as [|[k v] m]; [done|]. intros H. specialize (H k).
  simpl in H. by rewrite decide_True in H.
Qed.

(** The defaults name no source identity, so their gate is closed for every
    channel. *)
Lemma gate_closed_on_defaults c : ¬ gate_open getDefaultConfig c.
Proof. intros (_ & (d & Hd & Hdigits) & _). vm_compute in Hd. by simplify_eq. Qed.

Lemma mergeWithDefaults_defaults :
  mergeWithDefaults (VObj getDefaultConfig) = getDefaultConfig.
Proof.
  change getDefaultConfig with (mergeWithDefaults VUndefined) at 2.
  rewrite <- (mergeWithDefaults_merged VUndefined). reflexivity.
Qed.

Lemma removal_calls_not_creation h l : Forall not_creation (removal_calls h l).
Proof.
  induction l as [|[c id] l IH]; [constructor|].
  change (removal_calls h ((c, id) :: l))
    with (removal_call h c id ++ removal_calls h l).
  apply Forall_app. split; [apply removal_call_not_creation | done].
Qed.

Lemma run_get_this s : get_this s = (Ret s, s, []).
Proof. reflexivity. Qed.

Lemma run_modify f s : modify f s = (Ret tt, f s, []).
Proof. reflexivity. Qed.

Section reset.
Variable h : host.

(** With nothing tracked for the channel and the gate closed, a refresh
    does nothing at all. *)
Lemma refreshChannel_nothing_to_do c s :
  table_ok (injectedMessages s) →
  JsMap.get c (injectedMessages s) = None → ¬ gate_open (config s) c →
  ∃ r, refreshChannel h c s = (r, s, []).
Proof.
  intros Hok Hget Hclosed. unfold refreshChannel.
  destruct (is_empty c); [by eexists|].
  rewrite run_bind, (removeFakeMessage_run h c s Hok), Hget.
  destruct (decide_then_create_closed h c s Hclosed) as [r ->]. by eexists.
Qed.

Lemma refreshForCurrentChannel_closed s :
  injectedMessages s = [] →
  (∀ c, ¬ gate_open (config s) c) →
  ∃ r, refreshForCurrentChannel h true s = (r, s, []) ∧
       (r = Ret tt ∨ ∃ e, current_channel h = Throw e).
Proof.
  intros Hempty Hclosed. unfold refreshForCurrentChannel.
  rewrite run_bind. cbv [get_this]. rewrite andb_false_r.
  rewrite run_bind, getCurrentChannelId_run.
  destruct (current_channel h) as [[c|]|e] eqn:Hcur; simpl;
    [|by eauto|by eauto 6].
  destruct (is_empty c); simpl; [by eauto|].
  unfold detached.
  destruct (refreshChannel_nothing_to_do c s) as [r ->]; [| |done|by eauto].
  - rewrite Hempty. apply table_ok_nil.
  - by rewrite Hempty.
Qed.
End reset.

(** X5.  [resetConfigToDefaults] leaves the default configuration in place
    and, on a started plugin whose removal collaborator does not throw, an
    empty table: every tracked item is retracted and none is injected,
    since the defaults name no source identity.  It answers the defaults
    unless the selected-channel getter throws. *)
Theorem resetConfigToDefaults_leaves_nothing_active (h : host) (s : plugin) :
  retractions_return h (injectedMessages s) →
  match resetConfigToDefaults h s with
  | (r, s', t) =>
      config s' = getDefaultConfig ∧
      creations t = [] ∧
      (started s = true →
         injectedMessages s' = [] ∧ t = removal_calls h (injectedMessages s)) ∧
      (started s = false → injectedMessages s' = injectedMessages s ∧ t = []) ∧
      ((∀ e, current_channel h ≠ Throw e) → r = Ret getDefaultConfig)
  end.
Proof.
  intros Hret.
  set (s0 := set_persistTimer (Some (next_timer s))
               (set_timers
                  (timers (timer_cleared (set_config getDefaultConfig s))
                   ++ [(next_timer s, now s + PERSIST_DEBOUNCE_MS)])
                  (Pos.succ (next_timer s))
                  (timer_cleared (set_config getDefaultConfig s)))).
  assert (Hs0 : config s0 = getDefaultConfig ∧ started s0 = started s ∧
                injectedMessages s0 = injectedMessages s).
  { unfold s0. simpl. rewrite config_timer_cleared, injectedMessages_timer_cleared.
    split; [done|]. split; [|done]. unfold timer_cleared. simpl.
    by destruct (persistTimer s). }
  destruct Hs0 as (Hcfg0 & Hst0 & Htab0).
  assert (Hrun : resetConfigToDefaults h s =
                 match reapplyFakeMessages h s0 with
                 | (Ret _, s1, t1) => (Ret getDefaultConfig, s1, t1)
                 | (Throw e, s1, t1) => (Throw e, s1, t1)
                 end).
  { unfold resetConfigToDefaults, applyConfig. cbv zeta.
    rewrite run_bind, run_bind, run_get_this. cbv beta iota.
    rewrite run_bind, run_modify. cbv beta iota.
    change (coalesce (VObj getDefaultConfig) (VObj (config s)))
      with (VObj getDefaultConfig).
    rewrite mergeWithDefaults_defaults.
    change (negb (skipPersist no_options)) with true.
    change (negb (skipReload no_options)) with true. cbv beta iota.
    rewrite run_bind, enqueuePersist_run. cbv beta iota.
    change (set_persistTimer _ _) with s0. rewrite run_bind.
    destruct (reapplyFakeMessages h s0) as [[[[]|e] s1] t1]; [|done].
    rewrite run_bind, run_get_this. cbv beta iota.
    cbv [mret M_ret ret]. by rewrite !app_nil_r. }
  rewrite Hrun. clear Hrun.
  unfold reapplyFakeMessages. rewrite run_bind. cbv [get_this]. rewrite Hst0.
  destruct (started s) eqn:Hstarted; simpl.
  - rewrite run_bind, clearInjectedMessages_run by (by rewrite Htab0).
    destruct (refreshForCurrentChannel_closed h (set_injectedMessages [] s0) eq_refl)
      as (r & -> & Hr).
    { intros c. change (config (set_injectedMessages [] s0)) with (config s0).
      rewrite Hcfg0. apply gate_closed_on_defaults. }
    rewrite Htab0, app_nil_r.
    assert (Hcr : creations (removal_calls h (injectedMessages s)) = []).
    { apply creations_not_creation, removal_calls_not_creation. }
    destruct r as [[]|e]; simpl; repeat split; try done.
    intros Hno. destruct Hr as [?|[e' He']]; [done|]. by destruct (Hno e').
  - by repeat split.
Qed.

Lemma resetConfigToDefaults_leaves_nothing_active_witness :
  retractions_return quiet_host (injectedMessages one_active) ∧
  match resetConfigToDefaults quiet_host one_active with
  | (r, s', t) =>
      config s' = getDefaultConfig ∧
      creations t = [] ∧
      (started one_active = true →
         injectedMessages s' = [] ∧
         t = removal_calls quiet_host (injectedMessages one_active)) ∧
      (started one_active = false →
         injectedMessages s' = injectedMessages one_active ∧ t = []) ∧
      ((∀ e, current_channel quiet_host ≠ Throw e) → r = Ret getDefaultConfig)
  end.
Proof.
  assert (H : retractions_return quiet_host (injectedMessages one_active))
    by (intros c id _; reflexivity).
  split; [exact H|].
  exact (resetConfigToDefaults_leaves_nothing_active quiet_host one_active H).
Defined.

(** ** Teardown *)

Lemma undo_calls_app t1 t2 : undo_calls (t1 ++ t2) = (undo_calls t1 + undo_calls t2)%nat.
Proof. unfold undo_calls. by rewrite omap_app, length_app. Qed.

Lemma unpatch_loop_calls ps s :
  ∃ t, unpatch_loop ps s =
         (Ret tt, match ps with [] => s | _ => set_patches [] s end, t) ∧
       undo_calls t = length ps.
Proof.
  revert s. induction ps as [|undo rest IH]; intros s; [by eexists|].
  cbn [unpatch_loop]. rewrite run_bind, run_modify. cbv beta iota.
  rewrite run_bind, run_try_catch, run_bind. cbv [emit lift].
  destruct (IH (set_patches rest s)) as (t & Hrun & Ht).
  assert (Hst : match rest with
                | [] => set_patches rest s
                | _ => set_patches [] (set_patches rest s)
                end = set_patches [] s) by (by destruct rest).
  rewrite Hst in Hrun.
  destruct undo as [[]|e]; cbv beta iota; cbv [warn emit mbind M_bind bind mret M_ret ret];
    rewrite Hrun; eexists; (split; [reflexivity|]);
    rewrite ?undo_calls_app; simpl; rewrite ?undo_calls_app, Ht; simpl; lia.
Qed.

(** X8.  The two guarded steps of the teardown never throw, whatever the
    host does.  [unsubscribeFromChannelChanges] calls the stored
    unsubscriber once if there is one and leaves none stored;
    [unpatchAll] runs the undo of every queued patch once, empties the
    queue and clears the badge flag, going on after an undo that throws. *)
Theorem teardown_steps_swallow_exceptions (h : host) (s : plugin) :
  (∃ t, unsubscribeFromChannelChanges h s =
          (Ret tt, set_channelSelectUnsub false s, t) ∧
        unsubscribe_calls t = (if channelSelectUnsub s then 1 else 0)%nat) ∧
  (∃ t, unpatchAll s =
          (Ret tt, set_timestampBadgePatched false (set_patches [] s), t) ∧
        undo_calls t = length (patches s)).
Proof.
  split.
  - unfold unsubscribeFromChannelChanges. mrun.
    destruct (channelSelectUnsub s); [|by eexists].
    destruct (dispatcher_unsubscribe h); by eexists.
  - unfold unpatchAll. rewrite run_bind, run_get_this. cbv beta iota.
    rewrite run_bind.
    destruct (unpatch_loop_calls (patches s) s) as (t & -> & Ht).
    rewrite run_modify. exists t. rewrite !app_nil_r. split; [|done].
    destruct s as [? ? ? ? ? ? ? ps]. simpl. by destruct ps.
Qed.

Lemma advance_idle h dt s :
  timers s = [] → advance h dt s = (Ret tt, set_timers [] (next_timer s) (set_now (now s + dt) s), []).
Proof. intros Ht. unfold advance. mrun. simpl. by rewrite Ht. Qed.

(** X6.  After [stop], when the removal collaborator did not throw, no
    persistence write is left to fire: the pending timer is gone from the
    host's queue, and however long the host waits, it writes nothing. *)
Theorem stop_cancels_pending_write (h : host) (s : plugin) (wait : Z) :
  timers_ok s →
  retractions_return h (injectedMessages s) →
  match stop h s with
  | (r, s1, _) =>
      r = Ret tt ∧ timers s1 = [] ∧ persistTimer s1 = None ∧
      match advance h wait s1 with
      | (r2, _, t2) => r2 = Ret tt ∧ t2 = []
      end
  end.
Proof.
  intros Hok Hret. destruct (stop_run h s) as (t & _ & Hstop).
  rewrite clearInjectedMessages_run in Hstop by done. rewrite Hstop.
  set (s1 := set_injectedMessages [] (unwired s)).
  assert (Hok1 : timers_ok s1) by exact Hok.
  pose proof (timer_cleared_timers s1 Hok1) as Ht.
  split; [done|]. split; [done|]. split.
  - unfold timer_cleared. by destruct (persistTimer s1) eqn:Hp1.
  - by rewrite (advance_idle h wait _ Ht).
Qed.

Lemma stop_cancels_pending_write_witness :
  timers_ok one_active_armed ∧
  retractions_return quiet_host (injectedMessages one_active_armed) ∧
  match stop quiet_host one_active_armed with
  | (r, s1, _) =>
      r = Ret tt ∧ timers s1 = [] ∧ persistTimer s1 = None ∧
      match advance quiet_host 1000 s1 with
      | (r2, _, t2) => r2 = Ret tt ∧ t2 = []
      end
  end.
Proof.
  assert (H1 : timers_ok one_active_armed) by reflexivity.
  assert (H2 : retractions_return quiet_host (injectedMessages one_active_armed))
    by (intros c id _; reflexivity).
  split; [exact H1|]. split; [exact H2|].
  exact (stop_cancels_pending_write quiet_host one_active_armed 1000 H1 H2).
Defined.

(** X7.  When the removal collaborator returns for every tracked item,
    [stop] returns: the table is empty, the tracked items were retracted
    once each, in the order of the table, the plugin is no longer started,
    subscribed or patched, and the persistence timer is cancelled.  A second
    [stop] returns too and retracts nothing. *)
Theorem stop_retracts_every_item_once (h : host) (s : plugin) :
  retractions_return h (injectedMessages s) →
  ∃ s1 t1 s2 t2,
    stop h s = (Ret tt, s1, t1) ∧
    injectedMessages s1 = [] ∧
    (has_removal_collaborator h → removals t1 = injectedMessages s) ∧
    persistTimer s1 = None ∧
    started s1 = false ∧ channelSelectUnsub s1 = false ∧ patches s1 = [] ∧
    stop h s1 = (Ret tt, s2, t2) ∧ removals t2 = [] ∧ injectedMessages s2 = [].
Proof.
  intros Hret.
  destruct (stop_drains h s Hret) as (s1 & t1 & Hs1 & Htab & Hrem & Hpt & _ & Hst & Hun & Hpa).
  destruct (stop_twice h s Hret) as (s1' & t1' & s2 & t2 & Hs1' & Hs2 & Hr2 & Htab2 & _).
  rewrite Hs1 in Hs1'. simplify_eq.
  by exists s1', t1', s2, t2.
Qed.

Lemma stop_retracts_every_item_once_witness :
  retractions_return quiet_host (injectedMessages one_active_armed) ∧
  ∃ s1 t1 s2 t2,
    stop quiet_host one_active_armed = (Ret tt, s1, t1) ∧
    injectedMessages s1 = [] ∧
    (has_removal_collaborator quiet_host →
       removals t1 = injectedMessages one_active_armed) ∧
    persistTimer s1 = None ∧
    started s1 = false ∧ channelSelectUnsub s1 = false ∧ patches s1 = [] ∧
    stop quiet_host s1 = (Ret tt, s2, t2) ∧ removals t2 = [] ∧
    injectedMessages s2 = [].
Proof.
  assert (H : retractions_return quiet_host (injectedMessages one_active_armed))
    by (intros c id _; reflexivity).
  split; [exact H|].
  exact (stop_retracts_every_item_once quiet_host one_active_armed H).
Defined.

(** ** The reconciliation engine *)

Lemma engine_event_no_bookkeeping t :
  Forall engine_event t →
  storage_writes t = [] ∧ undo_calls t = 0%nat ∧ unsubscribe_calls t = 0%nat.
Proof.
  unfold undo_calls, unsubscribe_calls, storage_writes.
  induction 1 as [|e t He _ (IH1 & IH2 & IH3)]; [done|].
  destruct e; try done; simpl; by rewrite ?IH1.
Qed.

(** X9.  A refresh of channel [c], however it ends, changes nothing of the
    plugin but the identity cache and the table entry of [c]: the
    configuration, the persistence timer, the timer queue, the lifecycle
    flags and the patches are as before, the entries of the other channels
    are as before, and no call writes to the storage, unsubscribes or
    undoes a patch. *)
Theorem refreshChannel_touches_only_its_channel (h : host) (c : string) (s : plugin) :
  match refreshChannel h c s with
  | (_, s', t) =>
      config s' = config s ∧ persistTimer s' = persistTimer s ∧
      timers s' = timers s ∧ next_timer s' = next_timer s ∧
      started s' = started s ∧
      channelSelectUnsub s' = channelSelectUnsub s ∧ patches s' = patches s ∧
      timestampBadgePatched s' = timestampBadgePatched s ∧
      (∀ c', c' ≠ c →
         JsMap.get c' (injectedMessages s') = JsMap.get c' (injectedMessages s)) ∧
      storage_writes t = [] ∧ undo_calls t = 0%nat ∧ unsubscribe_calls t = 0%nat
  end.
Proof.
  pose proof (refreshChannel_frame h c s) as Hfr.
  destruct (refreshChannel h c s) as [[r s'] t].
  destruct Hfr as [(Hf & _ & Hk) Hev]. unfold engine_frame in Hf.
  destruct (engine_event_no_bookkeeping t Hev) as (Hw & Hu & Hn).
  rewrite Hf. simpl. repeat split; done.
Qed.

Lemma JsMap_delete_absent {V} k (m : list (string * V)) :
  JsMap.get k m = None → JsMap.delete k m = m.
Proof.
  induction m as [|[k' v'] m IH]; [done|]. simpl.
  destruct (decide (k' = k)); [done|]. intros Hg. by rewrite IH.
Qed.

Lemma JsMap_delete_set_absent {V} k (v : V) m :
  JsMap.get k m = None → JsMap.delete k (JsMap.set k v m) = m.
Proof.
  induction m as [|[k' v'] m IH]; simpl.
  - intros _. by rewrite decide_True.
  - destruct (decide (k' = k)) as [|Hne]; [done|]. intros Hg. simpl.
    rewrite decide_False by done. by rewrite IH.
Qed.

Lemma removals_identity t : Forall identity_event t → removals t = [].
Proof.
  unfold removals. induction 1 as [|e t He _ IH]; [done|].
  destruct e; try done; simpl; by rewrite IH.
Qed.

Lemma removals_injection_call h m : removals (injection_call h m) = [].
Proof.
  unfold injection_call.
  destruct (messageActions_receiveMessage h); [done|].
  by destruct (dispatcher_dispatch h).
Qed.

Lemma removals_removal_call h c id :
  has_removal_collaborator h → removals (removal_call h c id) = [(c, id)].
Proof.
  unfold removal_call. intros [[f Hf]|[d Hd]].
  - by rewrite Hf.
  - rewrite Hd. by destruct (messageActions_deleteMessage h).
Qed.

Lemma creations_identity t : Forall identity_event t → creations t = [].
Proof.
  unfold creations. induction 1 as [|e t He _ IH]; [done|].
  destruct e; try done; simpl; by rewrite IH.
Qed.

Lemma creations_removal_call h c id : creations (removal_call h c id) = [].
Proof.
  unfold removal_call.
  destruct (messageActions_deleteMessage h); [done|].
  by destruct (dispatcher_dispatch h).
Qed.

Lemma length_creations_injection_call h m m' :
  length (creations (injection_call h m)) = length (creations (injection_call h m')).
Proof.
  unfold injection_call.
  destruct (messageActions_receiveMessage h); [done|].
  by destruct (dispatcher_dispatch h).
Qed.

Section refresh_twice.
Variable h : host.

(** The run of a refresh that creates the item. *)
Lemma refreshChannel_creates_run c s :
table_ok (injectedMessages s) → c ≠ "" →
gate_open (config s) c → embeds_buildable (config s) →
sync_lookup_returns h → channel_lookup_returns h → injection_returns h →
retraction_returns h c s →
∃ m s' t1,
  refreshChannel h c s =
    (Ret tt, s',
     match JsMap.get c (injectedMessages s) with
     | Some id => removal_call h c id
     | None => []
     end ++ t1 ++ injection_call h m) ∧
  injectedMessages s' =
    JsMap.set c (MESSAGE_ID_PREFIX +:+ ":" +:+ c) (JsMap.delete c (injectedMessages s)) ∧
  Forall identity_event t1.
Proof.
intros Htab Hc Hgate Hemb Hsync Hchan Hinj Hret.
destruct (refreshChannel_try_block h c s Htab Hc Hgate Hret) as (t0 & Hrm & Hmatch).
assert (Hval : otherwise_valid (config (after_retraction c s))).
{ rewrite after_retraction_config. destruct Hgate as (? & ? & ? & _). by repeat split. }
assert (Hemb' : embeds_buildable (config (after_retraction c s)))
  by (by rewrite after_retraction_config).
destruct (build_and_inject_success h c (after_retraction c s) Hval Hemb' Hsync Hchan Hinj)
  as (m & s1 & t1 & Hbi & _ & Hid & _).
rewrite Hbi in Hmatch.
rewrite (removeFakeMessage_run h c s Htab) in Hrm.
exists m, (set_injectedMessages
             (JsMap.set c (MESSAGE_ID_PREFIX +:+ ":" +:+ c)
                (injectedMessages (after_retraction c s))) s1), t1.
unfold after_retraction in *.
destruct (JsMap.get c (injectedMessages s)) as [id|] eqn:Hg.
- rewrite (Hret id Hg) in Hrm.
  assert (Ht0 : t0 = removal_call h c id) by congruence. subst t0.
  split; [exact Hmatch|]. by split.
- assert (Ht0 : t0 = []) by congruence. subst t0.
  split; [exact Hmatch|]. split; [|done].
  simpl. by rewrite JsMap_delete_absent.
Qed.
End refresh_twice.

(** X10.  Refreshing a channel twice is the same, for the table, as
    refreshing it once.  With the gate open and collaborators that do not
    throw, the first refresh leaves the item of [c] as the last entry of the
    table; the second one retracts that very item and creates it again, and
    the table is then what it was after the first. *)
Theorem refreshChannel_twice (h : host) (c : string) (s : plugin) :
  table_ok (injectedMessages s) → c ≠ "" →
  gate_open (config s) c → embeds_buildable (config s) →
  sync_lookup_returns h → channel_lookup_returns h → injection_returns h →
  removal_returns h →
  ∃ s1 t1 s2 t2,
    refreshChannel h c s = (Ret tt, s1, t1) ∧
    refreshChannel h c s1 = (Ret tt, s2, t2) ∧
    injectedMessages s1 =
      JsMap.set c (MESSAGE_ID_PREFIX +:+ ":" +:+ c) (JsMap.delete c (injectedMessages s)) ∧
    injectedMessages s2 = injectedMessages s1 ∧
    (has_removal_collaborator h →
       removals t2 = [(c, MESSAGE_ID_PREFIX +:+ ":" +:+ c)]) ∧
    length (creations t2) = length (creations t1).
Proof.
  intros Htab Hc Hgate Hemb Hsync Hchan Hinj Hrem.
  assert (Hret : ∀ s0, retraction_returns h c s0) by (intros s0 id _; apply Hrem).
  destruct (refreshChannel_creates_run h c s Htab Hc Hgate Hemb Hsync Hchan Hinj (Hret s))
    as (m1 & s1 & u1 & Hrun1 & Htab1 & Hid1).
  pose proof (refreshChannel_frame h c s) as Hfr. rewrite Hrun1 in Hfr.
  destruct Hfr as [(Hf & Hok & _) _].
  assert (Hcfg : config s1 = config s) by (unfold engine_frame in Hf; by rewrite Hf).
  specialize (Hok Htab).
  assert (Hgate1 : gate_open (config s1) c) by (by rewrite Hcfg).
  assert (Hemb1 : embeds_buildable (config s1)) by (by rewrite Hcfg).
  destruct (refreshChannel_creates_run h c s1 Hok Hc Hgate1 Hemb1 Hsync Hchan Hinj (Hret s1))
    as (m2 & s2 & u2 & Hrun2 & Htab2 & Hid2).
  eexists _, _, _, _. split; [exact Hrun1|]. split; [exact Hrun2|].
  split; [exact Htab1|].
  assert (Hget : JsMap.get c (injectedMessages s1) = Some (MESSAGE_ID_PREFIX +:+ ":" +:+ c))
    by (rewrite Htab1; apply JsMapFacts.get_set_eq).
  split; [|split].
  - rewrite Htab2, Htab1.
    by rewrite JsMap_delete_set_absent by apply JsMapFacts.get_delete_eq.
  - intros Hcol. rewrite Hget, !removals_app, removals_removal_call by done.
    by rewrite removals_identity, removals_injection_call.
  - rewrite !creations_app, (creations_identity u1), (creations_identity u2) by done.
    rewrite Hget. destruct (JsMap.get c (injectedMessages s));
      rewrite ?creations_removal_call; simpl; apply length_creations_injection_call.
Qed.

Lemma refreshChannel_twice_witness :
  ∃ s1 t1 s2 t2,
    refreshChannel quiet_host "11111" one_active = (Ret tt, s1, t1) ∧
    refreshChannel quiet_host "11111" s1 = (Ret tt, s2, t2) ∧
    injectedMessages s1 =
      JsMap.set "11111" (MESSAGE_ID_PREFIX +:+ ":" +:+ "11111")
        (JsMap.delete "11111" (injectedMessages one_active)) ∧
    injectedMessages s2 = injectedMessages s1 ∧
    (has_removal_collaborator quiet_host →
       removals t2 = [("11111", MESSAGE_ID_PREFIX +:+ ":" +:+ "11111")]) ∧
    length (creations t2) = length (creations t1).
Proof.
  apply (refreshChannel_twice quiet_host "11111" one_active).
  - apply table_okb_ok. reflexivity.
  - discriminate.
  - apply gate_open_check. vm_compute. reflexivity.
  - eexists. vm_compute. reflexivity.
  - intros f id Hf. injection Hf as <-. by eexists.
  - intros f c Hf. injection Hf as <-. by eexists.
  - intros m. reflexivity.
  - intros c id. reflexivity.
Defined.

(** ** Identifiers and white space *)

Lemma trimEnd_idem s : trimEnd (trimEnd s) = trimEnd s.
Proof.
  induction s as [|a s IH]; [done|]. simpl.
  destruct (is_ws a && is_empty (trimEnd s)) eqn:Hc; [done|].
  simpl. by rewrite IH, Hc.
Qed.

Lemma trimStart_head s :
  trimStart s = "" ∨ ∃ a r, trimStart s = String a r ∧ is_ws a = false.
Proof.
  induction s as [|a s IH]; [by left|]. simpl.
  destruct (is_ws a) eqn:Ha; [done|]. right. by exists a, s.
Qed.

Lemma trim_idem s : trim (trim s) = trim s.
Proof.
  unfold trim. destruct (trimStart_head s) as [->|(a & r & -> & Ha)]; [done|].
  simpl. rewrite Ha. simpl. rewrite Ha. simpl.
  by rewrite trimEnd_idem, Ha.
Qed.

(** X11.  Trimming is idempotent, so the identifier check and the identity
    cache do not tell an identifier from its trimmed form: [isSnowflake]
    answers the same for both, and [fetchUser] runs the same for both, from
    any state.  [buildFakeMessage] relies on it when it hands the trimmed
    source identity to [fetchUser], which trims again. *)
Theorem trimmed_id_is_equivalent (h : host) (rawId : string) (s : plugin) :
  trim (trim rawId) = trim rawId ∧
  isSnowflake (VStr (trim rawId)) = isSnowflake (VStr rawId) ∧
  fetchUser h (VStr (trim rawId)) s = fetchUser h (VStr rawId) s.
Proof.
  split; [apply trim_idem|]. split.
  - unfold isSnowflake. by rewrite trim_idem.
  - unfold fetchUser, coalesce, nullish. by rewrite trim_idem.
Qed.

(** ** The built item *)

Lemma coalesce_not_nullish a b : nullish b = false → nullish (coalesce a b) = false.
Proof. unfold coalesce. by destruct (nullish a) eqn:Ha. Qed.

Lemma coalesce_null_defined a : coalesce a VNull ≠ VUndefined.
Proof. unfold coalesce. by destruct a. Qed.

Lemma coalesce_defined a b : b ≠ VUndefined → coalesce a b ≠ VUndefined.
Proof. unfold coalesce. by destruct a. Qed.



(** X13.  [buildAuthor] always builds an object with the seven author
    fields, whatever it is given as user.  The id is the id it was called
    with, not the user's; username, discriminator, bot and public_flags are
    never null or undefined, and avatar and global_name are never
    undefined.  For the placeholder identity, and for [null], the name is
    "Unknown User (id)" and the other fields are the fallbacks. *)
Theorem buildAuthor_fields (user : value) (userId : string) :
  (∃ a, buildAuthor user userId = VObj a ∧
        dom a = {[ "id"; "username"; "discriminator"; "avatar"; "bot";
                   "public_flags"; "global_name" ]} ∧
        a !! "id" = Some (VStr userId) ∧
        nullish (field a "username") = false ∧
        nullish (field a "discriminator") = false ∧
        nullish (field a "bot") = false ∧
        nullish (field a "public_flags") = false ∧
        field a "avatar" ≠ VUndefined ∧
        field a "global_name" ≠ VUndefined) ∧
  buildAuthor (placeholder userId) userId =
    VObj (<["id" := VStr userId]>
         (<["username" := VStr ("Unknown User (" +:+ userId +:+ ")")]>
         (<["discriminator" := VStr "0000"]>
         (<["avatar" := VNull]>
         (<["bot" := VBool false]>
         (<["public_flags" := VNum 0]>
         (<["global_name" := VNull]> ∅))))))) ∧
  buildAuthor VNull userId = buildAuthor (placeholder userId) userId.
Proof.
  split; [|split].
  - eexists. split; [reflexivity|]. split; [|split].
    + rewrite !dom_insert_L, dom_empty_L. set_solver.
    + done.
    + unfold field. repeat split.
      * apply coalesce_not_nullish, coalesce_not_nullish, coalesce_not_nullish. done.
      * by apply coalesce_not_nullish.
      * by apply coalesce_not_nullish.
      * by apply coalesce_not_nullish.
      * apply coalesce_null_defined.
      * apply coalesce_defined, coalesce_null_defined.
  - done.
  - done.
Qed.

(** ** Persistence and the current channel *)

Lemma applyConfig_quietly h next s :
  applyConfig h next (Options true true) s =
    (Ret (mergeWithDefaults (coalesce next (VObj (config s)))),
     set_config (mergeWithDefaults (coalesce next (VObj (config s)))) s, []).
Proof. reflexivity. Qed.

(** X14.  The write of a pending persistence timer stores the
    configuration of the time it fires, not of the time it was set: a
    configuration applied with [skipPersist] (and [skipReload]) while a
    timer is pending leaves the timer as it is, makes no call, and is the
    configuration that the timer writes when it fires. *)
Theorem pending_write_stores_latest_config
    (h : host) (f : gmap string value → outcome unit) (s : plugin)
    (next : value) (wait : Z) :
  storage_set h = Some f → armed s → PERSIST_DEBOUNCE_MS ≤ wait →
  match applyConfig h next (Options true true) s with
  | (r, s1, t1) =>
      r = Ret (config s1) ∧ t1 = [] ∧
      timers s1 = timers s ∧ persistTimer s1 = persistTimer s ∧
      match advance h wait s1 with
      | (r2, s2, t2) =>
          r2 = Ret tt ∧ timers s2 = [] ∧
          storage_writes t2 = [mergeWithDefaults (coalesce next (VObj (config s)))]
      end
  end.
Proof.
  intros Hset (id & Htim & Hpt) Hwait. rewrite applyConfig_quietly.
  repeat (split; [done|]).
  set (s1 := set_config _ s).
  destruct (advance_fires h f wait s1 id (now s + PERSIST_DEBOUNCE_MS) Hset Htim)
    as (s2 & t2 & -> & Hw & Ht & _); [simpl; lia|].
  done.
Qed.

Lemma pending_write_stores_latest_config_witness :
  armed one_active_armed ∧
  match applyConfig quiet_host (VObj disabled_config) (Options true true) one_active_armed with
  | (r, s1, t1) =>
      r = Ret (config s1) ∧ t1 = [] ∧
      timers s1 = timers one_active_armed ∧
      persistTimer s1 = persistTimer one_active_armed ∧
      match advance quiet_host 250 s1 with
      | (r2, s2, t2) =>
          r2 = Ret tt ∧ timers s2 = [] ∧
          storage_writes t2 =
            [mergeWithDefaults
               (coalesce (VObj disabled_config) (VObj (config one_active_armed)))]
      end
  end.
Proof.
  assert (Ha : armed one_active_armed) by (by exists 1%positive).
  split; [exact Ha|].
  apply (pending_write_stores_latest_config quiet_host (λ _, Ret tt) one_active_armed
           (VObj disabled_config) 250); [reflexivity | exact Ha | done].
Defined.

(** X15.  [refreshForCurrentChannel] throws only what a getter of the
    selected-channel store throws, and then before it changed anything: the
    refresh itself is not awaited, so nothing it throws comes back.  On a
    plugin that is not started it does nothing unless forced, and consults
    no getter; with no current channel it does nothing; otherwise its effect
    is that of [refreshChannel] on the current channel. *)
Theorem refreshForCurrentChannel_throws_only_from_getters
    (h : host) (force : bool) (s : plugin) :
  match refreshForCurrentChannel h force s with
  | (r, s', t) =>
      (r = Ret tt ∨ ∃ e, r = Throw e ∧ current_channel h = Throw e ∧ s' = s ∧ t = []) ∧
      (started s = false → force = false → r = Ret tt ∧ s' = s ∧ t = []) ∧
      (∀ c, started s = true ∨ force = true →
            current_channel h = Ret (Some c) → c ≠ "" →
            r = Ret tt ∧ ∃ r0, refreshChannel h c s = (r0, s', t)) ∧
      (started s = true ∨ force = true →
       current_channel h = Ret None ∨ current_channel h = Ret (Some "") →
       r = Ret tt ∧ s' = s ∧ t = [])
  end.
Proof.
  unfold refreshForCurrentChannel. rewrite run_bind, run_get_this. cbv beta iota.
  destruct (negb (started s) && negb force) eqn:Hgo.
  - apply andb_true_iff in Hgo as [Hs Hf].
    apply negb_true_iff in Hs. apply negb_true_iff in Hf.
    cbv [mret M_ret ret]. simpl.
    split; [by left|]. split; [done|]. split.
    + intros c [Hc|Hc]; congruence.
    + intros [Hc|Hc]; congruence.
  - assert (Hny : ¬ (started s = false ∧ force = false)).
    { intros [Hs Hf]. by rewrite Hs, Hf in Hgo. }
    rewrite run_bind, getCurrentChannelId_run.
    destruct (current_channel h) as [[c0|]|e] eqn:Hcur.
    + destruct (is_empty c0) eqn:Hemp.
      * apply is_empty_true in Hemp. subst c0. cbv [mret M_ret ret]. simpl.
        split; [by left|]. split; [done|]. split; [|done].
        intros c _ Hc Hne. congruence.
      * apply is_empty_false in Hemp. unfold detached.
        destruct (refreshChannel h c0 s) as [[r0 s'] t] eqn:Hrun. simpl.
        split; [by left|]. split; [intros; tauto|]. split.
        -- intros c _ Hc _. assert (c = c0) by congruence. subst c.
           split; [done|]. by exists r0.
        -- intros _ [Hc|Hc]; congruence.
    + cbv [mret M_ret ret]. simpl.
      split; [by left|]. split; [done|]. split; [|done].
      intros c _ Hc. congruence.
    + simpl. split; [right; by exists e|]. split; [intros; tauto|]. split.
      * intros c _ Hc. congruence.
      * intros _ [Hc|Hc]; congruence.
Qed.

(** X16.  [getCurrentChannelId] changes nothing and asks the getters of
    the selected-channel store in order, up to the first that answers a
    channel: once a getter has answered, the later ones are not asked, so
    that what they would throw does not matter; a getter that is missing
    counts as one that answers nothing. *)
Theorem getCurrentChannelId_first_answer (h : host) (s : plugin) :
  (∃ r, getCurrentChannelId h s = (r, s, [])) ∧
  (∀ c, getCurrentlySelectedChannelId h = Some (Ret (Some c)) →
        getCurrentChannelId h s = (Ret (Some c), s, [])) ∧
  (∀ c, getCurrentlySelectedChannelId h = None ∨
        getCurrentlySelectedChannelId h = Some (Ret None) →
        getChannelId h = Some (Ret (Some c)) →
        getCurrentChannelId h s = (Ret (Some c), s, [])) ∧
  (getCurrentlySelectedChannelId h = None → getChannelId h = None →
   getMostRecentSelectedTextChannelId h = None →
   getCurrentChannelId h s = (Ret None, s, [])).
Proof.
  rewrite getCurrentChannelId_run. unfold current_channel.
  split; [by eexists|]. split; [|split].
  - intros c ->. done.
  - intros c [->| ->] ->; done.
  - intros -> -> ->. done.
Qed.

(** ** The handler of channel changes *)

Lemma refreshChannel_of_string h c : refreshChannel_of h (VStr c) = refreshChannel h c.
Proof. unfold refreshChannel_of, refreshChannel. simpl. by destruct (is_empty c). Qed.

(** X17.  The handler of CHANNEL_SELECT never throws, whatever the payload
    and whatever the refresh does.  It reads the channel from the payload's
    [channelId], else from [channel.id], else from [id], else takes a string
    payload as the channel itself; the first of them that is neither null
    nor undefined decides, so that an empty [channelId] hides the others.
    When the channel it read is a non-empty string the handler does what
    [refreshChannel] does for it; when it is falsy the handler does
    nothing. *)
Theorem on_channel_select_refreshes (h : host) (payload : value) (s : plugin) :
  (∃ s' t, on_channel_select h payload s = (Ret tt, s', t)) ∧
  (∀ c, c ≠ "" → payload_channel payload = VStr c →
        ∃ r s' t, refreshChannel h c s = (r, s', t) ∧
                  on_channel_select h payload s = (Ret tt, s', t)) ∧
  (truthy (payload_channel payload) = false →
   on_channel_select h payload s = (Ret tt, s, [])) ∧
  (∀ c, payload_channel (VStr c) = VStr c) ∧
  (∀ m v, m !! "channelId" = Some v → nullish v = false →
          payload_channel (VObj m) = v) ∧
  (∀ m v, nullish (opt_prop (VObj m) "channelId") = true →
          opt_prop (opt_prop (VObj m) "channel") "id" = v → nullish v = false →
          payload_channel (VObj m) = v) ∧
  (∀ m v, nullish (opt_prop (VObj m) "channelId") = true →
          nullish (opt_prop (opt_prop (VObj m) "channel") "id") = true →
          opt_prop (VObj m) "id" = v → nullish v = false →
          payload_channel (VObj m) = v) ∧
  payload_channel VUndefined = VNull ∧ payload_channel VNull = VNull ∧
  payload_channel (VObj ∅) = VNull.
Proof.
  split; [|split; [|split; [|split; [|split; [|split; [|split]]]]]].
  - unfold on_channel_select. destruct (truthy (payload_channel payload)).
    + unfold detached. destruct (refreshChannel_of h _ s) as [[r s'] t]. by eexists _, _.
    + by eexists _, _.
  - intros c Hc Hp. unfold on_channel_select. rewrite Hp.
    assert (Ht : truthy (VStr c) = true)
      by (apply is_empty_false in Hc; simpl; by rewrite Hc).
    rewrite Ht, refreshChannel_of_string. unfold detached.
    destruct (refreshChannel h c s) as [[r s'] t]. by eexists _, _, _.
  - intros Hp. unfold on_channel_select. by rewrite Hp.
  - done.
  - intros m v Hm Hv. unfold payload_channel, opt_prop at 1. rewrite Hm. simpl.
    unfold coalesce at 1. by rewrite Hv.
  - intros m v H1 H2 Hv. unfold payload_channel, coalesce at 1. rewrite H1.
    unfold coalesce at 1. by rewrite H2, Hv.
  - intros m v H1 H2 H3 Hv. unfold payload_channel, coalesce at 1. rewrite H1.
    unfold coalesce at 1. rewrite H2. unfold coalesce at 1. by rewrite H3, Hv.
  - done.
Qed.

(** ** Module lookups *)

Lemma waitForModule_from_spec fuel registry_at lag m timeout n elapsed :
  (∀ k, WAIT_STEP_MS ≤ lag k) →
  timeout ≤ elapsed + WAIT_STEP_MS * Z.of_nat fuel →
  ∃ r n',
    waitForModule_from fuel registry_at lag m timeout n elapsed = Some (r, n') ∧
    (n ≤ n')%nat ∧
    (n' = n ∨ elapsed + WAIT_STEP_MS * (Z.of_nat (n' - n) - 1) < timeout) ∧
    match r with
    | Ret v =>
        ∃ k, n' = S k ∧ lookup_module (registry_at k) m = Ret v ∧ truthy v = true ∧
             ∀ j, (n ≤ j < k)%nat → found (lookup_module (registry_at j) m) = false
    | Throw e =>
        e = not_found_error m ∧
        ∀ j, (n ≤ j < n')%nat → found (lookup_module (registry_at j) m) = false
    end.
Proof.
  unfold WAIT_STEP_MS. intros Hlag.
  revert n elapsed. induction fuel as [|fuel IH]; intros n elapsed Hfuel.
  - simpl. destruct (elapsed <? timeout) eqn:Hlt; [apply Z.ltb_lt in Hlt; lia|].
    eexists _, _. split; [reflexivity|]. split; [lia|]. split; [by left|].
    split; [done|]. intros j Hj. lia.
  - simpl. destruct (elapsed <? timeout) eqn:Hlt.
    + apply Z.ltb_lt in Hlt.
      assert (Hnext :
        found (lookup_module (registry_at n) m) = false →
        ∃ r n',
          waitForModule_from fuel registry_at lag m timeout (S n) (elapsed + lag n)
            = Some (r, n') ∧
          (n ≤ n')%nat ∧
          (n' = n ∨ elapsed + 100 * (Z.of_nat (n' - n) - 1) < timeout) ∧
          match r with
          | Ret v =>
              ∃ k, n' = S k ∧ lookup_module (registry_at k) m = Ret v ∧
                   truthy v = true ∧
                   ∀ j, (n ≤ j < k)%nat →
                        found (lookup_module (registry_at j) m) = false
          | Throw e =>
              e = not_found_error m ∧
              ∀ j, (n ≤ j < n')%nat →
                   found (lookup_module (registry_at j) m) = false
          end).
      { intros Hmiss. pose proof (Hlag n) as Hn.
        destruct (IH (S n) (elapsed + lag n)) as (r & n' & Hrun & Hle & Hb & Hr); [lia|].
        exists r, n'. split; [exact Hrun|]. split; [lia|]. split.
        - right. destruct Hb as [->|Hb].
          + replace (S n - n)%nat with 1%nat by lia. lia.
          + replace (Z.of_nat (n' - n)) with (Z.of_nat (n' - S n) + 1) by lia. lia.
        - destruct r as [v|e].
          + destruct Hr as (k & -> & Hk & Hv & Hbefore).
            exists k. repeat split; try done.
            intros j Hj. destruct (decide (j = n)) as [->|Hne]; [done|].
            apply Hbefore. lia.
          + destruct Hr as [-> Hbefore]. split; [done|].
            intros j Hj. destruct (decide (j = n)) as [->|Hne]; [done|].
            apply Hbefore. lia. }
      destruct (lookup_module (registry_at n) m) as [v|e] eqn:Hlook.
      * destruct (truthy v) eqn:Hv; [|by apply Hnext].
        eexists _, _. split; [reflexivity|]. split; [lia|]. split.
        -- right. replace (S n - n)%nat with 1%nat by lia. lia.
        -- exists n. repeat split; try done. intros j Hj. lia.
      * by apply Hnext.
    + apply Z.ltb_ge in Hlt.
      eexists _, _. split; [reflexivity|]. split; [lia|]. split; [by left|].
      split; [done|]. intros j Hj. lia.
Qed.

(** X18.  [waitForModule] polls a bounded number of times and then ends.
    On a clock on which every [delay(100)] takes at least its 100 ms, it
    returns or throws after at most one attempt per started 100 ms of the
    timeout (none at all when the timeout is not positive).  It returns the
    module of the first attempt whose lookup returned a truthy value, the
    lookups before it having found nothing or thrown; and when no attempt
    within the timeout finds the module, it throws the "not found within
    timeout" error. *)
Theorem waitForModule_polls_until_timeout
    (fuel : nat) (registry_at : nat → registry) (lag : nat → Z)
    (m : matcher) (timeout : Z) :
  (∀ k, WAIT_STEP_MS ≤ lag k) →
  timeout ≤ WAIT_STEP_MS * Z.of_nat fuel →
  ∃ r n,
    waitForModule fuel registry_at lag m timeout = Some (r, n) ∧
    (n = 0%nat ∨ WAIT_STEP_MS * (Z.of_nat n - 1) < timeout) ∧
    match r with
    | Ret v =>
        ∃ k, n = S k ∧ lookup_module (registry_at k) m = Ret v ∧ truthy v = true ∧
             ∀ j, (j < k)%nat → found (lookup_module (registry_at j) m) = false
    | Throw e =>
        e = not_found_error m ∧
        ∀ j, (j < n)%nat → found (lookup_module (registry_at j) m) = false
    end.
Proof.
  intros Hlag Hfuel.
  destruct (waitForModule_from_spec fuel registry_at lag m timeout 0 0 Hlag)
    as (r & n & Hrun & _ & Hb & Hr); [lia|].
  exists r, n. split; [exact Hrun|]. split.
  - destruct Hb as [->|Hb]; [by left|right].
    by rewrite Nat.sub_0_r, Z.add_0_l in Hb.
  - destruct r as [v|e].
    + destruct Hr as (k & -> & Hk & Hv & Hbefore). exists k.
      repeat split; try done. intros j Hj. apply Hbefore. lia.
    + destruct Hr as [-> Hbefore]. split; [done|].
      intros j Hj. apply Hbefore. lia.
Qed.

Lemma waitForModule_polls_until_timeout_witness :
  ∃ r n,
    waitForModule 150 late_registry (λ _, 100) (ByProps ["dispatch"; "subscribe"])
      WAIT_TIMEOUT_MS = Some (r, n) ∧
    (n = 0%nat ∨ WAIT_STEP_MS * (Z.of_nat n - 1) < WAIT_TIMEOUT_MS) ∧
    match r with
    | Ret v =>
        ∃ k, n = S k ∧
             lookup_module (late_registry k) (ByProps ["dispatch"; "subscribe"]) = Ret v ∧
             truthy v = true ∧
             ∀ j, (j < k)%nat →
                  found (lookup_module (late_registry j)
                           (ByProps ["dispatch"; "subscribe"])) = false
    | Throw e =>
        e = not_found_error (ByProps ["dispatch"; "subscribe"]) ∧
        ∀ j, (j < n)%nat →
             found (lookup_module (late_registry j)
                      (ByProps ["dispatch"; "subscribe"])) = false
    end.
Proof.
  apply (waitForModule_polls_until_timeout 150 late_registry (λ _, 100)
           (ByProps ["dispatch"; "subscribe"]) WAIT_TIMEOUT_MS).
  - intros k. reflexivity.
  - vm_compute. discriminate.
Defined.

(** ** Representation invariants *)

#[global] Instance keeps_ok_preorder : PreOrder keeps_ok.
Proof. split; unfold keeps_ok; [intros s; auto | intros s1 s2 s3; auto]. Qed.

#[global] Instance keeps_cache_ok_preorder : PreOrder keeps_cache_ok.
Proof. split; unfold keeps_cache_ok; [intros s; auto | intros s1 s2 s3; auto]. Qed.

Lemma preserves_and (R1 R2 : relation plugin) (P1 P2 : event → Prop) {A} (m : M A) :
  preserves R1 P1 m → preserves R2 P2 m → preserves (rel_and R1 R2) any_event m.
Proof.
  intros H1 H2 s. specialize (H1 s). specialize (H2 s).
  destruct (m s) as [[r s'] t]. destruct H1 as [H1 _], H2 as [H2 _].
  split; [by split|]. apply Forall_forall. by intros.
Qed.

Lemma preserves_run (R : relation plugin) (P : event → Prop) {A} (m : M A) s :
  preserves R P m → R s (state_after (m s)).
Proof. intros H. specialize (H s). destruct (m s) as [[r s'] t]. by destruct H. Qed.

Lemma plugin_ok_constructed : plugin_ok constructed.
Proof.
  split; [apply table_ok_nil|]. split; [|split].
  - intros k v Hin. by apply elem_of_nil in Hin.
  - done.
  - exists VUndefined. reflexivity.
Qed.

Section invariants.
Variable h : host.

Lemma fetchUser_cache v : preserves keeps_cache_ok any_event (fetchUser h v).
Proof.
unfold fetchUser.
repeat lazymatch goal with
| |- preserves _ _ (if truthy ?u then modify _ else _) => destruct (truthy u) eqn:Htruthy
| |- _ => preserves_step
end; try done.
intros s Hok. simpl. by apply cache_ok_set.
Qed.

Lemma engine_keeps_ok s s' :
engine_frame s s' → keeps_table_ok s s' → keeps_cache_ok s s' → keeps_ok s s'.
Proof.
intros Hf Ht Hc (Htab & Hcache & Htim & Hcfg).
destruct (engine_frame_fields s s' Hf) as (Hcfg' & Hpt & Htimers & _).
split; [auto|]. split; [auto|]. split.
- unfold timers_ok in *. by rewrite Htimers, Hpt.
- by rewrite Hcfg'.
Qed.

Lemma refreshChannel_cache c : preserves keeps_cache_ok any_event (refreshChannel h c).
Proof.
unfold refreshChannel, decide_then_create, build_and_inject, buildFakeMessage,
  removeFakeMessage, dispatchMessageDelete, injectFakeMessage,
  shouldRenderInChannel, buildEmbeds, decorateContent.
repeat first [apply fetchUser_cache | preserves_step]; try done.
all: by intros s0 Hok.
Qed.

Lemma refreshChannel_keeps_ok c : preserves keeps_ok any_event (refreshChannel h c).
Proof.
eapply preserves_weaken;
  [| |apply (preserves_and _ _ _ _ _ (refreshChannel_frame h c) (refreshChannel_cache c))].
- intros s s' [(Hf & Ht & _) Hc]. by apply engine_keeps_ok.
- done.
Qed.

Lemma fetchUser_keeps_ok v : preserves keeps_ok any_event (fetchUser h v).
Proof.
eapply preserves_weaken;
  [| |apply (preserves_and _ _ _ _ _ (fetchUser_frame h v) (fetchUser_cache v))].
- intros s s' [Hf Hc]. apply engine_keeps_ok; [by apply cache_only_engine_frame| |done].
  intros Ht. by rewrite (cache_only_table _ _ Hf).
- done.
Qed.

Lemma refreshForCurrentChannel_keeps_ok force :
preserves keeps_ok any_event (refreshForCurrentChannel h force).
Proof.
unfold refreshForCurrentChannel, getCurrentChannelId, call_getter.
repeat first [apply refreshChannel_keeps_ok | preserves_step].
Qed.

Lemma clearInjectedMessages_keeps_ok :
preserves keeps_ok any_event (clearInjectedMessages h).
Proof.
unfold clearInjectedMessages, dispatchMessageDelete.
repeat preserves_step; try done.
intros s (_ & Hc & Htim & Hcfg). split; [apply table_ok_nil|done].
Qed.

Lemma reapplyFakeMessages_keeps_ok : preserves keeps_ok any_event (reapplyFakeMessages h).
Proof.
unfold reapplyFakeMessages.
repeat first [apply clearInjectedMessages_keeps_ok
             | apply refreshForCurrentChannel_keeps_ok
             | preserves_step].
Qed.

Lemma timer_cleared_keeps_ok s : keeps_ok s (timer_cleared s).
Proof.
intros (Ht & Hc & Htim & Hcfg).
pose proof (timer_cleared_timers s Htim) as Hnil.
split; [by rewrite injectedMessages_timer_cleared|].
split; [unfold timer_cleared; by destruct (persistTimer s)|].
split; [unfold timers_ok; by rewrite Hnil|].
by rewrite config_timer_cleared.
Qed.

Lemma enqueuePersist_keeps_ok : preserves keeps_ok any_event enqueuePersist.
Proof.
intros s. rewrite enqueuePersist_run. split; [|constructor].
intros Hok. pose proof (timer_cleared_keeps_ok s Hok) as (Ht & Hc & _ & Hcfg).
destruct Hok as (_ & _ & Htim & _).
split; [exact Ht|]. split; [exact Hc|]. split; [|exact Hcfg].
unfold timers_ok. simpl. by rewrite (timer_cleared_timers s Htim).
Qed.

Lemma applyConfig_keeps_ok next o : preserves keeps_ok any_event (applyConfig h next o).
Proof.
unfold applyConfig.
repeat first [apply enqueuePersist_keeps_ok
             | apply reapplyFakeMessages_keeps_ok
             | preserves_step].
intros s (Ht & Hc & Htim & _).
split; [exact Ht|]. split; [exact Hc|]. split; [exact Htim|]. by eexists.
Qed.

Lemma unpatch_loop_keeps_ok ps : preserves keeps_ok any_event (unpatch_loop ps).
Proof.
induction ps as [|undo rest IH]; simpl; repeat first [apply IH | preserves_step];
  try done.
by intros s Hok.
Qed.

Lemma clearPersistTimer_keeps_ok : preserves keeps_ok any_event clearPersistTimer.
Proof.
intros s. rewrite clearPersistTimer_run. split; [|constructor].
apply timer_cleared_keeps_ok.
Qed.

Lemma stop_keeps_ok : preserves keeps_ok any_event (stop h).
Proof.
unfold stop, unsubscribeFromChannelChanges, unpatchAll.
repeat first [apply unpatch_loop_keeps_ok
             | apply clearInjectedMessages_keeps_ok
             | apply clearPersistTimer_keeps_ok
             | preserves_step]; try done; try (by intros s Hok).
Qed.

Lemma persist_callback_unchanged : preserves eq any_event (persist_callback h).
Proof. unfold persist_callback. repeat preserves_step; done. Qed.

Lemma advance_keeps_ok dt : preserves keeps_ok any_event (advance h dt).
Proof.
intros s. unfold advance.
rewrite run_bind, run_modify. cbv beta iota.
rewrite run_bind, run_get_this. cbv beta iota.
rewrite run_bind, run_modify. cbv beta iota.
match goal with
| |- context [for_each ?l ?f ?s1] =>
    pose proof (preserves_for_each eq any_event l f
                  (λ _, persist_callback_unchanged) s1) as Hrun;
    destruct (for_each l f s1) as [[r s'] t]
end.
destruct Hrun as [<- _]. simpl. split; [|apply Forall_forall; by intros].
intros (Ht & Hc & Htim & Hcfg).
split; [exact Ht|]. split; [exact Hc|]. split; [|exact Hcfg].
unfold timers_ok in *. simpl.
destruct (timers s) as [|[id due] [|]]; [done| |done].
rewrite filter_cons, filter_nil. by case_decide.
Qed.

Lemma on_channel_select_keeps_ok payload :
(∃ c, payload_channel payload = VStr c) ∨ truthy (payload_channel payload) = false →
preserves keeps_ok any_event (on_channel_select h payload).
Proof.
unfold on_channel_select. intros [[c ->]| ->]; [|apply preserves_ret; tc_solve].
destruct (truthy (VStr c)); [|apply preserves_ret; tc_solve].
apply preserves_detached. rewrite refreshChannel_of_string.
apply refreshChannel_keeps_ok.
Qed.
End invariants.

(** X19.  The representation invariants hold of the plugin as the
    constructor leaves it, and every operation keeps them, whether it
    returns or throws and whatever the host does: a refresh (direct, of the
    current channel, or by the CHANNEL_SELECT handler for a channel that is
    a string), a reconciliation, a change of configuration, a reset, the
    teardown, the firing of timers and an identity fetch.  The
    configuration that [loadConfig] answers at start went through
    [mergeWithDefaults] too. *)
Theorem operations_keep_invariants (h : host) :
  plugin_ok constructed ∧
  (∀ s, ∃ cfg t, loadConfig h s = (Ret cfg, s, t) ∧ config_merged cfg) ∧
  ∀ s, plugin_ok s →
    (∀ c, plugin_ok (state_after (refreshChannel h c s))) ∧
    (∀ force, plugin_ok (state_after (refreshForCurrentChannel h force s))) ∧
    (∀ payload,
       (∃ c, payload_channel payload = VStr c) ∨
       truthy (payload_channel payload) = false →
       plugin_ok (state_after (on_channel_select h payload s))) ∧
    plugin_ok (state_after (reapplyFakeMessages h s)) ∧
    (∀ next o, plugin_ok (state_after (applyConfig h next o s))) ∧
    (∀ patch o, plugin_ok (state_after (updateConfig h patch o s))) ∧
    plugin_ok (state_after (resetConfigToDefaults h s)) ∧
    plugin_ok (state_after (stop h s)) ∧
    (∀ dt, plugin_ok (state_after (advance h dt s))) ∧
    (∀ v, plugin_ok (state_after (fetchUser h v s))).
Proof.
  split; [apply plugin_ok_constructed|]. split.
  - intros s. destruct (loadConfig_run h s) as [t Hrun].
    eexists _, t. split; [exact Hrun|].
    destruct (stored_value h) as [v|]; [by exists v | by exists VUndefined].
  - intros s Hok.
    split; [intros c; by apply (preserves_run _ _ _ s (refreshChannel_keeps_ok h c))|].
    split; [intros force;
            by apply (preserves_run _ _ _ s (refreshForCurrentChannel_keeps_ok h force))|].
    split; [intros payload Hp;
            by apply (preserves_run _ _ _ s (on_channel_select_keeps_ok h payload Hp))|].
    split; [by apply (preserves_run _ _ _ s (reapplyFakeMessages_keeps_ok h))|].
    split; [intros next o;
            by apply (preserves_run _ _ _ s (applyConfig_keeps_ok h next o))|].
    split.
    { intros patch o. unfold updateConfig. rewrite run_bind, run_get_this. cbv beta iota.
      pose proof (preserves_run _ _ _ s (applyConfig_keeps_ok h
        (VObj (own_props (coalesce patch (VObj ∅)) ∪ config s)) o) Hok) as Hs.
      unfold state_after in *.
      by destruct (applyConfig h _ o s) as [[r s'] t]. }
    split.
    { unfold resetConfigToDefaults. rewrite run_bind.
      pose proof (preserves_run _ _ _ s (applyConfig_keeps_ok h
        (VObj getDefaultConfig) no_options) Hok) as Hs.
      unfold state_after in *.
      by destruct (applyConfig h _ no_options s) as [[[cfg|e] s'] t]. }
    split; [by apply (preserves_run _ _ _ s (stop_keeps_ok h))|].
    split; [intros dt; by apply (preserves_run _ _ _ s (advance_keeps_ok h dt))|].
    intros v. by apply (preserves_run _ _ _ s (fetchUser_keeps_ok h v)).
Qed.


(** ** Failures that escape *)

Lemma for_each_removals_throw h l1 c id l2 e s :
  retractions_return h l1 → removal_result h c id = Throw e →
  for_each (l1 ++ (c, id) :: l2) (λ x, dispatchMessageDelete h x.1 x.2) s =
    (Throw e, s, removal_calls h l1 ++ removal_call h c id).
Proof.
  intros Hret Hthrow. induction l1 as [|[c1 id1] l1 IH]; simpl.
  - rewrite run_bind, dispatchMessageDelete_run. simpl. rewrite Hthrow.
    reflexivity.
  - rewrite run_bind, dispatchMessageDelete_run. simpl.
    rewrite (Hret c1 id1) by left. rewrite IH.
    + change (removal_calls h ((c1, id1) :: l1))
        with (removal_call h c1 id1 ++ removal_calls h l1).
      by rewrite app_assoc.
    + intros c' id' Hin. apply Hret. by right.
Qed.

(** X20.  A retraction that throws leaves the table behind the host.
    When the removal collaborator throws at an entry of the table, the
    entries before it having been retracted, [clearInjectedMessages] throws
    what the collaborator threw and keeps the whole table, the retracted
    entries included; [stop] then throws too, with the plugin marked as not
    started and the persistence timer still pending. *)
Theorem clearInjectedMessages_throw_keeps_table
    (h : host) (s : plugin) (l1 l2 : list (string * string)) (c id : string) (e : value) :
  injectedMessages s = l1 ++ (c, id) :: l2 →
  retractions_return h l1 → removal_result h c id = Throw e →
  clearInjectedMessages h s =
    (Throw e, s, removal_calls h l1 ++ removal_call h c id) ∧
  match stop h s with
  | (r, s', t) =>
      r = Throw e ∧ injectedMessages s' = injectedMessages s ∧
      started s' = false ∧
      persistTimer s' = persistTimer s ∧ timers s' = timers s ∧
      (has_removal_collaborator h → removals t = l1 ++ [(c, id)])
  end.
Proof.
  intros Htab Hret Hthrow.
  assert (Hclear : ∀ s0, injectedMessages s0 = l1 ++ (c, id) :: l2 →
            clearInjectedMessages h s0 =
              (Throw e, s0, removal_calls h l1 ++ removal_call h c id)).
  { intros s0 Hs0. unfold clearInjectedMessages. rewrite run_bind, run_get_this.
    cbv beta iota. rewrite run_bind, Hs0.
    by rewrite (for_each_removals_throw h l1 c id l2 e s0 Hret Hthrow). }
  split; [by apply Hclear|].
  destruct (stop_run h s) as (t & Ht & Hstop).
  rewrite (Hclear (unwired s)) in Hstop by exact Htab. rewrite Hstop.
  repeat split; try done.
  intros Hcol. rewrite !removals_app, (removals_teardown t Ht).
  rewrite removals_removal_calls, removals_removal_call by done. done.
Qed.

Lemma clearInjectedMessages_throw_keeps_table_witness :
  clearInjectedMessages failing_removal_host one_active_armed =
    (Throw (VStr "message not found"), one_active_armed,
     removal_calls failing_removal_host [] ++
     removal_call failing_removal_host "11111" "fake-message-composer:11111") ∧
  match stop failing_removal_host one_active_armed with
  | (r, s', t) =>
      r = Throw (VStr "message not found") ∧
      injectedMessages s' = injectedMessages one_active_armed ∧
      started s' = false ∧
      persistTimer s' = persistTimer one_active_armed ∧
      timers s' = timers one_active_armed ∧
      (has_removal_collaborator failing_removal_host →
         removals t = [] ++ [("11111", "fake-message-composer:11111")])
  end.
Proof.
  apply (clearInjectedMessages_throw_keeps_table failing_removal_host one_active_armed
           [] [] "11111" "fake-message-composer:11111" (VStr "message not found")).
  - reflexivity.
  - intros c id Hin. by apply elem_of_nil in Hin.
  - reflexivity.
Defined.

(** X21.  The gate reads the configuration and changes nothing.  It
    throws in one case only: the configuration is enabled, the source
    identity is valid, and the content is neither a string nor null nor
    undefined, so that it has no [trim].  [refreshChannel] evaluates the gate
    outside its [try] block: with nothing tracked for the channel, the
    refresh then throws what the gate threw, and does nothing else. *)
Theorem shouldRenderInChannel_throws_on_untrimmable_content
    (h : host) (c : string) (s : plugin) :
  (∃ r, shouldRenderInChannel c s = (r, s, []) ∧
        ∀ e, r = Throw e ↔
             e = TypeError ∧
             truthy (field (config s) "enabled") = true ∧
             isSnowflake (field (config s) "discordId") = true ∧
             opt_trim (field (config s) "messageContent") = Throw TypeError) ∧
  (∀ v, opt_trim v = Throw TypeError ↔
        match v with VUndefined | VNull | VStr _ => False | _ => True end) ∧
  (∀ e, shouldRenderInChannel c s = (Throw e, s, []) →
        c ≠ "" → JsMap.get c (injectedMessages s) = None →
        refreshChannel h c s = (Throw e, s, [])).
Proof.
  split; [|split].
  - unfold shouldRenderInChannel. mrun.
    destruct (truthy (field (config s) "enabled")) eqn:Hen; mrun;
      [|eexists; split; [reflexivity|]; intros e; split; [done|by intros (_ & ? & _)]].
    destruct (isSnowflake (field (config s) "discordId")) eqn:Hid; mrun;
      [|eexists; split; [reflexivity|]; intros e; split; [done|by intros (_ & _ & ? & _)]].
    destruct (opt_trim (field (config s) "messageContent")) as [u|e0] eqn:Hu; mrun.
    + destruct (truthy u); mrun;
        [|eexists; split; [reflexivity|]; intros e; split; [done|by intros (_ & _ & _ & ?)]].
      destruct (strict_eq_string (field (config s) "channelMode") "specific"); mrun;
        [|eexists; split; [reflexivity|]; intros e; split; [done|by intros (_ & _ & _ & ?)]].
      destruct (isSnowflake (field (config s) "targetChannelId")); mrun;
        eexists; (split; [reflexivity|]); intros e; (split; [done|by intros (_ & _ & _ & ?)]).
    + assert (He0 : e0 = TypeError).
      { destruct (field (config s) "messageContent"); simpl in Hu; congruence. }
      subst e0. eexists. split; [reflexivity|].
      intros e. split; [intros He; by simplify_eq|by intros (-> & _)].
  - intros v. destruct v; simpl; split; (done || by intros []).
  - intros e Hgate Hc Hget. unfold refreshChannel.
    apply is_empty_false in Hc. rewrite Hc.
    rewrite run_bind. unfold removeFakeMessage at 1.
    rewrite run_bind, run_get_this. cbv beta iota. rewrite Hget.
    cbv [mret M_ret ret]. cbv beta iota.
    unfold decide_then_create. rewrite run_bind, Hgate. reflexivity.
Qed.

(** ** Closing the gate *)

(** X22.  A change of configuration that closes the gate takes every item
    away.  When [updateConfig] is called on a started plugin with a patch
    after which the gate is closed for every channel, such as
    [{enabled: false}] or an empty source identity, and the removal
    collaborator does not throw, every tracked item is retracted once, in
    the order of the table, nothing is injected and the table is left
    empty. *)
Theorem updateConfig_closing_gate_retracts_all
    (h : host) (patch : value) (s : plugin) :
  started s = true →
  retractions_return h (injectedMessages s) →
  (∀ c, ¬ gate_open (patched (config s) patch) c) →
  match updateConfig h patch no_options s with
  | (r, s', t) =>
      config s' = patched (config s) patch ∧
      injectedMessages s' = [] ∧
      t = removal_calls h (injectedMessages s) ∧
      creations t = [] ∧
      ((∀ e, current_channel h ≠ Throw e) → r = Ret (patched (config s) patch))
  end.
Proof.
  intros Hstarted Hret Hclosed.
  set (cfg := patched (config s) patch) in *.
  set (s0 := set_persistTimer (Some (next_timer s))
               (set_timers
                  (timers (timer_cleared (set_config cfg s))
                   ++ [(next_timer s, now s + PERSIST_DEBOUNCE_MS)])
                  (Pos.succ (next_timer s))
                  (timer_cleared (set_config cfg s)))).
  assert (Hs0 : config s0 = cfg ∧ started s0 = started s ∧
                injectedMessages s0 = injectedMessages s).
  { unfold s0. simpl. rewrite config_timer_cleared, injectedMessages_timer_cleared.
    split; [done|]. split; [|done]. unfold timer_cleared. simpl.
    by destruct (persistTimer s). }
  destruct Hs0 as (Hcfg0 & Hst0 & Htab0).
  assert (Hrun : updateConfig h patch no_options s =
                 match reapplyFakeMessages h s0 with
                 | (Ret _, s1, t1) => (Ret (config s1), s1, t1)
                 | (Throw e, s1, t1) => (Throw e, s1, t1)
                 end).
  { unfold updateConfig, applyConfig. cbv zeta.
    rewrite run_bind, run_get_this. cbv beta iota.
    rewrite run_bind, run_get_this. cbv beta iota.
    rewrite run_bind, run_modify. cbv beta iota.
    change (mergeWithDefaults (coalesce (VObj _) (VObj (config s)))) with cfg.
    change (negb (skipPersist no_options)) with true.
    change (negb (skipReload no_options)) with true. cbv beta iota.
    rewrite run_bind, enqueuePersist_run. cbv beta iota.
    change (set_persistTimer _ _) with s0. rewrite run_bind.
    destruct (reapplyFakeMessages h s0) as [[[[]|e] s1] t1]; [|done].
    rewrite run_bind, run_get_this. cbv beta iota.
    cbv [mret M_ret ret]. by rewrite !app_nil_r. }
  rewrite Hrun. clear Hrun.
  unfold reapplyFakeMessages. rewrite run_bind. cbv [get_this]. rewrite Hst0, Hstarted.
  simpl.
  rewrite run_bind, clearInjectedMessages_run by (by rewrite Htab0).
  destruct (refreshForCurrentChannel_closed h (set_injectedMessages [] s0) eq_refl)
    as (r & -> & Hr).
  { intros c. change (config (set_injectedMessages [] s0)) with (config s0).
    rewrite Hcfg0. apply Hclosed. }
  rewrite Htab0, app_nil_r.
  assert (Hcr : creations (removal_calls h (injectedMessages s)) = []).
  { apply creations_not_creation, removal_calls_not_creation. }
  assert (Hcfg1 : config (timer_cleared (set_config cfg s)) = cfg)
    by (by rewrite config_timer_cleared).
  destruct r as [[]|e]; simpl; rewrite Hcfg1;
    (split; [done|]); (split; [done|]); (split; [done|]); (split; [done|]).
  - done.
  - intros Hno. destruct Hr as [?|[e' He']]; [done|]. by destruct (Hno e').
Qed.

Lemma updateConfig_closing_gate_retracts_all_witness :
  let patch := VObj {[ "enabled" := VBool false ]} in
  match updateConfig quiet_host patch no_options one_active with
  | (r, s', t) =>
      config s' = patched (config one_active) patch ∧
      injectedMessages s' = [] ∧
      t = removal_calls quiet_host (injectedMessages one_active) ∧
      creations t = [] ∧
      ((∀ e, current_channel quiet_host ≠ Throw e) →
       r = Ret (patched (config one_active) patch))
  end.
Proof.
  apply (updateConfig_closing_gate_retracts_all quiet_host
           (VObj {[ "enabled" := VBool false ]}) one_active).
  - reflexivity.
  - intros c id _. reflexivity.
  - intros c (Hen & _). vm_compute in Hen. discriminate.
Defined.

(** ** The scope of the gate *)

(** X23.  The scope is not checked against its two values: with an
    enabled configuration, a valid source identity and a content that is not
    blank, every scope other than "specific" is the scope of all channels,
    and the gate answers yes for every channel, the target channel being
    ignored. *)
Theorem scope_other_than_specific_is_any (c : string) (s : plugin) :
  otherwise_valid (config s) →
  field (config s) "channelMode" ≠ VStr "specific" →
  shouldRenderInChannel c s = (Ret true, s, []).
Proof.
  intros (Hen & Hid & Hm) Hmode. apply shouldRenderInChannel_open.
  split; [done|]. split; [done|]. split; [done|]. intros Hs. by destruct Hmode.
Qed.

Lemma scope_other_than_specific_is_any_witness :
  shouldRenderInChannel "22222" (started_with any_channel_config)
    = (Ret true, started_with any_channel_config, []).
Proof.
  apply (scope_other_than_specific_is_any "22222" (started_with any_channel_config)).
  - split; [reflexivity|]. split.
    + exists "123456789012345". split; reflexivity.
    + exists "hello". split; [reflexivity|discriminate].
  - vm_compute. discriminate.
Defined.

(** X24.  The target channel is checked after trimming but compared as it
    is.  Under the scope "specific", a target identifier with white space
    around it can pass the identifier check, and still the gate never
    answers yes for a channel whose identifier has no white space around it:
    the comparison is with the untrimmed target. *)
Theorem padded_target_matches_no_channel (c tc : string) (s : plugin) :
  field (config s) "channelMode" = VStr "specific" →
  field (config s) "targetChannelId" = VStr tc →
  trim tc ≠ tc → trim c = c →
  ∃ r, shouldRenderInChannel c s = (r, s, []) ∧ r ≠ Ret true.
Proof.
  intros Hmode Htc Hpad Hc.
  destruct (shouldRenderInChannel_run c s) as (r & Hrun & Hopen).
  exists r. split; [exact Hrun|]. intros ->.
  destruct (Hopen eq_refl) as (_ & _ & _ & Hspec).
  destruct (Hspec Hmode) as (tc' & Htc' & <- & _).
  rewrite Htc in Htc'. by simplify_eq.
Qed.

Lemma padded_target_matches_no_channel_witness :
  isSnowflake (VStr " 11111") = true ∧
  ∃ r, shouldRenderInChannel "11111" (started_with (specific_config " 11111"))
         = (r, started_with (specific_config " 11111"), []) ∧
       r ≠ Ret true.
Proof.
  split; [reflexivity|].
  apply (padded_target_matches_no_channel "11111" " 11111"
           (started_with (specific_config " 11111"))); try reflexivity.
  vm_compute. discriminate.
Defined.

(** ** Link entries *)

(** X25.  [normalizeEmbeds] never fails and answers a list of entries with
    a string label and a string url, one per element of the array it was
    given, in order; for anything that is not an array it answers the empty
    list; and it is idempotent. *)
Theorem normalizeEmbeds_shape (candidate : value) :
  (∃ l, normalizeEmbeds candidate = (λ e, embed_entry e.1 e.2) <$> l ∧
        match candidate with
        | VArr entries =>
            l = (λ entry, (string_or_empty (opt_prop entry "label"),
                           string_or_empty (opt_prop entry "url"))) <$> entries
        | _ => l = []
        end) ∧
  length (normalizeEmbeds candidate) =
    match candidate with VArr entries => length entries | _ => 0%nat end ∧
  normalizeEmbeds (VArr (normalizeEmbeds candidate)) = normalizeEmbeds candidate.
Proof.
  assert (Hshape : ∃ l, normalizeEmbeds candidate = (λ e, embed_entry e.1 e.2) <$> l ∧
        match candidate with
        | VArr entries =>
            l = (λ entry, (string_or_empty (opt_prop entry "label"),
                           string_or_empty (opt_prop entry "url"))) <$> entries
        | _ => l = []
        end).
  { destruct candidate as [| | | | | entries |]; try (by exists []).
    eexists. split; [|reflexivity]. simpl. by rewrite <- list_fmap_compose. }
  split; [exact Hshape|]. split.
  - destruct candidate; simpl; try done. by rewrite length_fmap.
  - destruct Hshape as (l & -> & _). apply (normalizeEmbeds_entries l).
Qed.
